(** * A shallow embedding of the article generator's server-side logic

    The development follows the Express routes of the application:
    the article routes (prompt builder, output parser, word count,
    update and regenerate), the topic and image aggregators, the
    WordPress publisher helpers and the registration route together
    with the Mongoose pre-save hooks of the two models. *)

From Stdlib Require Import String Ascii QArith.
From stdpp Require Import base numbers list option gmap sets sorting.

Local Open Scope N_scope.

(** ** JavaScript strings and values *)

Module JS.

(** A JavaScript string is a sequence of UTF-16 code units. *)
Definition jsstring := list N.

(** A Rocq string literal read as code units, one per character. *)
Fixpoint str (s : string) : jsstring :=
  match s with
  | EmptyString => []
  | String c r => N_of_ascii c :: str r
  end.

Definition LF : N := 10.

(** [WhiteSpace] and [LineTerminator] code points: the characters that
    [String.prototype.trim] strips and that the regular expression class
    [\s] matches. *)
Definition is_ws (c : N) : bool :=
  (9 <=? c) && (c <=? 13) || (c =? 32) || (c =? 160) || (c =? 5760)
  || (8192 <=? c) && (c <=? 8202) || (c =? 8232) || (c =? 8233)
  || (c =? 8239) || (c =? 8287) || (c =? 12288) || (c =? 65279).

Fixpoint trimStart (s : jsstring) : jsstring :=
  match s with
  | c :: r => if is_ws c then trimStart r else s
  | [] => []
  end.

Definition trimEnd (s : jsstring) : jsstring := rev (trimStart (rev s)).

Definition trim (s : jsstring) : jsstring := trimEnd (trimStart s).

Definition eqb (a b : jsstring) : bool := bool_decide (a = b).

(** [s.startsWith(p)] *)
Fixpoint startsWith (p s : jsstring) : bool :=
  match p, s with
  | [], _ => true
  | a :: p', b :: s' => (a =? b) && startsWith p' s'
  | _ :: _, [] => false
  end.

(** [s.includes(p)] *)
Fixpoint includes (p s : jsstring) : bool :=
  startsWith p s ||
  match s with
  | [] => false
  | _ :: r => includes p r
  end.

(** [s.replace(pat, rep)] with a string pattern: only the first occurrence
    is replaced.  The replacement is inserted literally (the callers pass
    the empty string, which has no [$] patterns). *)
Fixpoint replace (pat rep s : jsstring) : jsstring :=
  if startsWith pat s then rep ++ drop (length pat) s
  else match s with
       | [] => []
       | c :: r => c :: replace pat rep r
       end.

(** [s.split(sep)] for a string separator.  [skip] counts the code units
    of a separator occurrence that are still to be consumed, [cur] holds the
    current piece in reverse. *)
Fixpoint split_go (sep : jsstring) (skip : nat) (cur s : jsstring)
  : list jsstring :=
  match s with
  | [] => [rev cur]
  | c :: r =>
      match skip with
      | S k => split_go sep k cur r
      | O => if startsWith sep s
             then rev cur :: split_go sep (length sep - 1) [] r
             else split_go sep 0 (c :: cur) r
      end
  end.

Definition split (sep s : jsstring) : list jsstring :=
  match sep with
  | [] => (fun c => [c]) <$> s
  | _ :: _ => split_go sep 0 [] s
  end.

(** [parts.join(sep)] *)
Fixpoint join (sep : jsstring) (parts : list jsstring) : jsstring :=
  match parts with
  | [] => []
  | [p] => p
  | p :: ps => p ++ sep ++ join sep ps
  end.

(** [s.split(/\s+/)]: the pieces between maximal runs of white space.
    [inrun] records that the previous code unit was white space. *)
Fixpoint split_ws_go (inrun : bool) (cur s : jsstring) : list jsstring :=
  match s with
  | [] => [rev cur]
  | c :: r =>
      if is_ws c
      then if inrun then split_ws_go true cur r
           else rev cur :: split_ws_go true [] r
      else split_ws_go false (c :: cur) r
  end.

Definition split_ws (s : jsstring) : list jsstring := split_ws_go false [] s.

(** Values as they arrive in a JSON request body or are read from an
    object property.  Numbers are restricted to integers: [JNum n] is the
    number [n] for an integer that a double holds, which every integer up to
    2^53 in absolute value is. *)
Inductive jsval :=
| JUndefined
| JNull
| JBool (b : bool)
| JNum (n : Z)
| JStr (s : jsstring).

#[global] Instance jsval_eq_dec : EqDecision jsval.
Proof. solve_decision. Defined.

Definition jsval_enc (v : jsval) : unit + unit + bool + Z + list N :=
  match v with
  | JUndefined => inl (inl (inl (inl ())))
  | JNull => inl (inl (inl (inr ())))
  | JBool b => inl (inl (inr b))
  | JNum n => inl (inr n)
  | JStr s => inr s
  end.

Definition jsval_dec (e : unit + unit + bool + Z + list N) : jsval :=
  match e with
  | inl (inl (inl (inl _))) => JUndefined
  | inl (inl (inl (inr _))) => JNull
  | inl (inl (inr b)) => JBool b
  | inl (inr n) => JNum n
  | inr s => JStr s
  end.

#[global] Instance jsval_countable : Countable jsval.
Proof.
  apply (inj_countable' jsval_enc jsval_dec).
  intros []; reflexivity.
Defined.

(** ToBoolean *)
Definition truthy (v : jsval) : bool :=
  match v with
  | JUndefined | JNull => false
  | JBool b => b
  | JNum n => negb (n =? 0)%Z
  | JStr s => negb (eqb s [])
  end.

(** [a || b] *)
Definition or_else (a b : jsval) : jsval := if truthy a then a else b.

(** [s || d] on strings *)
Definition str_or (s d : jsstring) : jsstring :=
  match s with [] => d | _ :: _ => s end.

Definition digit (d : N) : N := 48 + d.

Fixpoint digits_go (fuel : nat) (n : N) (acc : jsstring) : jsstring :=
  match fuel with
  | O => acc
  | S f => let acc' := digit (n mod 10) :: acc in
           if n <? 10 then acc' else digits_go f (n / 10) acc'
  end.

(** Decimal digits of a natural number; [N.size_nat n] bits bound the
    number of digits, so the fuel is never exhausted. *)
Definition digits (n : N) : jsstring := digits_go (S (N.size_nat n)) n [].

(** The double nearest to a positive integer, ties to the even
    significand of 53 bits: what a numeric literal of that integer
    denotes. *)
Definition toDouble (m : Z) : Z :=
  let bits := (Z.log2 m + 1)%Z in
  if (bits <=? 53)%Z then m
  else
    let sh := (bits - 53)%Z in
    let q := Z.shiftr m sh in
    let r := (m - Z.shiftl q sh)%Z in
    let half := Z.shiftl 1 (sh - 1) in
    let q' := if (half <? r)%Z || ((r =? half)%Z && Z.odd q) then (q + 1)%Z else q in
    Z.shiftl q' sh.

(** The decimal with the fewest significant digits that denotes the
    double [d], as an integer: for [k] = 1, 2, ... the multiples of
    [10^(D - k)] next to [d] are tried, [D] being the number of digits of
    [d]; of two that fit, the nearer one is taken, the even one on a tie. *)
Fixpoint shortest (fuel : nat) (k d D : Z) : Z :=
  match fuel with
  | O => d
  | S f =>
      let p := (10 ^ (D - k))%Z in
      let lo := (d / p * p)%Z in
      let hi := (lo + p)%Z in
      let okLo := (0 <? lo)%Z && (toDouble lo =? d)%Z in
      let okHi := (toDouble hi =? d)%Z in
      if okLo && okHi then
        if (d - lo <? hi - d)%Z then lo
        else if (hi - d <? d - lo)%Z then hi
        else if Z.even (lo / p) then lo else hi
      else if okLo then lo
      else if okHi then hi
      else shortest f (k + 1)%Z d D
  end.

Fixpoint dropZeros (reversed : jsstring) : jsstring :=
  match reversed with
  | 48 :: r => dropZeros r
  | _ => reversed
  end.

(** Number::toString of a positive integer: the digits of the shortest
    decimal, in full below 10^21 and in exponent form from there on, and
    [Infinity] beyond the largest double. *)
Definition showPositive (m : Z) : jsstring :=
  let d := toDouble m in
  if (1024 <=? Z.log2 d)%Z then str "Infinity"
  else
    let D := Z.of_nat (length (digits (Z.to_N d))) in
    let v := shortest (Z.to_nat (Z.min D 17)) 1 d D in
    let ds := digits (Z.to_N v) in
    if (length ds <=? 21)%nat then ds
    else
      let significant := rev (dropZeros (rev ds)) in
      take 1 significant ++
      match drop 1 significant with
      | [] => []
      | more => 46 :: more
      end ++
      str "e+" ++ digits (N.of_nat (length ds - 1)).

(** ToString, as applied by template literals *)
Definition toString (v : jsval) : jsstring :=
  match v with
  | JUndefined => str "undefined"
  | JNull => str "null"
  | JBool true => str "true"
  | JBool false => str "false"
  | JNum Z0 => str "0"
  | JNum (Zpos p) => showPositive (Zpos p)
  | JNum (Zneg p) => 45 :: showPositive (Zpos p)
  | JStr s => s
  end.

(** The property names that every object literal inherits from
    [Object.prototype]. *)
Definition inheritedNames : list jsstring :=
  Eval cbv in
    [ str "constructor"; str "__proto__"; str "hasOwnProperty"; str "isPrototypeOf";
      str "propertyIsEnumerable"; str "toLocaleString"; str "toString"; str "valueOf";
      str "__defineGetter__"; str "__defineSetter__"; str "__lookupGetter__";
      str "__lookupSetter__" ].

(** [table[key]] on an object literal whose own properties are those of
    [table]: the own value, or the value inherited under that name (a
    function, or the prototype object under [__proto__]; each of them truthy,
    none of them an array, none with an element [0] or a method [slice]), or
    [undefined]. *)
Inductive property (A : Type) :=
| Own (a : A)
| Inherited
| Absent.
Arguments Own {A} a.
Arguments Inherited {A}.
Arguments Absent {A}.

Definition getProperty {A} (table : gmap (list N) A) (key : jsstring) : property A :=
  match table !! key with
  | Some a => Own a
  | None => if bool_decide (key ∈ inheritedNames) then Inherited else Absent
  end.

(** [arr.slice(0, k)]: a negative [k] counts from the end. *)
Definition slice0 {A} (l : list A) (k : Z) : list A :=
  if (k <? 0)%Z then take (Z.to_nat (Z.of_nat (length l) + k)) l
  else take (Z.to_nat k) l.

End JS.

Import JS.

(** Result of an awaited call that may reject, and of a [try] block. *)
Inductive outcome (A : Type) :=
| Returns (a : A)
| Throws.
Arguments Returns {A} a.
Arguments Throws {A}.

#[global] Instance outcome_bind : MBind outcome := fun A B k m =>
  match m with
  | Returns a => k a
  | Throws => Throws
  end.

(** [try { body } catch { handler }] *)
Definition try_catch {A} (body : outcome A) (handler : A) : A :=
  match body with
  | Returns a => a
  | Throws => handler
  end.


(** ** Article routes: prompt builder, output parser, word count *)

Module Articles.

(** The [writingStyle] object. *)
Record Style := {
  voice : jsval;
  complexity : jsval;
  structure : jsval;
  examples : jsval;
  quotes : jsval;
  callToAction : jsval;
  customInstructions : jsval
}.

Record PromptArgs := {
  pa_topic : jsval;
  pa_niche : jsval;
  pa_writingStyle : option Style;   (* [None]: undefined or null *)
  pa_wordCount : jsval;
  pa_tone : jsval;
  pa_customPrompt : jsval
}.

Definition quote : jsstring := [34].
Definition nl : jsstring := [LF].

Definition formatInstructions : jsstring :=
  nl ++ nl ++ str "Format the response as follows:" ++ nl ++
  str "TITLE: [Your article title here]" ++ nl ++
  nl ++
  str "CONTENT:" ++ nl ++
  str "[Your article content here]" ++ nl ++
  nl ++
  str "Make sure the content is engaging, informative, and well-structured with proper paragraphs, headings, and bullet points where appropriate.".

(** [if (v) prompt += label + v] *)
Definition addLine (label : jsstring) (v : jsval) (prompt : jsstring) : jsstring :=
  if truthy v then prompt ++ nl ++ label ++ toString v else prompt.

Definition buildArticlePrompt (a : PromptArgs) : jsstring :=
  let prompt :=
    str "Write a " ++ toString (pa_wordCount a) ++ str "-word article about " ++
    quote ++ toString (pa_topic a) ++ quote ++ str " in the " ++
    toString (pa_niche a) ++ str " niche." in
  let prompt :=
    if truthy (pa_tone a)
    then prompt ++ nl ++ nl ++ str "Tone: Write in a " ++ toString (pa_tone a) ++ str " tone."
    else prompt in
  let prompt :=
    match pa_writingStyle a with
    | Some ws =>
        let prompt := prompt ++ nl ++ nl ++ str "Writing Style:" in
        let prompt := addLine (str "- Voice: ") (voice ws) prompt in
        let prompt := addLine (str "- Complexity: ") (complexity ws) prompt in
        let prompt := addLine (str "- Structure: ") (structure ws) prompt in
        let prompt := addLine (str "- Include examples: ") (examples ws) prompt in
        let prompt := addLine (str "- Include quotes: ") (quotes ws) prompt in
        let prompt := addLine (str "- Call to action: ") (callToAction ws) prompt in
        prompt
    | None => prompt
    end in
  let prompt :=
    if truthy (pa_customPrompt a)
    then prompt ++ nl ++ nl ++ str "Additional Instructions: " ++ toString (pa_customPrompt a)
    else prompt in
  prompt ++ formatInstructions.

Record Parsed := { p_title : jsstring; p_content : jsstring }.

Definition TITLE_ : jsstring := Eval cbv in str "TITLE:".
Definition CONTENT_ : jsstring := Eval cbv in str "CONTENT:".
Definition GeneratedArticle : jsstring := Eval cbv in str "Generated Article".

(** The loop variables [title], [articleContent], [isContent]. *)
Record Scan := {
  sc_title : jsstring;
  sc_articleContent : jsstring;
  sc_isContent : bool
}.

(** One iteration of [for (const line of lines)]. *)
Definition scanLine (st : Scan) (line : jsstring) : Scan :=
  if startsWith TITLE_ line then
    {| sc_title := trim (replace TITLE_ [] line);
       sc_articleContent := sc_articleContent st;
       sc_isContent := sc_isContent st |}
  else if startsWith CONTENT_ line then
    {| sc_title := sc_title st;
       sc_articleContent := sc_articleContent st;
       sc_isContent := true |}
  else if sc_isContent st then
    {| sc_title := sc_title st;
       sc_articleContent := sc_articleContent st ++ line ++ nl;
       sc_isContent := true |}
  else st.

(** [let title = ''; let articleContent = ''; let isContent = false;] *)
Definition scanInit : Scan :=
  {| sc_title := []; sc_articleContent := []; sc_isContent := false |}.

Definition scanLines (lines : list jsstring) : Scan :=
  foldl scanLine scanInit lines.

Definition parseGeneratedContent (content : jsstring) : Parsed :=
  let lines := split nl content in
  let st := scanLines lines in
  let title := sc_title st in
  let articleContent := sc_articleContent st in
  let '(title, articleContent) :=
    if eqb title [] && eqb articleContent [] then
      let parts := split (nl ++ nl) content in
      (str_or (default [] (head parts)) GeneratedArticle,
       str_or (join (nl ++ nl) (drop 1 parts)) content)
    else (title, articleContent) in
  {| p_title := str_or title GeneratedArticle;
     p_content := str_or (trim articleContent) content |}.

(** [content.split(/\s+/).length] *)
Definition countWords (content : jsstring) : Z :=
  Z.of_nat (length (split_ws content)).

Record Generated := {
  g_title : jsstring;
  g_content : jsstring;
  g_wordCount : Z
}.

Section Generation.

(** The chat-completion call.  Its decoding parameters are constants and
    its token budget [Math.min(wordCount * 2, 4000)] is a function of
    [wordCount], so the text it answers with is taken as a function of the
    prompt and of [wordCount]; a rejected call or a missing message body
    is [Throws]. *)
Variable openai : jsstring -> jsval -> outcome jsstring.

Definition generateArticle (a : PromptArgs) : outcome Generated :=
  (let prompt := buildArticlePrompt a in
   generatedContent ← openai prompt (pa_wordCount a);
   let r := parseGeneratedContent generatedContent in
   let actualWordCount := countWords (p_content r) in
   Returns {| g_title := p_title r;
              g_content := p_content r;
              g_wordCount := actualWordCount |}).

End Generation.

(** *** The Article model and its store *)

Record Image := {
  img_url : jsstring;
  img_alt : jsstring;
  img_caption : jsstring;
  img_position : Z;
  img_source : jsstring;
  img_photographer : jsstring;
  img_photographerUrl : jsstring
}.

Record BlogPost := {
  bp_postId : jsstring;
  bp_postUrl : jsstring;
  bp_publishedAt : N;
  bp_status : jsval;
  bp_featuredImage : option (jsstring * jsstring)
}.

Record Analytics := {
  views : Z;
  likes : Z;
  shares : Z;
  comments : Z
}.

Record SeoData := {
  metaTitle : jsstring;
  metaDescription : jsstring;
  focusKeyword : jsstring;
  readabilityScore : Z;
  seoScore : Z
}.

(** Dates are milliseconds since the epoch; object ids are numbers. *)
Record Article := {
  _id : N;
  userId : N;
  title : jsstring;
  content : jsstring;
  topic : jsstring;
  niche : jsstring;
  writingStyle : Style;
  wordCount : Z;
  tone : jsstring;
  status : jsstring;
  tags : list jsstring;
  keywords : list jsstring;
  seoData : option SeoData;
  images : list Image;
  blogPost : option BlogPost;
  analytics : Analytics;
  generatedAt : N;
  regeneratedAt : option N;
  publishedAt : option N;
  archivedAt : option N;
  createdAt : N;
  updatedAt : N
}.

#[global] Instance Style_eq_dec : EqDecision Style.
Proof. solve_decision. Defined.
#[global] Instance Image_eq_dec : EqDecision Image.
Proof. solve_decision. Defined.
#[global] Instance BlogPost_eq_dec : EqDecision BlogPost.
Proof. solve_decision. Defined.
#[global] Instance Analytics_eq_dec : EqDecision Analytics.
Proof. solve_decision. Defined.
#[global] Instance SeoData_eq_dec : EqDecision SeoData.
Proof. solve_decision. Defined.
#[global] Instance Article_eq_dec : EqDecision Article.
Proof. solve_decision. Defined.

(** The cast that Mongoose applies to a value assigned to a String path:
    [null] and [undefined] stay, every other value of [jsval] is converted
    by its own [toString]. *)
Definition castString (v : jsval) : jsval :=
  match v with
  | JUndefined | JNull => v
  | _ => JStr (toString v)
  end.

Definition convertToTrue : list jsval :=
  Eval cbv in [JBool true; JStr (str "true"); JNum 1; JStr (str "1"); JStr (str "yes")].
Definition convertToFalse : list jsval :=
  Eval cbv in [JBool false; JStr (str "false"); JNum 0; JStr (str "0"); JStr (str "no")].

(** The cast to a Boolean path; [None] is a CastError. *)
Definition castBoolean (v : jsval) : option jsval :=
  if bool_decide (v ∈ convertToTrue) then Some (JBool true)
  else if bool_decide (v ∈ convertToFalse) then Some (JBool false)
  else match v with
       | JUndefined | JNull => Some v
       | _ => None
       end.

(** The casts of the paths of [writingStyle]: three String paths, three
    Boolean paths and a String path. *)
Definition castStyle (ws : Style) : option Style :=
  e ← castBoolean (examples ws);
  q ← castBoolean (quotes ws);
  c ← castBoolean (callToAction ws);
  Some {| voice := castString (voice ws);
          complexity := castString (complexity ws);
          structure := castString (structure ws);
          examples := e; quotes := q; callToAction := c;
          customInstructions := castString (customInstructions ws) |}.

Definition set_title (v : jsstring) (a : Article) : Article :=
  {| _id := _id a; userId := userId a; title := trim v; content := content a;
     topic := topic a; niche := niche a; writingStyle := writingStyle a;
     wordCount := wordCount a; tone := tone a; status := status a;
     tags := tags a; keywords := keywords a; seoData := seoData a;
     images := images a; blogPost := blogPost a; analytics := analytics a;
     generatedAt := generatedAt a; regeneratedAt := regeneratedAt a;
     publishedAt := publishedAt a; archivedAt := archivedAt a;
     createdAt := createdAt a; updatedAt := updatedAt a |}.

Definition set_content (v : jsstring) (a : Article) : Article :=
  {| _id := _id a; userId := userId a; title := title a; content := v;
     topic := topic a; niche := niche a; writingStyle := writingStyle a;
     wordCount := wordCount a; tone := tone a; status := status a;
     tags := tags a; keywords := keywords a; seoData := seoData a;
     images := images a; blogPost := blogPost a; analytics := analytics a;
     generatedAt := generatedAt a; regeneratedAt := regeneratedAt a;
     publishedAt := publishedAt a; archivedAt := archivedAt a;
     createdAt := createdAt a; updatedAt := updatedAt a |}.

Definition set_status (v : jsstring) (a : Article) : Article :=
  {| _id := _id a; userId := userId a; title := title a; content := content a;
     topic := topic a; niche := niche a; writingStyle := writingStyle a;
     wordCount := wordCount a; tone := tone a; status := v;
     tags := tags a; keywords := keywords a; seoData := seoData a;
     images := images a; blogPost := blogPost a; analytics := analytics a;
     generatedAt := generatedAt a; regeneratedAt := regeneratedAt a;
     publishedAt := publishedAt a; archivedAt := archivedAt a;
     createdAt := createdAt a; updatedAt := updatedAt a |}.

Definition set_writingStyle (v : Style) (a : Article) : Article :=
  {| _id := _id a; userId := userId a; title := title a; content := content a;
     topic := topic a; niche := niche a; writingStyle := v;
     wordCount := wordCount a; tone := tone a; status := status a;
     tags := tags a; keywords := keywords a; seoData := seoData a;
     images := images a; blogPost := blogPost a; analytics := analytics a;
     generatedAt := generatedAt a; regeneratedAt := regeneratedAt a;
     publishedAt := publishedAt a; archivedAt := archivedAt a;
     createdAt := createdAt a; updatedAt := updatedAt a |}.

Definition set_wordCount (v : Z) (a : Article) : Article :=
  {| _id := _id a; userId := userId a; title := title a; content := content a;
     topic := topic a; niche := niche a; writingStyle := writingStyle a;
     wordCount := v; tone := tone a; status := status a;
     tags := tags a; keywords := keywords a; seoData := seoData a;
     images := images a; blogPost := blogPost a; analytics := analytics a;
     generatedAt := generatedAt a; regeneratedAt := regeneratedAt a;
     publishedAt := publishedAt a; archivedAt := archivedAt a;
     createdAt := createdAt a; updatedAt := updatedAt a |}.

Definition set_tone (v : jsstring) (a : Article) : Article :=
  {| _id := _id a; userId := userId a; title := title a; content := content a;
     topic := topic a; niche := niche a; writingStyle := writingStyle a;
     wordCount := wordCount a; tone := v; status := status a;
     tags := tags a; keywords := keywords a; seoData := seoData a;
     images := images a; blogPost := blogPost a; analytics := analytics a;
     generatedAt := generatedAt a; regeneratedAt := regeneratedAt a;
     publishedAt := publishedAt a; archivedAt := archivedAt a;
     createdAt := createdAt a; updatedAt := updatedAt a |}.

Definition set_updatedAt (v : N) (a : Article) : Article :=
  {| _id := _id a; userId := userId a; title := title a; content := content a;
     topic := topic a; niche := niche a; writingStyle := writingStyle a;
     wordCount := wordCount a; tone := tone a; status := status a;
     tags := tags a; keywords := keywords a; seoData := seoData a;
     images := images a; blogPost := blogPost a; analytics := analytics a;
     generatedAt := generatedAt a; regeneratedAt := regeneratedAt a;
     publishedAt := publishedAt a; archivedAt := archivedAt a;
     createdAt := createdAt a; updatedAt := v |}.

Definition set_regeneratedAt (v : N) (a : Article) : Article :=
  {| _id := _id a; userId := userId a; title := title a; content := content a;
     topic := topic a; niche := niche a; writingStyle := writingStyle a;
     wordCount := wordCount a; tone := tone a; status := status a;
     tags := tags a; keywords := keywords a; seoData := seoData a;
     images := images a; blogPost := blogPost a; analytics := analytics a;
     generatedAt := generatedAt a; regeneratedAt := Some v;
     publishedAt := publishedAt a; archivedAt := archivedAt a;
     createdAt := createdAt a; updatedAt := updatedAt a |}.

(** A document loaded by [findOne]: the values as stored and the values
    after the handler's assignments.  Mongoose reports a path as modified
    when its current value differs from the loaded one. *)
Record Doc := {
  loaded : Article;
  current : Article
}.

Definition assign (f : Article -> Article) (d : Doc) : Doc :=
  {| loaded := loaded d; current := f (current d) |}.

Definition isModified_content (d : Doc) : bool :=
  negb (eqb (content (current d)) (content (loaded d))).

(** [doc.isModified()]: some path differs from its loaded value. *)
Definition isModified (d : Doc) : bool :=
  negb (bool_decide (current d = loaded d)).

(** The pre-save hook installed by the schema option [timestamps: true],
    for a document that is not new: a modified document gets Mongoose's own
    reading [clock] of the time at the save as its updatedAt, whatever
    the handler assigned to that path. *)
Definition timestampsPreSave (clock : N) (d : Doc) : Doc :=
  if isModified d then assign (set_updatedAt clock) d else d.

(** [doc.path = v] on the nested path [writingStyle].  A value that does
    not cast is recorded on the document and makes the next [save] reject;
    the handlers do nothing but assign in between, so the rejection is taken
    here. *)
Definition assignStyle (ws : Style) (d : Doc) : outcome Doc :=
  match castStyle ws with
  | Some ws' => Returns (assign (set_writingStyle ws') d)
  | None => Throws
  end.

(** [ArticleSchema.pre('save')] *)
Definition preSave (d : Doc) : Doc :=
  if isModified_content d
  then assign (set_wordCount (countWords (content (current d)))) d
  else d.

(** The articles collection, keyed by [_id]. *)
Definition findOne (db : gmap N Article) (articleId uid : N) : option Doc :=
  match db !! articleId with
  | Some a => if (userId a =? uid)%N then Some {| loaded := a; current := a |} else None
  | None => None
  end.

Inductive Response :=
| Json (article : Article) (message : jsstring)
| Error (code : N) (error : jsstring).

Record UpdateBody := {
  ub_title : jsval;
  ub_content : jsval;
  ub_status : jsval
}.

Record RegenerateBody := {
  rb_writingStyle : option Style;
  rb_wordCount : jsval;
  rb_tone : jsval;
  rb_customPrompt : jsval
}.

Section Routes.

Variable openai : jsstring -> jsval -> outcome jsstring.

(** Schema validation, which [save] runs before the pre-save hooks, and
    the write, which it runs after; [false] makes [save] reject. *)
Variable validates : Article -> bool.
Variable writes : Article -> bool.

(** [await article.save()] on a loaded document: validation, the
    timestamps hook, the schema's own hook, the write.  [clock] is the time
    that Mongoose reads at the save. *)
Definition save (db : gmap N Article) (d : Doc) (clock : N)
  : outcome (Article * gmap N Article) :=
  if validates (current d) then
    let a := current (preSave (timestampsPreSave clock d)) in
    if writes a then Returns (a, <[_id a := a]> db) else Throws
  else Throws.

(** [if (v) article.field = v], the value cast to the String path. *)
Definition assignIf (v : jsval) (set : jsstring -> Article -> Article) (d : Doc) : Doc :=
  if truthy v then assign (set (toString v)) d else d.

(** [PUT /api/articles/:id]; [now] is the value of [new Date()], [clock]
    the time read at the save. *)
Definition update (db : gmap N Article) (uid articleId : N)
    (body : UpdateBody) (now clock : N) : Response * gmap N Article :=
  try_catch
    (match findOne db articleId uid with
     | None => Returns (Error 404 (str "Article not found"), db)
     | Some article =>
         let article := assignIf (ub_title body) set_title article in
         let article := assignIf (ub_content body) set_content article in
         let article := assignIf (ub_status body) set_status article in
         let article := assign (set_updatedAt now) article in
         '(a, db') ← save db article clock;
         Returns (Json a (str "Article updated successfully"), db')
     end)
    (Error 500 (str "Failed to update article"), db).

(** [POST /api/articles/:id/regenerate]; [now] and [now'] are the values
    of the two [new Date()] calls, [clock] the time read at the save. *)
Definition regenerate (db : gmap N Article) (uid articleId : N)
    (body : RegenerateBody) (now now' clock : N) : Response * gmap N Article :=
  try_catch
    (match findOne db articleId uid with
     | None => Returns (Error 404 (str "Article not found"), db)
     | Some originalArticle =>
         let orig := current originalArticle in
         let style := default (writingStyle orig) (rb_writingStyle body) in
         let tone' := or_else (rb_tone body) (JStr (tone orig)) in
         newArticle ← generateArticle openai
           {| pa_topic := JStr (topic orig);
              pa_niche := JStr (niche orig);
              pa_writingStyle := Some style;
              pa_wordCount := or_else (rb_wordCount body) (JNum (wordCount orig));
              pa_tone := tone';
              pa_customPrompt := rb_customPrompt body |};
         let d := assign (set_title (g_title newArticle)) originalArticle in
         let d := assign (set_content (g_content newArticle)) d in
         d ← assignStyle style d;
         let d := assign (set_wordCount (g_wordCount newArticle)) d in
         let d := assign (set_tone (toString tone')) d in
         let d := assign (set_updatedAt now) d in
         let d := assign (set_regeneratedAt now') d in
         '(a, db') ← save db d clock;
         Returns (Json a (str "Article regenerated successfully"), db')
     end)
    (Error 500 (str "Failed to regenerate article"), db).

End Routes.

End Articles.

(** ** Aggregators: deduplication shared by topics and images *)

Module Dedupe.

(** [items.filter(item => { const duplicate = seen.has(key(item));
    seen.add(key(item)); return !duplicate; })] with the closure's [seen]
    set threaded through the traversal. *)
Fixpoint filterSeen {A} (key : A -> jsval) (seen : gset jsval) (items : list A)
  : list A :=
  match items with
  | [] => []
  | item :: rest =>
      let duplicate := bool_decide (key item ∈ seen) in
      let seen := {[ key item ]} ∪ seen in
      if duplicate then filterSeen key seen rest
      else item :: filterSeen key seen rest
  end.

End Dedupe.

Import Dedupe.

(** ** Topic aggregator *)

Module Topics.

Record Topic := {
  t_title : jsval;
  t_description : jsval;
  t_source : jsstring;
  t_relevance : Q;
  t_extra : list (jsstring * jsval)   (* url, publishedAt, searchVolume, ... *)
}.

(** An article of a news API response. *)
Record NewsItem := {
  n_title : jsval;
  n_description : jsval;
  n_url : jsval;
  n_publishedAt : jsval
}.

Definition removeDuplicates (topics : list Topic) : list Topic :=
  filterSeen t_title ∅ topics.

Definition fallbackTopics : gmap jsstring (list Topic) :=
  <[ str "technology" :=
       [ {| t_title := JStr (str "Latest AI Developments");
            t_description := JStr (str "Recent advances in artificial intelligence");
            t_source := str "Fallback"; t_relevance := (8 # 10)%Q; t_extra := [] |};
         {| t_title := JStr (str "Cybersecurity Trends");
            t_description := JStr (str "Current cybersecurity challenges and solutions");
            t_source := str "Fallback"; t_relevance := (7 # 10)%Q; t_extra := [] |} ] ]>
  (<[ str "health" :=
       [ {| t_title := JStr (str "Mental Health Awareness");
            t_description := JStr (str "Importance of mental health in modern life");
            t_source := str "Fallback"; t_relevance := (8 # 10)%Q; t_extra := [] |};
         {| t_title := JStr (str "Nutrition Tips");
            t_description := JStr (str "Healthy eating habits and nutrition advice");
            t_source := str "Fallback"; t_relevance := (7 # 10)%Q; t_extra := [] |} ] ]>
  (<[ str "business" :=
       [ {| t_title := JStr (str "Remote Work Trends");
            t_description := JStr (str "The future of remote work and productivity");
            t_source := str "Fallback"; t_relevance := (8 # 10)%Q; t_extra := [] |};
         {| t_title := JStr (str "Digital Marketing Strategies");
            t_description := JStr (str "Effective digital marketing approaches");
            t_source := str "Fallback"; t_relevance := (7 # 10)%Q; t_extra := [] |} ] ]>
  ∅)).

(** The single generic item of [getFallbackTopics]. *)
Definition genericFallback (niche : jsstring) : list Topic :=
  [ {| t_title := JStr (niche ++ str " insights");
       t_description := JStr (str "Latest trends in " ++ niche);
       t_source := str "Fallback"; t_relevance := (6 # 10)%Q; t_extra := [] |} ].

(** What [getFallbackTopics], and with it [getTrendingTopics], hands
    back: an array of topics or, for a niche that names an inherited
    property, the value that the fallback table inherits under that name,
    which is not an array of topics. *)
Inductive Answer :=
| Listed (topics : list Topic)
| InheritedValue (name : jsstring).

(** [fallbackTopics[niche] || [generic]] *)
Definition getFallbackTopics (niche : jsstring) : Answer :=
  match getProperty fallbackTopics niche with
  | Own curated => Listed curated
  | Inherited => InheritedValue niche
  | Absent => Listed (genericFallback niche)
  end.

(** [process.env] *)
Record Env := {
  GOOGLE_TRENDS_API_KEY : jsval;
  NEWS_API_KEY : jsval
}.

(** The awaited provider calls of the two fan-outs. *)
Record Providers := {
  callGoogleTrends : jsstring -> jsstring -> jsstring -> outcome (list Topic);
  callNewsTopics : jsstring -> jsstring -> outcome (list Topic);
  callRedditTopics : jsstring -> outcome (list Topic);
  callTwitterTopics : jsstring -> outcome (list Topic);
  callSearchNewsTopics : jsstring -> jsstring -> Z -> outcome (list Topic);
  callSearchRedditTopics : jsstring -> jsstring -> Z -> outcome (list Topic)
}.

Section Aggregator.

Variable env : Env.
Variable p : Providers.

(** [getTrendingTopics], over the provider calls it awaits.  The local
    array [topics] grows by [push(...results)]. *)
Definition getTrendingTopicsWith (niche country timeframe : jsstring) : Answer :=
  let topics := [] in
  try_catch
    (topics ←
       (if truthy (GOOGLE_TRENDS_API_KEY env)
        then googleTrends ← callGoogleTrends p niche country timeframe;
             Returns (topics ++ googleTrends)
        else Returns topics);
     topics ←
       (if truthy (NEWS_API_KEY env)
        then newsTopics ← callNewsTopics p niche country;
             Returns (topics ++ newsTopics)
        else Returns topics);
     redditTopics ← callRedditTopics p niche;
     let topics := topics ++ redditTopics in
     twitterTopics ← callTwitterTopics p niche;
     let topics := topics ++ twitterTopics in
     let uniqueTopics := removeDuplicates topics in
     Returns (Listed (slice0 uniqueTopics 20)))
    (getFallbackTopics niche).

(** [searchTopics], over the provider calls it awaits. *)
Definition searchTopicsWith (keyword niche : jsstring) (limit : Z) : list Topic :=
  try_catch
    (let topics := [] in
     topics ←
       (if truthy (NEWS_API_KEY env)
        then newsResults ← callSearchNewsTopics p keyword niche limit;
             Returns (topics ++ newsResults)
        else Returns topics);
     redditResults ← callSearchRedditTopics p keyword niche limit;
     let topics := topics ++ redditResults in
     Returns (slice0 (removeDuplicates topics) limit))
    [].

End Aggregator.

(** *** The provider functions of the source *)

Definition getGoogleTrends (niche country timeframe : jsstring) : outcome (list Topic) :=
  Returns
    [ {| t_title := JStr (niche ++ str " trends 2024");
         t_description := JStr (str "Latest trends in " ++ niche ++ str " for 2024");
         t_source := str "Google Trends"; t_relevance := (9 # 10)%Q;
         t_extra := [ (str "searchVolume", JStr (str "high")) ] |} ].

Definition newsTopic (article : NewsItem) : Topic :=
  {| t_title := n_title article;
     t_description := n_description article;
     t_source := str "News API"; t_relevance := (8 # 10)%Q;
     t_extra := [ (str "url", n_url article);
                  (str "publishedAt", n_publishedAt article) ] |}.

Definition subreddits : gmap jsstring (list jsstring) :=
  list_to_map
    [ (str "technology", [str "technology"; str "programming"; str "gadgets"]);
      (str "health", [str "health"; str "fitness"; str "nutrition"]);
      (str "business", [str "business"; str "entrepreneur"; str "investing"]);
      (str "lifestyle", [str "lifestyle"; str "selfimprovement"; str "productivity"]);
      (str "entertainment", [str "entertainment"; str "movies"; str "music"]);
      (str "sports", [str "sports"; str "nba"; str "soccer"]);
      (str "education", [str "education"; str "learnprogramming"; str "science"]);
      (str "travel", [str "travel"; str "backpacking"; str "digitalnomad"]);
      (str "food", [str "food"; str "cooking"; str "recipes"]);
      (str "fashion", [str "fashion"; str "streetwear"; str "beauty"]);
      (str "science", [str "science"; str "futurology"; str "technology"]);
      (str "politics", [str "politics"; str "worldnews"; str "news"]) ].

(** [relevantSubreddits[0]] for [subreddits[niche] || [niche]]: an
    inherited value is truthy and has no element [0]. *)
Definition firstSubreddit (niche : jsstring) : jsval :=
  match getProperty subreddits niche with
  | Own relevantSubreddits => from_option JStr JUndefined (head relevantSubreddits)
  | Inherited => JUndefined
  | Absent => JStr niche
  end.

Definition getRedditTopics (niche : jsstring) : outcome (list Topic) :=
  Returns
    [ {| t_title := JStr (str "Top " ++ niche ++ str " discussions on Reddit");
         t_description := JStr (str "Community discussions about " ++ niche);
         t_source := str "Reddit"; t_relevance := (7 # 10)%Q;
         t_extra := [ (str "subreddit", firstSubreddit niche) ] |} ].

Definition getTwitterTopics (niche : jsstring) : outcome (list Topic) :=
  Returns
    [ {| t_title := JStr (35 :: niche ++ str " trending on Twitter");
         t_description := JStr (str "Latest " ++ niche ++ str " hashtags and discussions");
         t_source := str "Twitter"; t_relevance := (6 # 10)%Q;
         t_extra := [ (str "hashtag", JStr (35 :: niche)) ] |} ].

Definition searchRedditTopics (keyword niche : jsstring) (limit : Z) : outcome (list Topic) :=
  Returns
    [ {| t_title := JStr (str "Reddit discussions about " ++ keyword ++ str " in " ++ niche);
         t_description := JStr (str "Community discussions and insights");
         t_source := str "Reddit"; t_relevance := (7 # 10)%Q;
         t_extra := [ (str "keyword", JStr keyword) ] |} ].

Section Source.

(** The two news API requests: the articles of the response, or a failed
    request. *)
Variable topHeadlines : jsstring -> jsstring -> outcome (list NewsItem).
Variable everything : jsstring -> Z -> outcome (list NewsItem).

Definition getNewsTopics (niche country : jsstring) : outcome (list Topic) :=
  Returns (try_catch (articles ← topHeadlines country niche;
                      Returns (map newsTopic articles)) []).

Definition searchNewsTopics (keyword niche : jsstring) (limit : Z) : outcome (list Topic) :=
  Returns (try_catch (articles ← everything (keyword ++ str " " ++ niche) limit;
                      Returns (map newsTopic articles)) []).

Definition sourceProviders : Providers :=
  {| callGoogleTrends := getGoogleTrends;
     callNewsTopics := getNewsTopics;
     callRedditTopics := getRedditTopics;
     callTwitterTopics := getTwitterTopics;
     callSearchNewsTopics := searchNewsTopics;
     callSearchRedditTopics := searchRedditTopics |}.

Variable env : Env.

Definition getTrendingTopics := getTrendingTopicsWith env sourceProviders.
Definition searchTopics := searchTopicsWith env sourceProviders.

End Source.

End Topics.

Import Topics.

(** ** Image aggregator *)

Module Images.

Record Photo := {
  ph_id : jsval;
  ph_url : jsval;
  ph_thumbUrl : jsval;
  ph_downloadUrl : jsval;
  ph_alt : jsval;
  ph_photographer : jsval;
  ph_photographerUrl : jsval;
  ph_width : jsval;
  ph_height : jsval;
  ph_source : jsstring;
  ph_license : jsstring;
  ph_tags : list jsval
}.

Definition removeDuplicateImages (images : list Photo) : list Photo :=
  filterSeen ph_url ∅ images.

Record Env := {
  UNSPLASH_ACCESS_KEY : jsval;
  PEXELS_API_KEY : jsval
}.

Record Query := {
  q_query : jsstring;
  q_page : Z;
  q_perPage : Z;
  q_orientation : jsval;
  q_color : jsval
}.

Section Aggregator.

Variable env : Env.
Variable encodeURIComponent : jsstring -> jsstring.

(** The awaited calls [searchUnsplash] and [searchPexels]. *)
Variable callUnsplash : Query -> outcome (list Photo).
Variable callPexels : Query -> outcome (list Photo).

Definition placeholder (n : N) (colour : string) (query : jsstring) : Photo :=
  let big := str "https://via.placeholder.com/800x600/" ++ str colour ++
             str "/FFFFFF?text=" ++ encodeURIComponent query in
  let small := str "https://via.placeholder.com/300x200/" ++ str colour ++
               str "/FFFFFF?text=" ++ encodeURIComponent query in
  {| ph_id := JStr (str "fallback-" ++ digits n);
     ph_url := JStr big;
     ph_thumbUrl := JStr small;
     ph_downloadUrl := JStr big;
     ph_alt := JStr query;
     ph_photographer := JStr (str "Placeholder");
     ph_photographerUrl := JStr (str "#");
     ph_width := JNum 800;
     ph_height := JNum 600;
     ph_source := str "Placeholder";
     ph_license := str "Free to use";
     ph_tags := [JStr query] |}.

Definition getFallbackImages (query : jsstring) : list Photo :=
  [ placeholder 1 "4A90E2" query; placeholder 2 "50C878" query ].

Definition searchImages (q : Query) : list Photo :=
  let images := [] in
  try_catch
    (images ←
       (if truthy (UNSPLASH_ACCESS_KEY env)
        then unsplashImages ← callUnsplash q;
             Returns (images ++ unsplashImages)
        else Returns images);
     images ←
       (if truthy (PEXELS_API_KEY env)
        then pexelsImages ← callPexels q;
             Returns (images ++ pexelsImages)
        else Returns images);
     let uniqueImages := removeDuplicateImages images in
     Returns (slice0 uniqueImages (q_perPage q)))
    (getFallbackImages (q_query q)).

End Aggregator.

(** *** The provider functions of the source *)

(** A photo of an Unsplash response and of a Pexels response, with the
    properties that the mappings read. *)
Record UnsplashPhoto := {
  un_id : jsval;
  un_regular : jsval;
  un_thumb : jsval;
  un_download : jsval;
  un_alt_description : jsval;
  un_name : jsval;
  un_html : jsval;
  un_width : jsval;
  un_height : jsval;
  un_tags : list jsval
}.

Record PexelsPhoto := {
  px_id : jsval;
  px_large : jsval;
  px_medium : jsval;
  px_original : jsval;
  px_alt : jsval;
  px_photographer : jsval;
  px_photographer_url : jsval;
  px_width : jsval;
  px_height : jsval
}.

Definition unsplashImage (query : jsstring) (photo : UnsplashPhoto) : Photo :=
  {| ph_id := un_id photo;
     ph_url := un_regular photo;
     ph_thumbUrl := un_thumb photo;
     ph_downloadUrl := un_download photo;
     ph_alt := or_else (un_alt_description photo) (JStr query);
     ph_photographer := un_name photo;
     ph_photographerUrl := un_html photo;
     ph_width := un_width photo;
     ph_height := un_height photo;
     ph_source := str "Unsplash";
     ph_license := str "Free to use";
     ph_tags := un_tags photo |}.

Definition pexelsImage (query : jsstring) (photo : PexelsPhoto) : Photo :=
  {| ph_id := px_id photo;
     ph_url := px_large photo;
     ph_thumbUrl := px_medium photo;
     ph_downloadUrl := px_original photo;
     ph_alt := or_else (px_alt photo) (JStr query);
     ph_photographer := px_photographer photo;
     ph_photographerUrl := px_photographer_url photo;
     ph_width := px_width photo;
     ph_height := px_height photo;
     ph_source := str "Pexels";
     ph_license := str "Free to use";
     ph_tags := [] |}.

Section Source.

(** The two requests: the photos of the response; a failed request, or a
    response without the shape that the mapping reads, is [Throws]. *)
Variable unsplashApi : Query -> outcome (list UnsplashPhoto).
Variable pexelsApi : Query -> outcome (list PexelsPhoto).

(** [searchUnsplash] and [searchPexels]: the request and the mapping sit
    in a [try] whose [catch] answers with the empty array. *)
Definition searchUnsplash (q : Query) : outcome (list Photo) :=
  Returns (try_catch (results ← unsplashApi q;
                      Returns (map (unsplashImage (q_query q)) results)) []).

Definition searchPexels (q : Query) : outcome (list Photo) :=
  Returns (try_catch (photos ← pexelsApi q;
                      Returns (map (pexelsImage (q_query q)) photos)) []).

End Source.

End Images.

Import Images.

(** ** Publisher: the WordPress helpers *)

Module Blog.

(** An axios request: the response data, or the rejection with
    [error.response?.status]. *)
Inductive Remote (A : Type) :=
| Fulfilled (data : A)
| Rejected (status : option Z).
Arguments Fulfilled {A} data.
Arguments Rejected {A} status.

(** [{ success: true, ... }] or [{ success: false, error }] *)
Inductive Result (A : Type) :=
| Success (info : A)
| Failure (error : jsstring).
Arguments Success {A} info.
Arguments Failure {A} error.

(** What a route answers: the status code with the [error] text, or a
    success body. *)
Inductive Reply (A : Type) :=
| Ok (body : A)
| Err (code : N) (error : jsstring).
Arguments Ok {A} body.
Arguments Err {A} code error.

Record Wordpress := {
  siteUrl : jsstring;
  wp_username : jsstring;
  wp_password : jsval;
  wp_apiKey : jsval;
  connected : bool
}.

Record UserMe := {
  um_name : jsval;
  um_roles : option (list jsval);
  um_capabilities : jsval
}.

(** [response.data.capabilities || {}] *)
Inductive Capabilities :=
| Given (capabilities : jsval)
| EmptyObject.

Record BlogInfo := {
  bi_siteUrl : jsstring;
  bi_siteName : jsval;
  bi_userRole : jsval;
  bi_capabilities : Capabilities
}.

Record PostInfo := {
  pi_id : jsval;
  pi_title : jsval;
  pi_status : jsval;
  pi_link : jsval
}.

Record UpdateData := {
  ud_title : option jsval;
  ud_content : option jsval;
  ud_status : option jsval;
  ud_featured_media : option jsval
}.

(** [siteUrl.replace(/\/$/, '')] *)
Definition cleanSiteUrl (siteUrl : jsstring) : jsstring :=
  match rev siteUrl with
  | 47 :: r => rev r
  | _ => siteUrl
  end.

Definition invalidCredentials : jsstring :=
  str "Invalid credentials. Please check your username and password.".
Definition restApiNotFound : jsstring :=
  str "WordPress REST API not found. Please ensure your site has REST API enabled.".
Definition connectionFailed : jsstring :=
  str "Failed to connect to WordPress site. Please check your site URL and credentials.".

Section Helpers.

(** The remote content API, by request. *)
Variable getUsersMe : jsstring -> jsstring -> jsval -> Remote UserMe.
Variable putPost : jsstring -> UpdateData -> jsstring -> jsval -> Remote PostInfo.
Variable deletePost : jsstring -> jsstring -> jsval -> Remote unit.
Variable getPosts : jsstring -> jsstring -> jsval -> Z -> Z -> Remote (list PostInfo * Z * Z).
(** [uploadFeaturedImage] catches its own errors and answers the media
    id or [null]. *)
Variable uploadFeaturedImage : jsval -> Wordpress -> jsval.

Definition testWordPressConnection (siteUrl username : jsstring) (password : jsval)
  : Result BlogInfo :=
  let cleanSiteUrl := cleanSiteUrl siteUrl in
  match getUsersMe (cleanSiteUrl ++ str "/wp-json/wp/v2/users/me") username password with
  | Fulfilled data =>
      Success {| bi_siteUrl := cleanSiteUrl;
                 bi_siteName := um_name data;
                 bi_userRole :=
                   or_else (default JUndefined (um_roles data ≫= head))
                           (JStr (str "unknown"));
                 bi_capabilities :=
                   if truthy (um_capabilities data)
                   then Given (um_capabilities data) else EmptyObject |}
  | Rejected status =>
      if bool_decide (status = Some 401%Z) then Failure invalidCredentials
      else if bool_decide (status = Some 404%Z) then Failure restApiNotFound
      else Failure connectionFailed
  end.

Definition setIf (v : jsval) : option jsval := if truthy v then Some v else None.

Definition updateWordPressPost (postId : jsstring) (blogSettings : Wordpress)
    (title content status featuredImage : jsval) : Result PostInfo :=
  let cleanSiteUrl := cleanSiteUrl (siteUrl blogSettings) in
  let updateData :=
    {| ud_title := setIf title;
       ud_content := setIf content;
       ud_status := setIf status;
       ud_featured_media :=
         if truthy featuredImage
         then Some (uploadFeaturedImage featuredImage blogSettings)
         else None |} in
  match putPost (cleanSiteUrl ++ str "/wp-json/wp/v2/posts/" ++ postId) updateData
          (wp_username blogSettings)
          (or_else (wp_password blogSettings) (wp_apiKey blogSettings)) with
  | Fulfilled data => Success data
  | Rejected _ => Failure (str "Failed to update WordPress post")
  end.

Definition deleteWordPressPost (postId : jsstring) (blogSettings : Wordpress)
  : Result unit :=
  let cleanSiteUrl := cleanSiteUrl (siteUrl blogSettings) in
  match deletePost (cleanSiteUrl ++ str "/wp-json/wp/v2/posts/" ++ postId)
          (wp_username blogSettings)
          (or_else (wp_password blogSettings) (wp_apiKey blogSettings)) with
  | Fulfilled _ => Success ()
  | Rejected _ => Failure (str "Failed to delete WordPress post")
  end.

(** [getWordPressPosts] rethrows every failure as one new [Error]. *)
Definition getWordPressPosts (blogSettings : Wordpress) (page perPage : Z)
  : outcome (list PostInfo * Z * Z) :=
  let cleanSiteUrl := cleanSiteUrl (siteUrl blogSettings) in
  match getPosts (cleanSiteUrl ++ str "/wp-json/wp/v2/posts")
          (wp_username blogSettings)
          (or_else (wp_password blogSettings) (wp_apiKey blogSettings))
          page perPage with
  | Fulfilled r => Returns r
  | Rejected _ => Throws
  end.

Definition isConnected (blogSettings : option Wordpress) : option Wordpress :=
  match blogSettings with
  | Some w => if connected w then Some w else None
  | None => None
  end.

(** [PUT /api/blog/post/:postId]; [blogSettings] is
    [user.blogSettings?.wordpress] of the requesting user. *)
Definition updatePost (blogSettings : option Wordpress) (postId : jsstring)
    (title content status featuredImage : jsval) : Reply PostInfo :=
  match isConnected blogSettings with
  | None => Err 400 (str "Blog not connected")
  | Some w =>
      match updateWordPressPost postId w title content status featuredImage with
      | Failure e => Err 400 e
      | Success info => Ok info
      end
  end.

(** [DELETE /api/blog/post/:postId] *)
Definition deletePostRoute (blogSettings : option Wordpress) (postId : jsstring)
  : Reply unit :=
  match isConnected blogSettings with
  | None => Err 400 (str "Blog not connected")
  | Some w =>
      match deleteWordPressPost postId w with
      | Failure e => Err 400 e
      | Success _ => Ok ()
      end
  end.

(** [GET /api/blog/posts] *)
Definition listPosts (blogSettings : option Wordpress) (page perPage : Z)
  : Reply (list PostInfo * Z * Z) :=
  match isConnected blogSettings with
  | None => Err 400 (str "Blog not connected")
  | Some w =>
      try_catch (posts ← getWordPressPosts w page perPage; Returns (Ok posts))
                (Err 500 (str "Failed to fetch blog posts"))
  end.

End Helpers.

End Blog.

(** ** Registration and the User model's pre-save hook *)

Module Auth.

(** The fields the registration route sets; [blogSettings] is an object,
    kept as its list of properties. *)
Record User := {
  u_id : N;
  username : jsval;
  email : jsval;
  password : jsval;
  blogSettings : list (jsstring * jsval)
}.

(** A Mongoose document: its values, whether it is new, and whether the
    [password] path is marked modified. *)
Record UserDoc := {
  doc : User;
  isNew : bool;
  modifiedPassword : bool
}.

Definition set_password (h : jsval) (d : UserDoc) : UserDoc :=
  {| doc := {| u_id := u_id (doc d); username := username (doc d);
               email := email (doc d); password := h;
               blogSettings := blogSettings (doc d) |};
     isNew := isNew d;
     modifiedPassword :=
       modifiedPassword d || isNew d
       || negb (bool_decide (h = password (doc d))) |}.

(** [new User({ username, email, password, blogSettings })] *)
Definition newUser (id : N) (username email password : jsval)
    (blogSettings : list (jsstring * jsval)) : UserDoc :=
  {| doc := {| u_id := id; username := username; email := email;
               password := password; blogSettings := blogSettings |};
     isNew := true;
     modifiedPassword := true |}.

Record RegisterBody := {
  rb_username : jsval;
  rb_email : jsval;
  rb_password : jsval;
  rb_blogSettings : option (list (jsstring * jsval))   (* [None]: not sent *)
}.

Inductive Response :=
| Token (token : jsstring) (id : N) (username email : jsval)
| Error (code : N) (error : jsstring).

Section Register.

(** [bcrypt.hash(data, salt)] on strings. *)
Variable bcrypt_hash : jsstring -> jsstring -> jsstring.
(** [jwt.sign] of the payload carrying the user id. *)
Variable jwt_sign : N -> jsstring.
(** Schema validation, run before the pre-save hook, and the write with
    its unique indexes, run after. *)
Variable validates : User -> bool.
Variable writes : User -> bool.
(** The casts of the [username] and [email] paths with their setters
    ([trim], and [trim] with [lowercase]), which Mongoose applies to the
    values given to a document and to the values of a query filter. *)
Variable castUsername : jsval -> jsval.
Variable castEmail : jsval -> jsval.

(** [await bcrypt.hash(v, salt)]: anything but a string is rejected. *)
Definition hash (v : jsval) (salt : jsstring) : outcome jsval :=
  match v with
  | JStr s => Returns (JStr (bcrypt_hash s salt))
  | _ => Throws
  end.

(** [UserSchema.pre('save')]; [salt] is what [bcrypt.genSalt(10)] yields. *)
Definition preSave (salt : jsstring) (d : UserDoc) : outcome UserDoc :=
  if negb (modifiedPassword d) then Returns d
  else h ← hash (password (doc d)) salt; Returns (set_password h d).

Definition save (salt : jsstring) (users : list User) (d : UserDoc)
  : outcome (User * list User) :=
  if validates (doc d) then
    d ← preSave salt d;
    if writes (doc d) then Returns (doc d, users ++ [doc d]) else Throws
  else Throws.

(** [User.findOne({ email: e })] for a filter value [e] that the schema
    has cast: the first user whose stored address is [e]. *)
Definition findOne (users : list User) (e : jsval) : option User :=
  list_find (fun u => email u = e) users ≫= (fun r => Some r.2).

(** [POST /api/auth/register]; [id] is the fresh object id, [salt1] and
    [salt2] are the salts generated by the route and by the hook. *)
Definition register (users : list User) (body : RegisterBody)
    (id : N) (salt1 salt2 : jsstring) : Response * list User :=
  try_catch
    (match findOne users (castEmail (rb_email body)) with
     | Some _ => Returns (Error 400 (str "User already exists"), users)
     | None =>
         let user := newUser id (castUsername (rb_username body))
                       (castEmail (rb_email body)) (rb_password body)
                       (default [] (rb_blogSettings body)) in
         h ← hash (rb_password body) salt1;
         let user := set_password h user in
         '(u, users') ← save salt2 users user;
         Returns (Token (jwt_sign (u_id u)) (u_id u) (rb_username body) (rb_email body),
                  users')
     end)
    (Error 500 (str "Server error"), users).

End Register.

End Auth.

Import Articles.

(** ** Middleware: rate limiter and bearer-token guards *)

Module Middleware.

(** *** [rateLimit] *)

(** [now - timestamp] coerces its right operand to a number.  The values
    of the [requests] map are arrays of timestamps: the empty array
    converts to 0, an array of one number to that number, and any longer
    array to NaN, here [None]. *)
Definition toNumber (timestamps : list Z) : option Z :=
  match timestamps with
  | [] => Some 0%Z
  | [t] => Some t
  | _ :: _ :: _ => None
  end.

(** [now - timestamp > windowMs]; a comparison with NaN is false. *)
Definition expired (windowMs now : Z) (timestamps : list Z) : bool :=
  match toNumber timestamps with
  | Some t => (windowMs <? now - t)%Z
  | None => false
  end.

(** The loop that deletes the old entries of the map. *)
Definition clean (windowMs now : Z) (requests : gmap jsval (list Z))
  : gmap jsval (list Z) :=
  filter (fun entry => expired windowMs now entry.2 = false) requests.

Inductive Verdict :=
| Next
| TooMany (retryAfter : Z).

(** [Math.ceil(a / b)] for a positive [b] *)
Definition ceilDiv (a b : Z) : Z := (- ((- a) / b))%Z.

(** One request through the middleware returned by
    [rateLimit(windowMs, max)]: the closure's map before and after. *)
Definition rateLimit (windowMs max : Z) (requests : gmap jsval (list Z))
    (ip : jsval) (now : Z) : Verdict * gmap jsval (list Z) :=
  let requests := clean windowMs now requests in
  let userRequests := default [] (requests !! ip) in
  let recentRequests :=
    List.filter (fun timestamp => (now - timestamp <? windowMs)%Z) userRequests in
  if (max <=? Z.of_nat (length recentRequests))%Z
  then (TooMany (ceilDiv windowMs 1000), requests)
  else (Next, <[ ip := recentRequests ++ [now] ]> requests).

(** A sequence of requests, each with its IP and arrival time: the
    verdicts and the final map. *)
Fixpoint serve (windowMs max : Z) (requests : gmap jsval (list Z))
    (arrivals : list (jsval * Z)) : list Verdict * gmap jsval (list Z) :=
  match arrivals with
  | [] => ([], requests)
  | (ip, now) :: rest =>
      let '(v, requests) := rateLimit windowMs max requests ip now in
      let '(vs, requests) := serve windowMs max requests rest in
      (v :: vs, requests)
  end.

(** *** [auth], [optionalAuth], [adminAuth] *)

(** The user document loaded with [select('-password')]: it carries no
    password.  [isAdmin] is what reading [user.isAdmin] yields. *)
Record Account := {
  ac_id : N;
  ac_username : jsval;
  ac_email : jsval;
  ac_isActive : jsval;
  ac_isAdmin : jsval
}.

(** [jwt.verify]: the user id of the decoded payload, or the [name] of
    the error thrown (also for a payload without a user). *)
Inductive Verified :=
| Decoded (id : N)
| Invalid (name : jsstring).

(** What a guard does: hand the request on, with [req.user] set or not,
    or answer with a status and an error text. *)
Inductive Guard :=
| Pass (user : option Account)
| Deny (code : N) (error : jsstring).

Definition Bearer_ : jsstring := Eval cbv in str "Bearer ".

(** [req.header('Authorization')?.replace('Bearer ', '')]; [None] is
    [undefined]. *)
Definition tokenOf (header : option jsstring) : option jsstring :=
  (fun h => replace Bearer_ [] h) <$> header.

(** [!token] *)
Definition noToken (token : option jsstring) : bool :=
  match token with
  | None | Some [] => true
  | Some (_ :: _) => false
  end.

Section Guards.

Variable verify : jsstring -> Verified.
(** [User.findById(id).select('-password')]: the document, [null], or a
    rejected query. *)
Variable findById : N -> outcome (option Account).

Definition auth (header : option jsstring) : Guard :=
  let token := tokenOf header in
  if noToken token then Deny 401 (str "No token, authorization denied")
  else
    match verify (default [] token) with
    | Decoded id =>
        match findById id with
        | Returns None => Deny 401 (str "Token is not valid")
        | Returns (Some user) =>
            if negb (truthy (ac_isActive user))
            then Deny 401 (str "Account is deactivated")
            else Pass (Some user)
        | Throws => Deny 500 (str "Server error")
        end
    | Invalid name =>
        if eqb name (str "JsonWebTokenError") then Deny 401 (str "Token is not valid")
        else if eqb name (str "TokenExpiredError") then Deny 401 (str "Token has expired")
        else Deny 500 (str "Server error")
    end.

Definition optionalAuth (header : option jsstring) : Guard :=
  let token := tokenOf header in
  if noToken token then Pass None
  else
    match verify (default [] token) with
    | Decoded id =>
        match findById id with
        | Returns (Some user) =>
            if truthy (ac_isActive user) then Pass (Some user) else Pass None
        | Returns None => Pass None
        | Throws => Pass None
        end
    | Invalid _ => Pass None
    end.

Definition adminAuth (header : option jsstring) : Guard :=
  let token := tokenOf header in
  if noToken token then Deny 401 (str "No token, authorization denied")
  else
    match verify (default [] token) with
    | Decoded id =>
        match findById id with
        | Returns None => Deny 401 (str "Token is not valid")
        | Returns (Some user) =>
            if negb (truthy (ac_isActive user))
            then Deny 401 (str "Account is deactivated")
            else if negb (truthy (ac_isAdmin user))
            then Deny 403 (str "Access denied. Admin privileges required.")
            else Pass (Some user)
        | Throws => Deny 500 (str "Server error")
        end
    | Invalid _ => Deny 500 (str "Server error")
    end.

End Guards.

End Middleware.

(** ** Image aggregator: trending and random images *)

Module Gallery.

Definition trendingQueries : gmap jsstring (list jsstring) :=
  list_to_map
    [ (str "technology", [str "laptop"; str "smartphone"; str "coding"; str "artificial intelligence"]);
      (str "health", [str "fitness"; str "healthy food"; str "meditation"; str "workout"]);
      (str "business", [str "office"; str "meeting"; str "entrepreneur"; str "startup"]);
      (str "lifestyle", [str "lifestyle"; str "wellness"; str "productivity"; str "mindfulness"]);
      (str "entertainment", [str "movie"; str "music"; str "concert"; str "celebrity"]);
      (str "sports", [str "sports"; str "fitness"; str "athlete"; str "competition"]);
      (str "education", [str "study"; str "books"; str "learning"; str "classroom"]);
      (str "travel", [str "travel"; str "landscape"; str "adventure"; str "destination"]);
      (str "food", [str "food"; str "cooking"; str "restaurant"; str "recipe"]);
      (str "fashion", [str "fashion"; str "style"; str "clothing"; str "accessories"]);
      (str "science", [str "science"; str "laboratory"; str "research"; str "technology"]);
      (str "politics", [str "politics"; str "government"; str "election"; str "protest"]) ].

(** [[a[i], a[j]] = [a[j], a[i]]] for indices inside the array. *)
Definition swap {A} (i j : nat) (a : list A) : list A :=
  match a !! i, a !! j with
  | Some x, Some y => <[ j := x ]> (<[ i := y ]> a)
  | _, _ => a
  end.

Section Shuffle.

(** [Math.floor(Math.random() * (i + 1))], the draw made when the loop
    index is [i]; [Math.random()] lies in [0, 1), so the draw is at most
    [i]. *)
Variable pick : nat -> nat.

(** [for (let i = ...; i > 0; i--)], entered with index [i]. *)
Fixpoint shuffleFrom {A} (i : nat) (shuffled : list A) : list A :=
  match i with
  | O => shuffled
  | S i' => shuffleFrom i' (swap i (pick i) shuffled)
  end.

Definition shuffleArray {A} (array : list A) : list A :=
  shuffleFrom (length array - 1) array.

End Shuffle.

Section Operations.

Variable env : Images.Env.
Variable encodeURIComponent : jsstring -> jsstring.
Variable callUnsplash : Query -> outcome (list Photo).
Variable callPexels : Query -> outcome (list Photo).

(** [searchImages] of the image aggregator, with its collaborators. *)
Definition search : Query -> list Photo :=
  searchImages env encodeURIComponent callUnsplash callPexels.

(** The loop [for (const query of queries.slice(0, 3))]. *)
Fixpoint collect (perPage : Z) (queries : list jsstring) (images : list Photo)
  : list Photo :=
  match queries with
  | [] => images
  | query :: rest =>
      let queryImages :=
        search {| q_query := query; q_page := 1; q_perPage := perPage;
                  q_orientation := JStr (str "landscape");
                  q_color := JUndefined |} in
      collect perPage rest (images ++ queryImages)
  end.

(** [trendingQueries[niche] || [niche]], then [queries.slice(0, 3)]: an
    inherited value is truthy and has no method [slice], so the call
    throws. *)
Definition firstQueries (niche : jsstring) : outcome (list jsstring) :=
  match getProperty trendingQueries niche with
  | Own queries => Returns (slice0 queries 3)
  | Inherited => Throws
  | Absent => Returns (slice0 [niche] 3)
  end.

Definition getTrendingImages (niche : jsstring) (limit : Z) : list Photo :=
  try_catch
    (queries ← firstQueries niche;
     let images := collect (Middleware.ceilDiv limit 3) queries [] in
     Returns (slice0 images limit))
    (getFallbackImages encodeURIComponent niche).

(** [getRandomImages]; [page] is the random page, [pick] the draws of
    the shuffle. *)
Definition getRandomImages (page : Z) (pick : nat -> nat)
    (topic : jsstring) (count : Z) : list Photo :=
  let images :=
    search {| q_query := topic; q_page := page; q_perPage := (count * 2)%Z;
              q_orientation := JStr (str "landscape");
              q_color := JUndefined |} in
  slice0 (shuffleArray pick images) count.

End Operations.

End Gallery.

(** ** Article routes: read and delete; model methods *)

Module ArticleOps.

Inductive Reply :=
| Found (article : Article)                       (* [{ success, article }] *)
| Done (message : jsstring)                       (* [{ success, message }] *)
| Fail (code : N) (error : jsstring).

(** [GET /api/articles/:id] *)
Definition getOne (db : gmap N Article) (uid articleId : N) : Reply :=
  match findOne db articleId uid with
  | None => Fail 404 (str "Article not found")
  | Some d => Found (current d)
  end.

(** [DELETE /api/articles/:id], with [findOneAndDelete] on the owner's
    article. *)
Definition remove (db : gmap N Article) (uid articleId : N)
  : Reply * gmap N Article :=
  match findOne db articleId uid with
  | None => (Fail 404 (str "Article not found"), db)
  | Some d => (Done (str "Article deleted successfully"), delete articleId db)
  end.

(** A destructuring default: it replaces [undefined] only. *)
Definition orDefault (v d : jsval) : jsval :=
  match v with
  | JUndefined => d
  | _ => v
  end.

(** *** Methods of the Article model *)

Definition set_images (v : list Image) (a : Article) : Article :=
  {| _id := _id a; userId := userId a; title := title a; content := content a;
     topic := topic a; niche := niche a; writingStyle := writingStyle a;
     wordCount := wordCount a; tone := tone a; status := status a;
     tags := tags a; keywords := keywords a; seoData := seoData a;
     images := v; blogPost := blogPost a; analytics := analytics a;
     generatedAt := generatedAt a; regeneratedAt := regeneratedAt a;
     publishedAt := publishedAt a; archivedAt := archivedAt a;
     createdAt := createdAt a; updatedAt := updatedAt a |}.

Definition set_blogPost (v : option BlogPost) (a : Article) : Article :=
  {| _id := _id a; userId := userId a; title := title a; content := content a;
     topic := topic a; niche := niche a; writingStyle := writingStyle a;
     wordCount := wordCount a; tone := tone a; status := status a;
     tags := tags a; keywords := keywords a; seoData := seoData a;
     images := images a; blogPost := v; analytics := analytics a;
     generatedAt := generatedAt a; regeneratedAt := regeneratedAt a;
     publishedAt := publishedAt a; archivedAt := archivedAt a;
     createdAt := createdAt a; updatedAt := updatedAt a |}.

Record ImageData := {
  id_url : jsstring;
  id_alt : jsval;
  id_caption : jsval;
  id_source : jsval;
  id_photographer : jsval;
  id_photographerUrl : jsval
}.

Section Methods.

Variable validates : Article -> bool.
Variable writes : Article -> bool.

(** [ArticleSchema.methods.addImage], on a document loaded as [a];
    [clock] is the time read at the save. *)
Definition addImage (db : gmap N Article) (a : Article) (imageData : ImageData)
    (clock : N) : outcome (Article * gmap N Article) :=
  let image :=
    {| img_url := id_url imageData;
       img_alt := toString (or_else (id_alt imageData) (JStr []));
       img_caption := toString (or_else (id_caption imageData) (JStr []));
       img_position := (Z.of_nat (length (images a)) + 1)%Z;
       img_source := toString (or_else (id_source imageData) (JStr (str "unsplash")));
       img_photographer := toString (or_else (id_photographer imageData) (JStr []));
       img_photographerUrl :=
         toString (or_else (id_photographerUrl imageData) (JStr [])) |} in
  save validates writes db
    (assign (set_images (images a ++ [image])) {| loaded := a; current := a |}) clock.

End Methods.

End ArticleOps.

(** ** Publisher: posting an article and connecting a blog *)

Module Publisher.

Definition categoryMap : gmap jsstring Z :=
  list_to_map
    [ (str "technology", 1%Z); (str "health", 2%Z); (str "business", 3%Z);
      (str "lifestyle", 4%Z); (str "entertainment", 5%Z); (str "sports", 6%Z);
      (str "education", 7%Z); (str "travel", 8%Z); (str "food", 9%Z);
      (str "fashion", 10%Z); (str "science", 11%Z); (str "politics", 12%Z) ].

(** [categoryMap[niche] || 1]: the category number, or the value that
    the map inherits under the name of the niche, a function or the
    prototype object, here [None]. *)
Definition getCategoryId (niche : jsstring) : option Z :=
  match getProperty categoryMap niche with
  | Own id => Some (if (id =? 0)%Z then 1%Z else id)
  | Inherited => None
  | Absent => Some 1%Z
  end.

Record PostData := {
  pd_title : jsstring;
  pd_content : jsstring;
  pd_status : jsval;
  pd_categories : list (option Z);
  pd_tags : list jsstring;
  pd_featured_media : option jsval   (* [None]: the key is not set *)
}.

(** The created post in the response of the remote API. *)
Record WpPost := {
  wp_id : Z;
  wp_link : jsstring
}.

Record PostBody := {
  pb_articleId : option N;           (* an object id; [None]: missing *)
  pb_publishStatus : jsval;
  pb_featuredImage : jsval
}.

Record PostInfo := {
  po_postId : Z;
  po_postUrl : jsstring;
  po_status : jsval
}.

(** The [blogSettings] of a user: the [wordpress] entry with its
    [connectedAt] date, and the other settings. *)
Record BlogSettings := {
  bs_wordpress : option (Blog.Wordpress * option N);
  bs_defaultPublishStatus : jsval;
  bs_autoAddImages : jsval;
  bs_defaultImageSource : jsval
}.

Record ConnectBody := {
  cb_siteUrl : jsval;
  cb_username : jsval;
  cb_password : jsval;
  cb_apiKey : jsval
}.

Section Routes.

Variable postPost : jsstring -> PostData -> jsstring -> jsval -> Blog.Remote WpPost.
Variable uploadFeaturedImage : jsval -> Blog.Wordpress -> jsval.
Variable getUsersMe : jsstring -> jsstring -> jsval -> Blog.Remote Blog.UserMe.
Variable validates : Article -> bool.
Variable writes : Article -> bool.
(** [user.save()] of the connect route. *)
Variable saves : BlogSettings -> bool.

Definition postToWordPress (article : Article) (blogSettings : Blog.Wordpress)
    (publishStatus featuredImage : jsval) : Blog.Result WpPost :=
  let cleanSiteUrl := Blog.cleanSiteUrl (Blog.siteUrl blogSettings) in
  let postData :=
    {| pd_title := title article;
       pd_content := content article;
       pd_status := publishStatus;
       pd_categories := [getCategoryId (niche article)];
       pd_tags := tags article;
       pd_featured_media :=
         if truthy featuredImage
         then Some (uploadFeaturedImage featuredImage blogSettings)
         else None |} in
  match postPost (cleanSiteUrl ++ str "/wp-json/wp/v2/posts") postData
          (Blog.wp_username blogSettings)
          (or_else (Blog.wp_password blogSettings) (Blog.wp_apiKey blogSettings)) with
  | Blog.Fulfilled data => Blog.Success data
  | Blog.Rejected _ =>
      Blog.Failure
        (str "Failed to post to WordPress. Please check your credentials and try again.")
  end.

(** [POST /api/blog/post]; [user] is the requesting user's document
    ([None] when there is none) with its [blogSettings?.wordpress], [now]
    the value of [new Date()] and [clock] the time read at the save. *)
Definition post (db : gmap N Article) (uid : N)
    (user : option (option Blog.Wordpress)) (body : PostBody) (now clock : N)
  : Blog.Reply PostInfo * gmap N Article :=
  let publishStatus := ArticleOps.orDefault (pb_publishStatus body) (JStr (str "draft")) in
  let featuredImage := ArticleOps.orDefault (pb_featuredImage body) JNull in
  match pb_articleId body with
  | None => (Blog.Err 400 (str "Article ID is required"), db)
  | Some articleId =>
      match findOne db articleId uid with
      | None => (Blog.Err 404 (str "Article not found"), db)
      | Some article =>
          match user with
          | None => (Blog.Err 500 (str "Failed to post to blog"), db)
          | Some wordpress =>
              match Blog.isConnected wordpress with
              | None =>
                  (Blog.Err 400 (str "Blog not connected. Please connect your blog first."),
                   db)
              | Some w =>
                  match postToWordPress (current article) w publishStatus featuredImage with
                  | Blog.Failure e => (Blog.Err 400 e, db)
                  | Blog.Success postResult =>
                      let d :=
                        assign
                          (ArticleOps.set_blogPost
                             (Some {| bp_postId := toString (JNum (wp_id postResult));
                                      bp_postUrl := wp_link postResult;
                                      bp_publishedAt := now;
                                      bp_status := castString publishStatus;
                                      bp_featuredImage := None |}))
                          article in
                      match save validates writes db d clock with
                      | Throws => (Blog.Err 500 (str "Failed to post to blog"), db)
                      | Returns (_, db') =>
                          (Blog.Ok {| po_postId := wp_id postResult;
                                      po_postUrl := wp_link postResult;
                                      po_status := publishStatus |},
                           db')
                      end
                  end
              end
          end
      end
  end.

(** The probe of the connect route.  A truthy [siteUrl] that is not a
    string has no [replace] method: the probe's own [catch] turns the
    TypeError into the connection-failure answer. *)
Definition probe (siteUrl username password : jsval) : Blog.Result Blog.BlogInfo :=
  match siteUrl with
  | JStr url => Blog.testWordPressConnection getUsersMe url (toString username) password
  | _ => Blog.Failure Blog.connectionFailed
  end.

(** [POST /api/blog/connect]; [settings] is the [blogSettings] of the
    requesting user, [None] when there is no such user. *)
Definition connect (settings : option BlogSettings) (body : ConnectBody) (now : N)
  : Blog.Reply Blog.BlogInfo * option BlogSettings :=
  if negb (truthy (cb_siteUrl body)) || negb (truthy (cb_username body))
     || (negb (truthy (cb_password body)) && negb (truthy (cb_apiKey body)))
  then (Blog.Err 400 (str "Site URL, username, and password/API key are required"),
        settings)
  else
    match probe (cb_siteUrl body) (cb_username body)
            (or_else (cb_password body) (cb_apiKey body)) with
    | Blog.Failure e => (Blog.Err 400 e, settings)
    | Blog.Success blogInfo =>
        match settings with
        | None => (Blog.Err 500 (str "Failed to connect to blog"), settings)
        | Some s =>
            let s' :=
              {| bs_wordpress :=
                   Some ({| Blog.siteUrl := toString (cb_siteUrl body);
                            Blog.wp_username := toString (cb_username body);
                            Blog.wp_password := or_else (cb_password body) JNull;
                            Blog.wp_apiKey := or_else (cb_apiKey body) JNull;
                            Blog.connected := true |}, Some now);
                 bs_defaultPublishStatus := bs_defaultPublishStatus s;
                 bs_autoAddImages := bs_autoAddImages s;
                 bs_defaultImageSource := bs_defaultImageSource s |} in
            if saves s' then (Blog.Ok blogInfo, Some s')
            else (Blog.Err 500 (str "Failed to connect to blog"), settings)
        end
    end.

End Routes.

End Publisher.

(** ** Login and profile routes *)

Module Session.

Inductive Reply :=
| LoggedIn (token : jsstring) (id : N) (username email : jsval)
    (blogSettings : list (jsstring * jsval))
| Profile (id : N) (username email : jsval) (blogSettings : list (jsstring * jsval))
    (writingStyle : option Style)
| Fail (code : N) (error : jsstring).

(** [{ ...base, ...extra }] on objects kept as property lists: a key of
    [extra] replaces the value in place or is added at the end. *)
Fixpoint setProp (k : jsstring) (v : jsval) (o : list (jsstring * jsval))
  : list (jsstring * jsval) :=
  match o with
  | [] => [(k, v)]
  | (k', v') :: r => if bool_decide (k' = k) then (k, v) :: r else (k', v') :: setProp k v r
  end.

Definition spread (base extra : list (jsstring * jsval)) : list (jsstring * jsval) :=
  foldl (fun o kv => setProp kv.1 kv.2 o) base extra.

Record ProfileBody := {
  pf_username : jsval;
  pf_email : jsval;
  pf_blogSettings : option (list (jsstring * jsval));
  pf_writingStyle : option Style
}.

Section Routes.

Variable bcrypt_hash : jsstring -> jsstring -> jsstring.
(** [bcrypt.compare(data, hash)] on strings *)
Variable bcrypt_compare : jsstring -> jsstring -> bool.
(** The casts of the [username] and [email] paths with their setters
    ([trim], and [trim] with [lowercase]), which Mongoose applies to the
    values assigned to a document and to the values of a query filter. *)
Variable castUsername : jsval -> jsval.
Variable castEmail : jsval -> jsval.
Variable jwt_sign : N -> jsstring.
Variable validates : Auth.User -> bool.
Variable writes : Auth.User -> bool.

(** [await bcrypt.compare(password, user.password)]: anything but two
    strings is rejected. *)
Definition compare (password stored : jsval) : outcome bool :=
  match password, stored with
  | JStr p, JStr h => Returns (bcrypt_compare p h)
  | _, _ => Throws
  end.

(** [POST /api/auth/login] *)
Definition login (users : list Auth.User) (email password : jsval) : Reply :=
  try_catch
    (match Auth.findOne users (castEmail email) with
     | None => Returns (Fail 400 (str "Invalid credentials"))
     | Some user =>
         isMatch ← compare password (Auth.password user);
         if negb isMatch then Returns (Fail 400 (str "Invalid credentials"))
         else Returns (LoggedIn (jwt_sign (Auth.u_id user)) (Auth.u_id user)
                         (Auth.username user) (Auth.email user)
                         (Auth.blogSettings user))
     end)
    (Fail 500 (str "Server error")).

Definition set_username (v : jsval) (u : Auth.User) : Auth.User :=
  {| Auth.u_id := Auth.u_id u; Auth.username := v; Auth.email := Auth.email u;
     Auth.password := Auth.password u; Auth.blogSettings := Auth.blogSettings u |}.

Definition set_email (v : jsval) (u : Auth.User) : Auth.User :=
  {| Auth.u_id := Auth.u_id u; Auth.username := Auth.username u; Auth.email := v;
     Auth.password := Auth.password u; Auth.blogSettings := Auth.blogSettings u |}.

Definition set_blogSettings (v : list (jsstring * jsval)) (u : Auth.User) : Auth.User :=
  {| Auth.u_id := Auth.u_id u; Auth.username := Auth.username u;
     Auth.email := Auth.email u; Auth.password := Auth.password u;
     Auth.blogSettings := v |}.

(** [PUT /api/auth/profile] on the stored user [user] with its stored
    writing style; [salt] is what the pre-save hook would draw.  The
    document is loaded, not new, and none of its paths is modified yet.
    A [blogSettings] or [writingStyle] of the body is an object when it is
    sent, and the stored [blogSettings] is spread as a plain object. *)
Definition profile (user : option (Auth.User * option Style)) (body : ProfileBody)
    (salt : jsstring) : Reply * option (Auth.User * option Style) :=
  match user with
  | None => (Fail 404 (str "User not found"), user)
  | Some (u, style) =>
      let u := if truthy (pf_username body)
               then set_username (castUsername (pf_username body)) u else u in
      let u := if truthy (pf_email body)
               then set_email (castEmail (pf_email body)) u else u in
      let u := match pf_blogSettings body with
               | Some bs => set_blogSettings (spread (Auth.blogSettings u) bs) u
               | None => u
               end in
      let style := match pf_writingStyle body with
                   | Some ws => Some ws
                   | None => style
                   end in
      let d := {| Auth.doc := u; Auth.isNew := false; Auth.modifiedPassword := false |} in
      try_catch
        (if validates u then
           d ← Auth.preSave bcrypt_hash salt d;
           if writes (Auth.doc d)
           then Returns (Profile (Auth.u_id (Auth.doc d)) (Auth.username (Auth.doc d))
                           (Auth.email (Auth.doc d)) (Auth.blogSettings (Auth.doc d)) style,
                         Some (Auth.doc d, style))
           else Throws
         else Throws)
        (Fail 500 (str "Server error"), user)
  end.

End Routes.

End Session.

(** ** What the specification says, in its own terms *)

Module Spec.

(** A line is a marker line when it begins with [TITLE:] or [CONTENT:]. *)
Definition isMarker (line : jsstring) : bool :=
  startsWith TITLE_ line || startsWith CONTENT_ line.

(** The text has a marker line somewhere. *)
Definition hasMarker (raw : jsstring) : bool :=
  existsb isMarker (split nl raw).

(** The text has a blank-line boundary. *)
Definition hasBlankLine (raw : jsstring) : bool := includes (nl ++ nl) raw.

(** The lines after the first line beginning with [CONTENT:]. *)
Fixpoint afterContent (lines : list jsstring) : list jsstring :=
  match lines with
  | [] => []
  | l :: r => if startsWith CONTENT_ l then r else afterContent r
  end.

(** The text after the marker of the last [TITLE:] line, trimmed. *)
Definition titleText (lines : list jsstring) : jsstring :=
  match last (List.filter (startsWith TITLE_) lines) with
  | Some l => trim (drop (length TITLE_) l)
  | None => []
  end.

Definition bodyLines (lines : list jsstring) : list jsstring :=
  List.filter (fun l => negb (isMarker l)) (afterContent lines).

(** The content buffer: every body line followed by a newline. *)
Definition bodyText (lines : list jsstring) : jsstring :=
  concat (map (fun l => l ++ nl) (bodyLines lines)).

(** A text has a [TITLE:] line and a later [CONTENT:] line. *)
Definition titleThenContent (raw : jsstring) : Prop :=
  exists pre t mid c post,
    split nl raw = pre ++ t :: mid ++ c :: post /\
    startsWith TITLE_ t = true /\ startsWith CONTENT_ c = true.

(** Trimming "of leading and trailing blank lines only". *)
Definition isBlank (line : jsstring) : bool := eqb (trim line) [].

Fixpoint dropBlank (lines : list jsstring) : list jsstring :=
  match lines with
  | l :: r => if isBlank l then dropBlank r else lines
  | [] => []
  end.

Definition stripBlankLines (lines : list jsstring) : list jsstring :=
  rev (dropBlank (rev (dropBlank lines))).

Definition contentAsClaimed (raw : jsstring) : jsstring :=
  join nl (stripBlankLines (bodyLines (split nl raw))).

(** The sample texts of the parser's contract. *)
Definition justOneLine : jsstring := Eval cbv in str "Just one line".

Definition fooBarBaz : jsstring :=
  Eval cbv in
    str "TITLE: Foo" ++ nl ++ nl ++ str "CONTENT:" ++ nl ++ str "Bar" ++ nl ++ str "Baz".

Definition indentedBody : jsstring :=
  Eval cbv in str "TITLE: Foo" ++ nl ++ str "CONTENT:" ++ nl ++ str "  Bar".

(** The number of maximal white-space runs of a text: the positions that
    hold a white-space code unit not preceded by one. *)
Definition wsRunCount (s : jsstring) : nat :=
  length (List.filter (fun p => negb (is_ws p.1) && is_ws p.2) (zip (0 :: s) s)).

(** The document that [update] hands to [save], and what [save] stores. *)
Definition updatedDoc (a : Article) (body : UpdateBody) (now : N) : Doc :=
  assign (set_updatedAt now)
    (assignIf (ub_status body) set_status
       (assignIf (ub_content body) set_content
          (assignIf (ub_title body) set_title {| loaded := a; current := a |}))).

Definition updated (a : Article) (body : UpdateBody) (now clock : N) : Article :=
  current (Articles.preSave (timestampsPreSave clock (updatedDoc a body now))).

(** The arguments [regenerate] passes to [generateArticle]. *)
Definition regenerateArgs (a : Article) (body : RegenerateBody) : PromptArgs :=
  {| pa_topic := JStr (topic a);
     pa_niche := JStr (niche a);
     pa_writingStyle := Some (default (writingStyle a) (rb_writingStyle body));
     pa_wordCount := or_else (rb_wordCount body) (JNum (wordCount a));
     pa_tone := or_else (rb_tone body) (JStr (tone a));
     pa_customPrompt := rb_customPrompt body |}.

(** The document that [regenerate] hands to [save] for the generated
    article [g] and the cast style [ws], and what [save] stores. *)
Definition regeneratedDoc (a : Article) (body : RegenerateBody) (g : Generated)
    (ws : Style) (now now' : N) : Doc :=
  assign (set_regeneratedAt now')
    (assign (set_updatedAt now)
       (assign (set_tone (toString (or_else (rb_tone body) (JStr (tone a)))))
          (assign (set_wordCount (g_wordCount g))
             (assign (set_writingStyle ws)
                (assign (set_content (g_content g))
                   (assign (set_title (g_title g))
                      {| loaded := a; current := a |})))))).

Definition regenerated (a : Article) (body : RegenerateBody) (g : Generated)
    (ws : Style) (now now' clock : N) : Article :=
  current (Articles.preSave
             (timestampsPreSave clock (regeneratedDoc a body g ws now now'))).

(** Two articles agree on every field that neither [update] nor
    [regenerate] assigns. *)
Definition sameIdentity (a a' : Article) : Prop :=
  _id a' = _id a /\ userId a' = userId a /\ topic a' = topic a /\
  niche a' = niche a /\ tags a' = tags a /\ keywords a' = keywords a /\
  seoData a' = seoData a /\ images a' = images a /\
  blogPost a' = blogPost a /\ analytics a' = analytics a /\
  generatedAt a' = generatedAt a /\ publishedAt a' = publishedAt a /\
  archivedAt a' = archivedAt a /\ createdAt a' = createdAt a.

(** A stored article and a collection holding it, for the examples. *)
Definition plainStyle : Style :=
  {| voice := JStr (str "professional"); complexity := JStr (str "moderate");
     structure := JStr (str "traditional"); examples := JBool true;
     quotes := JBool false; callToAction := JBool true;
     customInstructions := JUndefined |}.

Definition sampleArticle : Article :=
  {| _id := 1; userId := 7; title := str "Old title"; content := str "old body text";
     topic := str "AI"; niche := str "technology"; writingStyle := plainStyle;
     wordCount := 3; tone := str "professional"; status := str "draft";
     tags := []; keywords := []; seoData := None; images := [];
     blogPost := None;
     analytics := {| views := 4; likes := 0; shares := 0; comments := 0 |};
     generatedAt := 1000; regeneratedAt := None; publishedAt := None;
     archivedAt := None; createdAt := 1000; updatedAt := 1000 |}.

Definition sampleDb : gmap N Article := {[ 1%N := sampleArticle ]}.

(** The validators of the Article schema, for the examples: the required
    strings, the length of the title, the enumerations and the least word
    count.  An enumerated path that is not required accepts [null] and
    [undefined]. *)
Definition niches : list jsstring :=
  Eval cbv in
    [ str "technology"; str "health"; str "business"; str "lifestyle";
      str "entertainment"; str "sports"; str "education"; str "travel"; str "food";
      str "fashion"; str "science"; str "politics" ].
Definition tones : list jsstring :=
  Eval cbv in [ str "professional"; str "casual"; str "friendly"; str "authoritative" ].
Definition statuses : list jsstring :=
  Eval cbv in [ str "draft"; str "review"; str "published"; str "archived" ].
Definition voices : list jsstring :=
  Eval cbv in [ str "professional"; str "casual"; str "friendly"; str "authoritative";
                str "conversational" ].
Definition complexities : list jsstring :=
  Eval cbv in [ str "simple"; str "moderate"; str "advanced" ].
Definition structures : list jsstring :=
  Eval cbv in [ str "traditional"; str "storytelling"; str "list-based";
                str "question-answer" ].
Definition imageSources : list jsstring :=
  Eval cbv in [ str "unsplash"; str "pexels"; str "uploaded" ].
Definition postStatuses : list jsstring :=
  Eval cbv in [ str "draft"; str "private"; str "publish" ].

Definition oneOf (allowed : list jsstring) (v : jsval) : bool :=
  match v with
  | JUndefined | JNull => true
  | JStr s => bool_decide (s ∈ allowed)
  | _ => false
  end.

Definition schemaValidates (a : Article) : bool :=
  negb (eqb (title a) []) && (length (title a) <=? 200)%nat &&
  negb (eqb (content a) []) && negb (eqb (topic a) []) &&
  bool_decide (niche a ∈ niches) &&
  oneOf voices (voice (writingStyle a)) &&
  oneOf complexities (complexity (writingStyle a)) &&
  oneOf structures (structure (writingStyle a)) &&
  (100 <=? wordCount a)%Z &&
  bool_decide (tone a ∈ tones) && bool_decide (status a ∈ statuses) &&
  forallb (fun i => bool_decide (img_source i ∈ imageSources)) (images a) &&
  from_option (fun b => oneOf postStatuses (bp_status b)) true (blogPost a).

(** A stored article that the schema accepts, with a text of 120 words,
    and a generated answer of 150 words. *)
Definition longText : jsstring :=
  Eval vm_compute in join [32] (replicate 120 (str "word")).

Definition longArticle : Article :=
  {| _id := 1; userId := 7; title := str "Old title"; content := longText;
     topic := str "AI"; niche := str "technology"; writingStyle := plainStyle;
     wordCount := 120; tone := str "professional"; status := str "draft";
     tags := []; keywords := []; seoData := None; images := [];
     blogPost := None;
     analytics := {| views := 4; likes := 0; shares := 0; comments := 0 |};
     generatedAt := 1000; regeneratedAt := None; publishedAt := None;
     archivedAt := None; createdAt := 1000; updatedAt := 1000 |}.

Definition longDb : gmap N Article := {[ 1%N := longArticle ]}.

Definition fooLong : jsstring :=
  Eval vm_compute in
    str "TITLE: Foo" ++ nl ++ nl ++ str "CONTENT:" ++ nl ++
    join [32] (replicate 150 (str "text")).

(** Request bodies for the examples. *)
Definition clearingBody : UpdateBody :=
  {| ub_title := JStr []; ub_content := JUndefined; ub_status := JStr (str "review") |}.

Definition editingBody : UpdateBody :=
  {| ub_title := JUndefined; ub_content := JStr (str "one two  three");
     ub_status := JUndefined |}.

Definition emptyRegenerate : RegenerateBody :=
  {| rb_writingStyle := None; rb_wordCount := JUndefined; rb_tone := JUndefined;
     rb_customPrompt := JUndefined |}.

(** A regeneration request whose style needs the casts of the schema, an
    update of the content alone, and an update whose title is white space. *)
Definition styledRegenerate : RegenerateBody :=
  {| rb_writingStyle :=
       Some {| voice := JStr (str "casual"); complexity := JUndefined;
               structure := JUndefined; examples := JStr (str "yes");
               quotes := JNum 0; callToAction := JUndefined;
               customInstructions := JNum 7 |};
     rb_wordCount := JNum 150; rb_tone := JStr (str "friendly");
     rb_customPrompt := JUndefined |}.

Definition newText : jsstring :=
  Eval vm_compute in join [32] (replicate 150 (str "text")).

Definition rewritingBody : UpdateBody :=
  {| ub_title := JUndefined; ub_content := JStr newText; ub_status := JUndefined |}.

Definition blankTitleBody : UpdateBody :=
  {| ub_title := JStr (str "   "); ub_content := JUndefined; ub_status := JUndefined |}.

(** The three-way classification of a remote failure by its status. *)
Definition classify (status : option Z) : jsstring :=
  match status with
  | Some 401%Z => Blog.invalidCredentials
  | Some 404%Z => Blog.restApiNotFound
  | _ => Blog.connectionFailed
  end.

Definition sampleBlog : Blog.Wordpress :=
  {| Blog.siteUrl := str "https://blog.example/";
     Blog.wp_username := str "editor";
     Blog.wp_password := JStr (str "secret");
     Blog.wp_apiKey := JNull;
     Blog.connected := true |}.

(** A toy hash that keeps its arguments apart, for the examples. *)
Definition toyHash (data salt : jsstring) : jsstring :=
  str "$2a$10$" ++ salt ++ str "$" ++ data.

(** The casts of the [username] and [email] paths on strings of ASCII
    letters: [trim], and [trim] with [lowercase]; and a registration that
    needs them. *)
Definition lowerAscii (s : jsstring) : jsstring :=
  (fun c => if (65 <=? c) && (c <=? 90) then c + 32 else c) <$> s.

Definition castName (v : jsval) : jsval :=
  match v with
  | JStr s => JStr (trim s)
  | _ => castString v
  end.

Definition castAddress (v : jsval) : jsval :=
  match v with
  | JStr s => JStr (lowerAscii (trim s))
  | _ => castString v
  end.

Definition mixedRegistration : Auth.RegisterBody :=
  {| Auth.rb_username := JStr (str " Alice ");
     Auth.rb_email := JStr (str "Alice@Example.ORG");
     Auth.rb_password := JStr (str "hunter22");
     Auth.rb_blogSettings := None |}.

(** The first item of a list that carries a given dedupe key. *)
Fixpoint firstWithKey {A} (key : A -> jsval) (k : jsval) (items : list A) : option A :=
  match items with
  | [] => None
  | x :: r => if bool_decide (key x = k) then Some x else firstWithKey key k r
  end.

(** What the merge policy asks of an output for a concatenated input:
    no two items share a key, every item is the first of the input with its
    key, and the items keep their input order. *)
Definition dedupedFrom {A} (key : A -> jsval) (input output : list A) : Prop :=
  NoDup (key <$> output) /\
  (forall x, x ∈ output -> firstWithKey key (key x) input = Some x) /\
  output `sublist_of` input.

(** The results of the configured providers of the trending fan-out, when
    none of them throws. *)
Definition trendingResults (env : Topics.Env) (p : Providers)
    (niche country timeframe : jsstring) (g n r t : list Topic) : Prop :=
  (if truthy (GOOGLE_TRENDS_API_KEY env)
   then callGoogleTrends p niche country timeframe = Returns g else g = []) /\
  (if truthy (NEWS_API_KEY env)
   then callNewsTopics p niche country = Returns n else n = []) /\
  callRedditTopics p niche = Returns r /\
  callTwitterTopics p niche = Returns t.

Definition searchResults (env : Topics.Env) (p : Providers)
    (keyword niche : jsstring) (limit : Z) (n r : list Topic) : Prop :=
  (if truthy (NEWS_API_KEY env)
   then callSearchNewsTopics p keyword niche limit = Returns n else n = []) /\
  callSearchRedditTopics p keyword niche limit = Returns r.

Definition imageResults (env : Images.Env)
    (callUnsplash callPexels : Query -> outcome (list Photo)) (q : Query)
    (u x : list Photo) : Prop :=
  (if truthy (UNSPLASH_ACCESS_KEY env) then callUnsplash q = Returns u else u = []) /\
  (if truthy (PEXELS_API_KEY env) then callPexels q = Returns x else x = []).

Definition allKeys : Topics.Env :=
  {| GOOGLE_TRENDS_API_KEY := JStr (str "g"); NEWS_API_KEY := JStr (str "n") |}.

(** The five parts of the prompt, in the order of the contract.  The
    style block has one line per style field that [present] accepts, in the
    order voice, complexity, structure, examples, quotes, callToAction. *)
Definition baseInstruction (a : PromptArgs) : jsstring :=
  str "Write a " ++ toString (pa_wordCount a) ++ str "-word article about " ++
  quote ++ toString (pa_topic a) ++ quote ++ str " in the " ++
  toString (pa_niche a) ++ str " niche.".

Definition toneClause (a : PromptArgs) : jsstring :=
  if truthy (pa_tone a)
  then nl ++ nl ++ str "Tone: Write in a " ++ toString (pa_tone a) ++ str " tone."
  else [].

Definition styleFields (ws : Style) : list (jsstring * jsval) :=
  [ (str "- Voice: ", voice ws);
    (str "- Complexity: ", complexity ws);
    (str "- Structure: ", structure ws);
    (str "- Include examples: ", examples ws);
    (str "- Include quotes: ", quotes ws);
    (str "- Call to action: ", callToAction ws) ].

Definition styleLine (f : jsstring * jsval) : jsstring :=
  nl ++ f.1 ++ toString f.2.

Definition styleBlock (present : jsval -> bool) (ws : option Style) : jsstring :=
  match ws with
  | Some ws =>
      nl ++ nl ++ str "Writing Style:" ++
      concat (map styleLine (List.filter (fun f => present f.2) (styleFields ws)))
  | None => []
  end.

Definition customClause (a : PromptArgs) : jsstring :=
  if truthy (pa_customPrompt a)
  then nl ++ nl ++ str "Additional Instructions: " ++ toString (pa_customPrompt a)
  else [].

Definition promptParts (present : jsval -> bool) (a : PromptArgs) : list jsstring :=
  [ baseInstruction a; toneClause a; styleBlock present (pa_writingStyle a);
    customClause a; formatInstructions ].

Definition promptInOrder (present : jsval -> bool) (a : PromptArgs) : jsstring :=
  concat (promptParts present a).

(** A style field is present when the style object has it. *)
Definition isPresent (v : jsval) : bool :=
  match v with
  | JUndefined => false
  | _ => true
  end.

(** A request whose merged style is the stored default style of a user,
    which has [quotes: false]. *)
Definition defaultStyleArgs : PromptArgs :=
  {| pa_topic := JStr (str "AI"); pa_niche := JStr (str "technology");
     pa_writingStyle := Some plainStyle; pa_wordCount := JNum 1000;
     pa_tone := JStr (str "professional"); pa_customPrompt := JStr [] |}.

(** Provider answers that overlap in a title, for the examples. *)
Definition topicOf (title source : string) : Topic :=
  {| t_title := JStr (str title); t_description := JNull; t_source := str source;
     t_relevance := (8 # 10)%Q; t_extra := [] |}.

Definition overlappingProviders : Providers :=
  {| callGoogleTrends := fun _ _ _ => Returns [topicOf "A" "Google Trends"; topicOf "B" "Google Trends"];
     callNewsTopics := fun _ _ => Returns [topicOf "B" "News API"; topicOf "C" "News API"];
     callRedditTopics := fun _ => Returns [topicOf "A" "Reddit"];
     callTwitterTopics := fun _ => Returns [topicOf "D" "Twitter"];
     callSearchNewsTopics := fun _ _ _ => Returns [topicOf "B" "News API"; topicOf "C" "News API"];
     callSearchRedditTopics := fun _ _ _ => Returns [topicOf "B" "Reddit"] |}.

(** *** Rate limiter *)

(** [now - timestamp < windowMs] *)
Definition recent (windowMs now t : Z) : bool := (now - t <? windowMs)%Z.

(** The arrival times of the requests of [ip] that were handed on. *)
Fixpoint admittedTimes (ip : jsval) (arrivals : list (jsval * Z))
    (verdicts : list Middleware.Verdict) : list Z :=
  match arrivals, verdicts with
  | (i, t) :: arrivals, Middleware.Next :: verdicts =>
      if bool_decide (i = ip) then t :: admittedTimes ip arrivals verdicts
      else admittedTimes ip arrivals verdicts
  | _ :: arrivals, _ :: verdicts => admittedTimes ip arrivals verdicts
  | _, _ => []
  end.

(** The map agrees with a record [past] of the admitted times on every
    timestamp that is still recent at or after [lo]. *)
Definition tracks (windowMs lo : Z) (requests : gmap jsval (list Z))
    (past : jsval -> list Z) : Prop :=
  forall ip now, (lo <= now)%Z ->
    List.filter (recent windowMs now) (default [] (requests !! ip))
    = List.filter (recent windowMs now) (past ip).

(** At or after [lo] no window holds more than [max] admitted requests of
    one IP. *)
Definition bounded (windowMs max lo : Z) (past : jsval -> list Z) : Prop :=
  forall ip now, (lo <= now)%Z ->
    (Z.of_nat (length (List.filter (recent windowMs now) (past ip))) <= max)%Z.

Definition burst : list (jsval * Z) :=
  [ (JStr (str "10.0.0.1"), 1000%Z); (JStr (str "10.0.0.1"), 1500%Z);
    (JStr (str "10.0.0.2"), 1600%Z); (JStr (str "10.0.0.1"), 1900%Z);
    (JStr (str "10.0.0.1"), 2100%Z) ].

(** *** Guards *)

(** A token store and a user table for the examples: the token "tok"
    decodes to user 7, "old" has expired, anything else is malformed. *)
Definition sampleVerify (token : jsstring) : Middleware.Verified :=
  if eqb token (str "tok") then Middleware.Decoded 7
  else if eqb token (str "old") then Middleware.Invalid (str "TokenExpiredError")
  else Middleware.Invalid (str "JsonWebTokenError").

Definition sampleAccount : Middleware.Account :=
  {| Middleware.ac_id := 7; Middleware.ac_username := JStr (str "alice");
     Middleware.ac_email := JStr (str "alice@example.org");
     Middleware.ac_isActive := JBool true; Middleware.ac_isAdmin := JUndefined |}.

Definition sampleFind (id : N) : outcome (option Middleware.Account) :=
  if (id =? 7)%N then Returns (Some sampleAccount) else Returns None.

(** *** Images *)

Definition photoAt (u : string) : Photo :=
  {| ph_id := JNull; ph_url := JStr (str u); ph_thumbUrl := JNull;
     ph_downloadUrl := JNull; ph_alt := JNull; ph_photographer := JNull;
     ph_photographerUrl := JNull; ph_width := JNull; ph_height := JNull;
     ph_source := str "Unsplash"; ph_license := str "Free to use"; ph_tags := [] |}.

Definition bothKeys : Images.Env :=
  {| UNSPLASH_ACCESS_KEY := JStr (str "u"); PEXELS_API_KEY := JStr (str "p") |}.

Definition unsplashAnswer : Query -> outcome (list Photo) :=
  fun _ => Returns [photoAt "a"; photoAt "b"; photoAt "a"].

Definition pexelsAnswer : Query -> outcome (list Photo) :=
  fun _ => Returns [photoAt "b"; photoAt "c"].

(** *** Relevance order *)

(** [a] may stand before [b]: its relevance is not smaller. *)
Definition byRelevance (a b : Topic) : Prop := (t_relevance b <= t_relevance a)%Q.

(** The relevance is a score between 0 and 1. *)
Definition scored (t : Topic) : Prop :=
  (0 <= t_relevance t)%Q /\ (t_relevance t <= 1)%Q.

(** An answer of the news search. *)
Definition chipsNews : NewsItem :=
  {| n_title := JStr (str "Chips"); n_description := JNull;
     n_url := JNull; n_publishedAt := JNull |}.

Definition newsSearch : jsstring -> Z -> outcome (list NewsItem) :=
  fun _ _ => Returns [chipsNews].

Definition headlines : jsstring -> jsstring -> outcome (list NewsItem) :=
  fun _ _ =>
    Returns [ {| n_title := JStr (str "Chips"); n_description := JNull;
                 n_url := JNull; n_publishedAt := JNull |};
              {| n_title := JStr (str "technology trends 2024"); n_description := JNull;
                 n_url := JNull; n_publishedAt := JNull |} ].

(** The image comes from a response of one of the two providers. *)
Definition fromProvider (photo : Photo) : Prop :=
  ph_source photo = str "Unsplash" \/ ph_source photo = str "Pexels".


(** *** Article routes *)

(** The images of an article are numbered 1, 2, ... in their order. *)
Definition wellNumbered (imgs : list Image) : Prop :=
  forall i img, imgs !! i = Some img -> img_position img = (Z.of_nat i + 1)%Z.

Definition sampleImageData : ArticleOps.ImageData :=
  {| ArticleOps.id_url := str "https://img.example/a.jpg";
     ArticleOps.id_alt := JUndefined; ArticleOps.id_caption := JStr (str "A");
     ArticleOps.id_source := JUndefined; ArticleOps.id_photographer := JUndefined;
     ArticleOps.id_photographerUrl := JUndefined |}.

(** *** Publisher and session routes *)

Definition firstImage : Image :=
  {| img_url := str "https://img.example/0.jpg"; img_alt := []; img_caption := [];
     img_position := 1; img_source := str "unsplash"; img_photographer := [];
     img_photographerUrl := [] |}.

Definition illustratedArticle : Article :=
  ArticleOps.set_images [firstImage] longArticle.

Definition samplePostBody : Publisher.PostBody :=
  {| Publisher.pb_articleId := Some 1%N; Publisher.pb_publishStatus := JUndefined;
     Publisher.pb_featuredImage := JUndefined |}.

Definition samplePostPost (url : jsstring) (data : Publisher.PostData)
    (username : jsstring) (password : jsval) : Blog.Remote Publisher.WpPost :=
  Blog.Fulfilled {| Publisher.wp_id := 31; Publisher.wp_link := url ++ str "/31" |}.

Definition sampleSettings : Publisher.BlogSettings :=
  {| Publisher.bs_wordpress := None;
     Publisher.bs_defaultPublishStatus := JStr (str "draft");
     Publisher.bs_autoAddImages := JBool true;
     Publisher.bs_defaultImageSource := JStr (str "unsplash") |}.

Definition sampleConnect : Publisher.ConnectBody :=
  {| Publisher.cb_siteUrl := JStr (str "https://blog.example/");
     Publisher.cb_username := JStr (str "alice");
     Publisher.cb_password := JUndefined;
     Publisher.cb_apiKey := JStr (str "key") |}.

Definition sampleUsersMe (url username : jsstring) (password : jsval)
  : Blog.Remote Blog.UserMe :=
  Blog.Fulfilled {| Blog.um_name := JStr (str "Alice"); Blog.um_roles := None;
                    Blog.um_capabilities := JUndefined |}.

(** A stand-in for [bcrypt.compare] that goes with [toyHash] on salts of
    two code units: it hashes the data again with the salt read from the
    hash. *)
Definition toyCompare (data h : jsstring) : bool :=
  bool_decide (toyHash data (take 2 (drop 7 h)) = h).

Definition sampleProfile : Session.ProfileBody :=
  {| Session.pf_username := JStr (str "alicia"); Session.pf_email := JStr [];
     Session.pf_blogSettings := None; Session.pf_writingStyle := None |}.

Definition sampleUser : Auth.User :=
  {| Auth.u_id := 5; Auth.username := JStr (str "alice");
     Auth.email := JStr (str "alice@example.org");
     Auth.password := JStr (toyHash (str "hunter22") (str "s1"));
     Auth.blogSettings := [] |}.

End Spec.

Import Spec.

(** * Properties *)

(** ** Strings *)

Section StringFacts.

Lemma str_or_nonempty (s d : jsstring) : s <> [] -> str_or s d = s.
Proof. destruct s; [congruence | reflexivity]. Qed.

Lemma str_or_idem (s d : jsstring) : d <> [] -> str_or (str_or s d) d = str_or s d.
Proof. intros Hd. destruct s; simpl; [now apply str_or_nonempty | reflexivity]. Qed.

Lemma eqb_nil (s : jsstring) : eqb s [] = match s with [] => true | _ => false end.
Proof. destruct s; reflexivity. Qed.

(** Without an occurrence of the separator, [split] returns the text as
    its only piece. *)
Lemma split_go_no_sep (sep s cur : jsstring) :
  includes sep s = false -> split_go sep 0 cur s = [rev cur ++ s].
Proof.
  revert cur. induction s as [|c r IH]; intros cur H.
  - simpl. now rewrite app_nil_r.
  - cbn [includes] in H. apply orb_false_iff in H as [Hs Hr].
    cbn [split_go]. rewrite Hs, (IH _ Hr). cbn [rev].
    now rewrite <- app_assoc.
Qed.

Lemma split_no_sep (sep s : jsstring) :
  includes sep s = false -> split sep s = [s].
Proof.
  intros H. destruct sep as [|a sep'].
  - destruct s; discriminate H.
  - unfold split. now rewrite split_go_no_sep.
Qed.

Lemma title_not_content (l : jsstring) :
  startsWith TITLE_ l = true -> startsWith CONTENT_ l = false.
Proof.
  destruct l as [|c r]; [discriminate|].
  unfold TITLE_, CONTENT_. cbn [startsWith]. intros H.
  apply andb_true_iff in H as [H _]. apply N.eqb_eq in H. now subst c.
Qed.

(** On a line that begins with the marker, replacing its first occurrence
    by the empty string removes that prefix. *)
Lemma replace_prefix (pat s : jsstring) :
  startsWith pat s = true -> replace pat [] s = drop (length pat) s.
Proof. intros H. destruct s; cbn [replace]; now rewrite H. Qed.

Lemma digits_go_nonempty (fuel : nat) (n : N) (acc : jsstring) :
  acc <> [] -> digits_go fuel n acc <> [].
Proof.
  revert n acc. induction fuel as [|f IH]; intros n acc H; [exact H|].
  cbn [digits_go]. destruct (n <? 10); [discriminate|]. now apply IH.
Qed.

Lemma digits_nonempty (n : N) : digits n <> [].
Proof.
  unfold digits. cbn [digits_go]. destruct (n <? 10); [discriminate|].
  now apply digits_go_nonempty.
Qed.

Lemma showPositive_nonempty (m : Z) : showPositive m <> [].
Proof.
  unfold showPositive. destruct (_ <=? _)%Z; [discriminate|].
  cbv zeta. destruct (_ <=? _)%nat; [apply digits_nonempty|].
  intros E. apply (f_equal length) in E. rewrite !length_app in E.
  cbn [str length] in E. lia.
Qed.

(** The string form of a truthy value is not empty. *)
Lemma toString_truthy (v : jsval) : truthy v = true -> toString v <> [].
Proof.
  destruct v as [| |[]|n|s]; cbn [truthy toString]; try discriminate.
  - intros _. destruct n; try discriminate. apply showPositive_nonempty.
  - unfold eqb. case_bool_decide; [discriminate | auto].
Qed.

End StringFacts.

(** ** Output parser *)

Section ParserFacts.

Lemma scan_no_marker (lines : list jsstring) (st : Scan) :
  existsb isMarker lines = false -> sc_isContent st = false ->
  foldl scanLine st lines = st.
Proof.
  induction lines as [|l r IH]; intros Hm Hc; [reflexivity|].
  cbn [existsb] in Hm. apply orb_false_iff in Hm as [Hl Hr].
  apply orb_false_iff in Hl as [Ht Hk].
  cbn [foldl]. unfold scanLine at 2. rewrite Ht, Hk, Hc. now apply IH.
Qed.

Lemma last_filter_cons (P : jsstring -> bool) (l : jsstring) (r : list jsstring) (d : jsstring) :
  P l = true ->
  default d (last (List.filter P (l :: r))) = default l (last (List.filter P r)).
Proof.
  intros H. cbn [List.filter]. rewrite H, last_cons.
  now destruct (last (List.filter P r)).
Qed.

(** The scanning loop computes the title of the last [TITLE:] line and
    appends the body lines that follow the first [CONTENT:] line. *)
Lemma scan_general (lines : list jsstring) (st : Scan) :
  foldl scanLine st lines =
  {| sc_title :=
       match last (List.filter (startsWith TITLE_) lines) with
       | Some l => trim (drop (length TITLE_) l)
       | None => sc_title st
       end;
     sc_articleContent :=
       sc_articleContent st ++
       concat (map (fun l => l ++ nl)
                 (List.filter (fun l => negb (isMarker l))
                    (if sc_isContent st then lines else afterContent lines)));
     sc_isContent := sc_isContent st || existsb (startsWith CONTENT_) lines |}.
Proof.
  revert st. induction lines as [|l r IH]; intros st.
  - destruct st as [t c [|]]; cbn; now rewrite app_nil_r.
  - cbn [foldl]. rewrite IH. clear IH.
    assert (Hf : forall P, List.filter P (l :: r) =
                           if P l then l :: List.filter P r else List.filter P r)
      by reflexivity.
    assert (Ha : afterContent (l :: r) =
                 if startsWith CONTENT_ l then r else afterContent r)
      by reflexivity.
    assert (He : existsb (startsWith CONTENT_) (l :: r) =
                 startsWith CONTENT_ l || existsb (startsWith CONTENT_) r)
      by reflexivity.
    rewrite Ha, He, (Hf (startsWith TITLE_)). clear Ha He.
    destruct st as [t c k]. unfold scanLine.
    cbn [sc_title sc_articleContent sc_isContent].
    destruct (startsWith TITLE_ l) eqn:Ht.
    + rewrite (title_not_content l Ht).
      cbn [sc_title sc_articleContent sc_isContent orb].
      rewrite last_cons, (replace_prefix TITLE_ l Ht).
      f_equal.
      * now destruct (last (List.filter (startsWith TITLE_) r)).
      * destruct k; [|reflexivity]. rewrite Hf. unfold isMarker at 2.
        now rewrite Ht.
    + destruct (startsWith CONTENT_ l) eqn:Hk.
      * cbn [sc_title sc_articleContent sc_isContent orb].
        rewrite orb_true_r. f_equal.
        destruct k; [|reflexivity]. rewrite Hf. unfold isMarker at 2.
        now rewrite Ht, Hk.
      * destruct k; cbn [sc_title sc_articleContent sc_isContent orb];
          [|reflexivity].
        rewrite Hf. unfold isMarker at 2. rewrite Ht, Hk.
        cbn [orb negb map concat]. now rewrite <- !app_assoc.
Qed.

Lemma scanLines_spec (lines : list jsstring) :
  scanLines lines =
  {| sc_title := titleText lines;
     sc_articleContent := bodyText lines;
     sc_isContent := existsb (startsWith CONTENT_) lines |}.
Proof. unfold scanLines. now rewrite scan_general. Qed.

Lemma GeneratedArticle_nonempty : GeneratedArticle <> [].
Proof. discriminate. Qed.

End ParserFacts.

(** C1, as stated, fails on its own example: the text "Just one line" has
    neither markers nor a blank-line boundary, and the parser answers with
    the text itself as the title, not with "Generated Article". *)
Lemma parse_single_line_counterexample :
  hasMarker justOneLine = false /\
  hasBlankLine justOneLine = false /\
  p_title (parseGeneratedContent justOneLine) = justOneLine /\
  p_title (parseGeneratedContent justOneLine) <> GeneratedArticle.
Proof. vm_compute. repeat split; discriminate. Qed.

(** C1, amended: for every raw text without a marker line and without a
    blank-line boundary, the title is the raw text itself ("Generated
    Article" only when the raw text is empty) and the content is the raw
    text trimmed of surrounding white space (the raw text itself when
    trimming leaves nothing). *)
Theorem parse_no_marker_no_blank (raw : jsstring) :
  hasMarker raw = false ->
  hasBlankLine raw = false ->
  parseGeneratedContent raw =
  {| p_title := str_or raw GeneratedArticle;
     p_content := str_or (trim raw) raw |}.
Proof.
  intros Hm Hb. unfold parseGeneratedContent, scanLines.
  rewrite (scan_no_marker _ scanInit Hm eq_refl).
  cbn [sc_title sc_articleContent scanInit]. unfold hasBlankLine in Hb.
  rewrite (split_no_sep _ _ Hb).
  cbn [eqb andb head default drop join str_or bool_decide].
  change (eqb [] [] && eqb [] []) with true. cbv iota. unfold id.
  now rewrite (str_or_idem raw _ GeneratedArticle_nonempty).
Qed.

Lemma parse_no_marker_no_blank_witness :
  hasMarker justOneLine = false /\
  hasBlankLine justOneLine = false /\
  parseGeneratedContent justOneLine =
  {| p_title := justOneLine; p_content := justOneLine |}.
Proof.
  split; [reflexivity|]. split; [reflexivity|].
  apply (parse_no_marker_no_blank justOneLine); reflexivity.
Defined.

(** C7, as stated, fails: the content is trimmed of all leading and
    trailing white space, not of blank lines only, so the indentation of
    the first body line is lost. *)
Lemma parse_markers_counterexample :
  titleThenContent indentedBody /\
  contentAsClaimed indentedBody = str "  Bar" /\
  p_content (parseGeneratedContent indentedBody) = str "Bar" /\
  p_content (parseGeneratedContent indentedBody) <> contentAsClaimed indentedBody.
Proof.
  split.
  - exists [], (str "TITLE: Foo"), [], (str "CONTENT:"), [str "  Bar"].
    vm_compute. auto.
  - vm_compute. repeat split; discriminate.
Qed.

(** C7, amended: whenever the text of the last [TITLE:] line or the body
    buffer is non-empty, the title is the trimmed text after the marker of
    the last [TITLE:] line ("Generated Article" when that is empty) and the
    content is the non-marker lines after the first [CONTENT:] line, each
    followed by a newline, concatenated and trimmed of all leading and
    trailing white space (the entire raw text when nothing remains). *)
Theorem parse_with_markers (raw : jsstring) :
  titleText (split nl raw) <> [] \/ bodyText (split nl raw) <> [] ->
  parseGeneratedContent raw =
  {| p_title := str_or (titleText (split nl raw)) GeneratedArticle;
     p_content := str_or (trim (bodyText (split nl raw))) raw |}.
Proof.
  intros H. unfold parseGeneratedContent. rewrite scanLines_spec.
  cbn [sc_title sc_articleContent]. rewrite !eqb_nil.
  destruct (titleText (split nl raw)) as [|a t] eqn:Ht;
    destruct (bodyText (split nl raw)) as [|b c] eqn:Hb;
    try reflexivity.
  destruct H as [H|H]; congruence.
Qed.

Lemma parse_with_markers_witness :
  titleThenContent fooBarBaz /\
  (titleText (split nl fooBarBaz) <> [] \/ bodyText (split nl fooBarBaz) <> []) /\
  parseGeneratedContent fooBarBaz =
  {| p_title := str "Foo"; p_content := str "Bar" ++ nl ++ str "Baz" |}.
Proof.
  split.
  - exists [], (str "TITLE: Foo"), [[]], (str "CONTENT:"), [str "Bar"; str "Baz"].
    vm_compute. auto.
  - split; [left; vm_compute; discriminate|].
    apply (parse_with_markers fooBarBaz).
    left; vm_compute; discriminate.
Defined.

(** ** Word count *)

Section WordCountFacts.

Lemma split_ws_go_length (s cur : jsstring) (inrun : bool) (prev : N) :
  is_ws prev = inrun ->
  length (split_ws_go inrun cur s) =
  S (length (List.filter (fun p => negb (is_ws p.1) && is_ws p.2) (zip (prev :: s) s))).
Proof.
  revert cur inrun prev. induction s as [|c r IH]; intros cur inrun prev Hp.
  - reflexivity.
  - cbn [split_ws_go zip zip_with List.filter fst snd]. rewrite Hp.
    destruct (is_ws c) eqn:Hc.
    + destruct inrun; cbn [negb andb length]; now rewrite (IH _ true c Hc).
    + rewrite andb_false_r. now apply IH.
Qed.

(** The word count is one more than the number of white-space runs. *)
Lemma countWords_runs (s : jsstring) :
  countWords s = Z.of_nat (S (wsRunCount s)).
Proof.
  unfold countWords, split_ws, wsRunCount.
  now rewrite (split_ws_go_length s [] false 0 eq_refl).
Qed.

Lemma split_ws_go_tokens (s cur : jsstring) (inrun : bool) :
  forallb (fun c => negb (is_ws c)) cur = true ->
  Forall (fun t => forallb (fun c => negb (is_ws c)) t = true) (split_ws_go inrun cur s).
Proof.
  revert cur inrun. induction s as [|c r IH]; intros cur inrun Hcur.
  - constructor; [|constructor]. rewrite forallb_forall in *.
    intros x Hx. apply Hcur. now apply in_rev.
  - cbn [split_ws_go]. destruct (is_ws c) eqn:Hc.
    + destruct inrun; [now apply IH|].
      constructor; [|now apply IH].
      rewrite forallb_forall in *. intros x Hx. apply Hcur. now apply in_rev.
    + apply IH. cbn [forallb]. now rewrite Hc, Hcur.
Qed.

(** No token holds a white-space code unit. *)
Lemma split_ws_tokens (s : jsstring) :
  Forall (fun t => forallb (fun c => negb (is_ws c)) t = true) (split_ws s).
Proof. now apply split_ws_go_tokens. Qed.

End WordCountFacts.

(** ** Article routes: update and regenerate *)

Section RouteFacts.

Variable openai : jsstring -> jsval -> outcome jsstring.
Variable validates : Article -> bool.
Variable writes : Article -> bool.

Lemma findOne_owned (db : gmap N Article) (articleId : N) (a : Article) :
  db !! articleId = Some a ->
  findOne db articleId (userId a) = Some {| loaded := a; current := a |}.
Proof. intros H. unfold findOne. now rewrite H, N.eqb_refl. Qed.

(** [update] on an owned article: the handler's assignments, the pre-save
    hooks, and the write. *)
Lemma update_owned (db : gmap N Article) (articleId : N) (a : Article)
    (body : UpdateBody) (now clock : N) :
  db !! articleId = Some a ->
  update validates writes db (userId a) articleId body now clock =
  if validates (current (updatedDoc a body now)) && writes (updated a body now clock)
  then (Json (updated a body now clock) (str "Article updated successfully"),
        <[_id (updated a body now clock) := updated a body now clock]> db)
  else (Articles.Error 500 (str "Failed to update article"), db).
Proof.
  intros H. unfold update. rewrite (findOne_owned _ _ _ H).
  unfold save. fold (updatedDoc a body now). fold (updated a body now clock).
  destruct (validates (current (updatedDoc a body now))); [|reflexivity].
  now destruct (writes (updated a body now clock)).
Qed.

Lemma regenerate_owned (db : gmap N Article) (articleId : N) (a : Article)
    (body : RegenerateBody) (now now' clock : N) :
  db !! articleId = Some a ->
  regenerate openai validates writes db (userId a) articleId body now now' clock =
  match generateArticle openai (regenerateArgs a body),
        castStyle (default (writingStyle a) (rb_writingStyle body)) with
  | Returns g, Some ws =>
      if validates (current (regeneratedDoc a body g ws now now'))
         && writes (regenerated a body g ws now now' clock)
      then (Json (regenerated a body g ws now now' clock)
              (str "Article regenerated successfully"),
            <[_id (regenerated a body g ws now now' clock) :=
                regenerated a body g ws now now' clock]> db)
      else (Articles.Error 500 (str "Failed to regenerate article"), db)
  | _, _ => (Articles.Error 500 (str "Failed to regenerate article"), db)
  end.
Proof.
  intros H. unfold regenerate. rewrite (findOne_owned _ _ _ H).
  cbn [current]. fold (regenerateArgs a body).
  destruct (generateArticle openai (regenerateArgs a body)) as [g|]; [|reflexivity].
  cbn [mbind outcome_bind try_catch]. unfold assignStyle.
  destruct (castStyle _) as [ws|]; [|reflexivity].
  cbn [mbind outcome_bind try_catch]. unfold save, regenerated, regeneratedDoc.
  destruct (validates _); [|reflexivity].
  cbn [andb]. now destruct (writes _).
Qed.

Lemma generateArticle_wordCount (args : PromptArgs) (g : Generated) :
  generateArticle openai args = Returns g ->
  g_wordCount g = countWords (g_content g).
Proof.
  unfold generateArticle. destruct (openai _ _) as [raw|]; [|discriminate].
  cbn [mbind outcome_bind]. now intros [= <-].
Qed.

Lemma preSave_wordCount (d : Doc) :
  content (current d) <> content (loaded d) ->
  wordCount (current (Articles.preSave d)) = countWords (content (current d)).
Proof.
  intros H. unfold Articles.preSave, isModified_content, eqb.
  rewrite bool_decide_eq_false_2 by assumption. reflexivity.
Qed.

Lemma preSave_content (d : Doc) :
  content (current (Articles.preSave d)) = content (current d).
Proof. unfold Articles.preSave. now destruct (isModified_content d). Qed.

Lemma preSave_unmodified (d : Doc) :
  content (current d) = content (loaded d) -> Articles.preSave d = d.
Proof.
  intros H. unfold Articles.preSave, isModified_content, eqb.
  now rewrite bool_decide_eq_true_2.
Qed.

(** The hooks leave an unmodified document as loaded, and give a modified
    one the time read at the save. *)
Lemma hooks_unmodified (clock : N) (d : Doc) :
  current d = loaded d ->
  current (Articles.preSave (timestampsPreSave clock d)) = loaded d.
Proof.
  intros H. unfold timestampsPreSave, isModified.
  rewrite bool_decide_eq_true_2 by assumption. cbn [negb].
  rewrite preSave_unmodified; [assumption | now rewrite H].
Qed.

Lemma hooks_modified (clock : N) (d : Doc) :
  current d <> loaded d ->
  updatedAt (current (Articles.preSave (timestampsPreSave clock d))) = clock.
Proof.
  intros H. unfold timestampsPreSave, isModified.
  rewrite bool_decide_eq_false_2 by assumption. cbn [negb].
  unfold Articles.preSave. now destruct (isModified_content _).
Qed.

Lemma hooks_updatedAt (clock : N) (d : Doc) :
  current (Articles.preSave (timestampsPreSave clock d)) = loaded d \/
  updatedAt (current (Articles.preSave (timestampsPreSave clock d))) = clock.
Proof.
  destruct (decide (current d = loaded d)) as [H|H].
  - left. now apply hooks_unmodified.
  - right. now apply hooks_modified.
Qed.

Lemma timestamps_content (clock : N) (d : Doc) :
  content (current (timestampsPreSave clock d)) = content (current d) /\
  wordCount (current (timestampsPreSave clock d)) = wordCount (current d) /\
  loaded (timestampsPreSave clock d) = loaded d.
Proof. unfold timestampsPreSave. now destruct (isModified d). Qed.

Ltac case_assignments :=
  unfold updated, updatedDoc, regenerated, regeneratedDoc, Articles.preSave,
    timestampsPreSave, assignIf, assign;
  repeat match goal with
         | |- context [truthy ?v] => destruct (truthy v)
         | |- context [isModified ?d] => destruct (isModified d)
         | |- context [isModified_content ?d] => destruct (isModified_content d)
         end.

Lemma updated_identity (a : Article) (body : UpdateBody) (now clock : N) :
  sameIdentity a (updated a body now clock) /\
  writingStyle (updated a body now clock) = writingStyle a /\
  tone (updated a body now clock) = tone a /\
  regeneratedAt (updated a body now clock) = regeneratedAt a.
Proof. unfold sameIdentity. case_assignments; cbn; repeat split. Qed.

Lemma updated_title (a : Article) (body : UpdateBody) (now clock : N) :
  title (updated a body now clock) =
  if truthy (ub_title body) then trim (toString (ub_title body)) else title a.
Proof. case_assignments; reflexivity. Qed.

Lemma updated_content (a : Article) (body : UpdateBody) (now clock : N) :
  content (updated a body now clock) =
  if truthy (ub_content body) then toString (ub_content body) else content a.
Proof. case_assignments; reflexivity. Qed.

Lemma updated_status (a : Article) (body : UpdateBody) (now clock : N) :
  status (updated a body now clock) =
  if truthy (ub_status body) then toString (ub_status body) else status a.
Proof. case_assignments; reflexivity. Qed.

Lemma updatedDoc_content (a : Article) (body : UpdateBody) (now clock : N) :
  content (current (updatedDoc a body now)) = content (updated a body now clock) /\
  loaded (updatedDoc a body now) = a /\
  wordCount (current (updatedDoc a body now)) = wordCount a /\
  title (current (updatedDoc a body now)) = title (updated a body now clock).
Proof. case_assignments; cbn; repeat split. Qed.

Lemma updated_wordCount (a : Article) (body : UpdateBody) (now clock : N) :
  wordCount (updated a body now clock) =
  if bool_decide (content (updated a body now clock) = content a)
  then wordCount a else countWords (content (updated a body now clock)).
Proof.
  destruct (updatedDoc_content a body now clock) as (Hc & Hl & Hw & _).
  destruct (timestamps_content clock (updatedDoc a body now)) as (Hc' & Hw' & Hl').
  case_bool_decide as Heq.
  - unfold updated. rewrite preSave_unmodified; [now rewrite Hw'|].
    now rewrite Hc', Hl', Hc, Hl.
  - unfold updated at 1. rewrite preSave_wordCount; [now rewrite Hc', Hc|].
    now rewrite Hc', Hl', Hc, Hl.
Qed.

Lemma updated_updatedAt (a : Article) (body : UpdateBody) (now clock : N) :
  updated a body now clock = a \/ updatedAt (updated a body now clock) = clock.
Proof.
  destruct (hooks_updatedAt clock (updatedDoc a body now)) as [H|H].
  - left. unfold updated. rewrite H. apply updatedDoc_content. exact clock.
  - now right.
Qed.

Lemma regenerated_identity (a : Article) (body : RegenerateBody) (g : Generated)
    (ws : Style) (now now' clock : N) :
  sameIdentity a (regenerated a body g ws now now' clock) /\
  status (regenerated a body g ws now now' clock) = status a.
Proof. unfold sameIdentity. case_assignments; cbn; repeat split. Qed.

Lemma regenerated_fields (a : Article) (body : RegenerateBody) (g : Generated)
    (ws : Style) (now now' clock : N) :
  g_wordCount g = countWords (g_content g) ->
  let a' := regenerated a body g ws now now' clock in
  title a' = trim (g_title g) /\
  content a' = g_content g /\
  wordCount a' = countWords (g_content g) /\
  tone a' = toString (or_else (rb_tone body) (JStr (tone a))) /\
  writingStyle a' = ws /\
  regeneratedAt a' = Some now' /\
  (a' = a \/ updatedAt a' = clock).
Proof.
  intros Hg a'.
  assert (Hu : a' = a \/ updatedAt a' = clock).
  { destruct (hooks_updatedAt clock (regeneratedDoc a body g ws now now')) as [H|H];
      [left | right]; exact H. }
  subst a'. revert Hu.
  case_assignments; cbn; rewrite ?Hg; intros Hu; repeat split; exact Hu.
Qed.

(** What a success answer of [update] and of [regenerate] carries. *)
Lemma update_success (db db' : gmap N Article) (articleId : N) (a a' : Article)
    (body : UpdateBody) (now clock : N) (msg : jsstring) :
  db !! articleId = Some a ->
  update validates writes db (userId a) articleId body now clock = (Json a' msg, db') ->
  a' = updated a body now clock /\ db' = <[_id a := a']> db /\
  validates (current (updatedDoc a body now)) = true.
Proof.
  intros Hdb Hu. rewrite (update_owned _ _ _ _ _ _ Hdb) in Hu.
  destruct (validates _); [|discriminate].
  destruct (writes _); [|discriminate]. injection Hu as <- _ <-.
  split; [reflexivity|]. split; [|reflexivity].
  now destruct (updated_identity a body now clock) as [[-> _] _].
Qed.

Lemma regenerate_success (db db' : gmap N Article) (articleId : N) (a a' : Article)
    (body : RegenerateBody) (now now' clock : N) (msg : jsstring) :
  db !! articleId = Some a ->
  regenerate openai validates writes db (userId a) articleId body now now' clock
  = (Json a' msg, db') ->
  exists g ws,
    generateArticle openai (regenerateArgs a body) = Returns g /\
    castStyle (default (writingStyle a) (rb_writingStyle body)) = Some ws /\
    a' = regenerated a body g ws now now' clock /\ db' = <[_id a := a']> db.
Proof.
  intros Hdb Hr. rewrite (regenerate_owned _ _ _ _ _ _ _ Hdb) in Hr.
  destruct (generateArticle openai (regenerateArgs a body)) as [g|] eqn:Hg;
    [|discriminate].
  destruct (castStyle _) as [ws|] eqn:Hws; [|discriminate].
  destruct (_ && _); [|discriminate]. injection Hr as <- _ <-.
  exists g, ws. split; [reflexivity|]. split; [reflexivity|]. split; [reflexivity|].
  now destruct (regenerated_identity a body g ws now now' clock) as [[-> _] _].
Qed.

End RouteFacts.

(** C3: a successful [regenerate] of an owned article leaves its id,
    createdAt, topic, niche, images, blogPost and analytics (and its owner,
    status, tags, keywords, seoData and the other timestamps) unchanged,
    stores the result under the same id, and replaces only title, content,
    wordCount, tone, writingStyle, updatedAt and regeneratedAt: the first
    three with the values of the freshly generated article, the style with
    the cast of the requested (or stored) one, regeneratedAt with the
    handler's date and updatedAt, as soon as anything changed, with the time
    read at the save. *)
Theorem regenerate_preserves_identity
    (openai : jsstring -> jsval -> outcome jsstring)
    (validates writes : Article -> bool)
    (db db' : gmap N Article) (uid articleId : N) (body : RegenerateBody)
    (now now' clock : N) (a a' : Article) (msg : jsstring) :
  db !! articleId = Some a ->
  userId a = uid ->
  regenerate openai validates writes db uid articleId body now now' clock
  = (Json a' msg, db') ->
  sameIdentity a a' /\
  status a' = status a /\
  db' = <[_id a := a']> db /\
  exists g ws,
    generateArticle openai (regenerateArgs a body) = Returns g /\
    castStyle (default (writingStyle a) (rb_writingStyle body)) = Some ws /\
    title a' = trim (g_title g) /\
    content a' = g_content g /\
    wordCount a' = countWords (g_content g) /\
    tone a' = toString (or_else (rb_tone body) (JStr (tone a))) /\
    writingStyle a' = ws /\
    regeneratedAt a' = Some now' /\
    (a' = a \/ updatedAt a' = clock).
Proof.
  intros Hdb <- Hr.
  destruct (regenerate_success openai validates writes _ _ _ _ _ _ _ _ _ _ Hdb Hr)
    as (g & ws & Hg & Hws & -> & ->).
  destruct (regenerated_identity a body g ws now now' clock) as [Hid Hst].
  split; [exact Hid|]. split; [exact Hst|]. split; [reflexivity|].
  exists g, ws. split; [exact Hg|]. split; [exact Hws|].
  apply regenerated_fields. exact (generateArticle_wordCount openai _ _ Hg).
Qed.

Lemma regenerate_preserves_identity_witness :
  exists a' db',
    longDb !! 1%N = Some longArticle /\
    regenerate (fun _ _ => Returns fooLong) schemaValidates (fun _ => true) longDb 7 1
      styledRegenerate 2000 2001 2002
    = (Json a' (str "Article regenerated successfully"), db') /\
    sameIdentity longArticle a' /\ title a' = str "Foo" /\ wordCount a' = 150%Z /\
    examples (writingStyle a') = JBool true /\ updatedAt a' = 2002%N.
Proof.
  destruct (regenerate (fun _ _ => Returns fooLong) schemaValidates (fun _ => true)
              longDb 7 1 styledRegenerate 2000 2001 2002) as [reply db'] eqn:Hr.
  assert (Hreply : exists a', reply = Json a' (str "Article regenerated successfully") /\
                              title a' = str "Foo" /\ wordCount a' = 150%Z /\
                              examples (writingStyle a') = JBool true /\
                              updatedAt a' = 2002%N).
  { vm_compute in Hr. injection Hr as <- _. eexists. repeat split. }
  destruct Hreply as (a' & -> & Ht & Hw & He & Hu).
  exists a', db'. split; [reflexivity|]. split; [reflexivity|].
  pose proof (regenerate_preserves_identity _ _ _ _ _ _ _ _ _ _ _ _ _ _
                (eq_refl : longDb !! 1%N = Some longArticle) eq_refl Hr) as H.
  split; [exact (proj1 H)|]. repeat split; assumption.
Defined.

(** C4: the canonical word count splits on white-space runs and counts the
    pieces, so that "one two  three" counts 3 and the empty string counts 1
    (in general one more than the number of white-space runs); the same
    count is what [generateArticle] reports, what the pre-save hook stores
    when [update] changes an article's content, and what [regenerate]
    stores. *)
Theorem wordCount_canonical :
  countWords (str "one two  three") = 3%Z /\
  countWords [] = 1%Z /\
  (forall s, countWords s = Z.of_nat (length (split_ws s)) /\
             countWords s = Z.of_nat (S (wsRunCount s))) /\
  (forall openai args g,
     generateArticle openai args = Returns g ->
     g_wordCount g = countWords (g_content g)) /\
  (forall validates writes (db db' : gmap N Article) uid articleId body now clock
          a a' msg,
     db !! articleId = Some a -> userId a = uid ->
     update validates writes db uid articleId body now clock = (Json a' msg, db') ->
     content a' <> content a ->
     wordCount a' = countWords (content a')) /\
  (forall openai validates writes (db db' : gmap N Article) uid articleId body
          now now' clock a a' msg,
     db !! articleId = Some a -> userId a = uid ->
     regenerate openai validates writes db uid articleId body now now' clock
     = (Json a' msg, db') ->
     wordCount a' = countWords (content a')).
Proof.
  split; [reflexivity|]. split; [reflexivity|].
  split; [intros s; split; [reflexivity | apply countWords_runs]|].
  split; [exact generateArticle_wordCount|]. split.
  - intros validates writes db db' uid articleId body now clock a a' msg Hdb <- Hu Hne.
    destruct (update_success validates writes _ _ _ _ _ _ _ _ _ Hdb Hu) as (-> & _ & _).
    rewrite updated_wordCount. now rewrite bool_decide_eq_false_2.
  - intros openai validates writes db db' uid articleId body now now' clock a a' msg
      Hdb <- Hr.
    destruct (regenerate_success openai validates writes _ _ _ _ _ _ _ _ _ _ Hdb Hr)
      as (g & ws & Hg & _ & -> & _).
    pose proof (generateArticle_wordCount openai _ _ Hg) as Hw.
    destruct (regenerated_fields a body g ws now now' clock Hw) as (_ & -> & -> & _).
    reflexivity.
Qed.

Lemma wordCount_canonical_witness :
  let a' := updated longArticle rewritingBody 2000 2002 in
  longDb !! 1%N = Some longArticle /\
  update schemaValidates (fun _ => true) longDb 7 1 rewritingBody 2000 2002
  = (Json a' (str "Article updated successfully"), <[1%N := a']> longDb) /\
  content a' <> content longArticle /\
  wordCount longArticle = 120%Z /\ content a' = newText /\
  countWords newText = 150%Z /\
  wordCount a' = countWords newText.
Proof.
  intros a'.
  assert (Hu : update schemaValidates (fun _ => true) longDb 7 1 rewritingBody 2000 2002
               = (Json a' (str "Article updated successfully"),
                  <[1%N := a']> longDb))
    by (vm_compute; reflexivity).
  assert (Hne : content a' <> content longArticle) by (vm_compute; discriminate).
  split; [reflexivity|]. split; [exact Hu|]. split; [exact Hne|].
  split; [reflexivity|]. split; [reflexivity|]. split; [vm_compute; reflexivity|].
  exact (proj1 (proj2 (proj2 (proj2 (proj2 wordCount_canonical))))
           schemaValidates (fun _ => true) longDb _ 7%N 1%N rewritingBody 2000%N 2002%N
           longArticle a' _
           eq_refl eq_refl Hu Hne).
Defined.

(** C10, as stated, fails: an update whose request names the content
    alone also changes updatedAt and wordCount, which the request does
    not mention. *)
Lemma update_frame_counterexample :
  exists a' db',
    longDb !! 1%N = Some longArticle /\
    ub_title rewritingBody = JUndefined /\ ub_status rewritingBody = JUndefined /\
    update schemaValidates (fun _ => true) longDb 7 1 rewritingBody 2000 2002
    = (Json a' (str "Article updated successfully"), db') /\
    updatedAt a' <> updatedAt longArticle /\
    wordCount a' <> wordCount longArticle.
Proof.
  eexists _, _. split; [reflexivity|]. split; [reflexivity|]. split; [reflexivity|].
  split; [vm_compute; reflexivity|]. split; discriminate.
Qed.

(** C10, amended: [update] on an owned article assigns a supplied title,
    content or status only when the value is truthy.  A falsy value, such as
    the empty string or a field left out of the request, leaves the stored
    field as it was.  Content and status never become empty through an
    update, and neither does the title as long as validation rejects an
    empty title, a title of white space alone being trimmed to the empty
    string.  Of the other fields only two can change: updatedAt, which gets
    the time read at the save whenever the article changed, and wordCount,
    which is recomputed from the content whenever the content changed. *)
Theorem update_applies_truthy_only
    (validates writes : Article -> bool) (db db' : gmap N Article)
    (uid articleId : N) (body : UpdateBody) (now clock : N) (a a' : Article)
    (msg : jsstring) :
  db !! articleId = Some a ->
  userId a = uid ->
  update validates writes db uid articleId body now clock = (Json a' msg, db') ->
  truthy (JStr []) = false /\ truthy JUndefined = false /\
  title a' = (if truthy (ub_title body) then trim (toString (ub_title body)) else title a) /\
  content a' = (if truthy (ub_content body) then toString (ub_content body) else content a) /\
  status a' = (if truthy (ub_status body) then toString (ub_status body) else status a) /\
  (truthy (ub_title body) = false -> title a' = title a) /\
  (truthy (ub_content body) = false ->
   content a' = content a /\ wordCount a' = wordCount a) /\
  (truthy (ub_status body) = false -> status a' = status a) /\
  (content a' = [] -> content a = []) /\
  (status a' = [] -> status a = []) /\
  ((forall x, validates x = true -> title x <> []) -> title a' <> []) /\
  sameIdentity a a' /\
  writingStyle a' = writingStyle a /\ tone a' = tone a /\
  regeneratedAt a' = regeneratedAt a /\
  wordCount a' = (if bool_decide (content a' = content a)
                  then wordCount a else countWords (content a')) /\
  (a' = a \/ updatedAt a' = clock) /\
  db' = <[_id a := a']> db.
Proof.
  intros Hdb <- Hu.
  destruct (update_success validates writes _ _ _ _ _ _ _ _ _ Hdb Hu) as (-> & -> & Hv).
  destruct (updated_identity a body now clock) as (Hid & Hws & Htn & Hrg).
  pose proof (updated_title a body now clock) as Ht.
  pose proof (updated_content a body now clock) as Hc.
  pose proof (updated_status a body now clock) as Hs.
  pose proof (updated_wordCount a body now clock) as Hw.
  split; [reflexivity|]. split; [reflexivity|].
  split; [exact Ht|]. split; [exact Hc|]. split; [exact Hs|].
  split; [intros F; now rewrite Ht, F|].
  split.
  { intros F. split; [now rewrite Hc, F|].
    rewrite Hw, bool_decide_eq_true_2; [reflexivity|]. now rewrite Hc, F. }
  split; [intros F; now rewrite Hs, F|].
  split.
  { rewrite Hc. destruct (truthy (ub_content body)) eqn:F; [|auto].
    intros E. now apply toString_truthy in F. }
  split.
  { rewrite Hs. destruct (truthy (ub_status body)) eqn:F; [|auto].
    intros E. now apply toString_truthy in F. }
  split.
  { intros Hreq. apply Hreq in Hv.
    now rewrite (proj2 (proj2 (proj2 (updatedDoc_content a body now clock)))) in Hv. }
  split; [exact Hid|]. split; [exact Hws|]. split; [exact Htn|].
  split; [exact Hrg|]. split; [exact Hw|].
  split; [apply updated_updatedAt | reflexivity].
Qed.

Lemma update_applies_truthy_only_witness :
  exists a' db',
    longDb !! 1%N = Some longArticle /\
    update schemaValidates (fun _ => true) longDb 7 1 clearingBody 2000 2002
    = (Json a' (str "Article updated successfully"), db') /\
    title a' = str "Old title" /\ content a' = longText /\
    status a' = str "review" /\ wordCount a' = 120%Z /\ updatedAt a' = 2002%N /\
    title a' <> [] /\
    update schemaValidates (fun _ => true) longDb 7 1 blankTitleBody 2000 2002
    = (Articles.Error 500 (str "Failed to update article"), longDb).
Proof.
  destruct (update schemaValidates (fun _ => true) longDb 7 1 clearingBody 2000 2002)
    as [reply db'] eqn:Hu.
  assert (Hreply : exists a', reply = Json a' (str "Article updated successfully") /\
                              status a' = str "review" /\ updatedAt a' = 2002%N).
  { vm_compute in Hu. injection Hu as <- _. eexists. repeat split. }
  destruct Hreply as (a' & -> & Hst & Hup).
  pose proof (update_applies_truthy_only _ _ _ _ _ _ _ _ _ _ _ _
                (eq_refl : longDb !! 1%N = Some longArticle) eq_refl Hu) as H.
  destruct H as (_ & _ & _ & _ & _ & Ht & Hc & _ & _ & _ & Hreq & _).
  exists a', db'. split; [reflexivity|]. split; [reflexivity|].
  split; [exact (Ht eq_refl)|]. split; [exact (proj1 (Hc eq_refl))|].
  split; [exact Hst|]. split; [exact (proj2 (Hc eq_refl))|]. split; [exact Hup|].
  split; [|vm_compute; reflexivity].
  apply Hreq. intros x Hx E. unfold schemaValidates in Hx. rewrite E in Hx.
  discriminate Hx.
Defined.

(** ** Registration *)

Section AuthFacts.

Variable bcrypt_hash : jsstring -> jsstring -> jsstring.
Variable jwt_sign : N -> jsstring.
Variable validates : Auth.User -> bool.
Variable writes : Auth.User -> bool.
Variable castUsername : jsval -> jsval.
Variable castEmail : jsval -> jsval.

(** The document handed to [save] by the route is new and has its
    password path marked modified, so the hook does not return early. *)
Lemma route_password_modified (id : N) (u e p h : jsval) (bs : list (jsstring * jsval)) :
  Auth.modifiedPassword (Auth.set_password h (Auth.newUser id u e p bs)) = true.
Proof. reflexivity. Qed.

Lemma register_new_user (users : list Auth.User) (body : Auth.RegisterBody)
    (id : N) (salt1 salt2 pw : jsstring) :
  Auth.findOne users (castEmail (Auth.rb_email body)) = None ->
  Auth.rb_password body = JStr pw ->
  let u := {| Auth.u_id := id;
              Auth.username := castUsername (Auth.rb_username body);
              Auth.email := castEmail (Auth.rb_email body);
              Auth.password := JStr (bcrypt_hash (bcrypt_hash pw salt1) salt2);
              Auth.blogSettings := default [] (Auth.rb_blogSettings body) |} in
  Auth.register bcrypt_hash jwt_sign validates writes castUsername castEmail
    users body id salt1 salt2 =
  if validates {| Auth.u_id := id;
                  Auth.username := castUsername (Auth.rb_username body);
                  Auth.email := castEmail (Auth.rb_email body);
                  Auth.password := JStr (bcrypt_hash pw salt1);
                  Auth.blogSettings := default [] (Auth.rb_blogSettings body) |}
     && writes u
  then (Auth.Token (jwt_sign id) id (Auth.rb_username body) (Auth.rb_email body),
        users ++ [u])
  else (Auth.Error 500 (str "Server error"), users).
Proof.
  intros Hf Hp u. unfold Auth.register. rewrite Hf, Hp.
  cbn [Auth.hash mbind outcome_bind]. unfold Auth.save, Auth.preSave.
  rewrite route_password_modified.
  cbn [negb Auth.set_password Auth.newUser Auth.doc Auth.password Auth.hash
       mbind outcome_bind Auth.u_id Auth.username Auth.email Auth.blogSettings].
  fold u. destruct (validates _); [|reflexivity]. now destruct (writes u).
Qed.

End AuthFacts.

(** C9: whenever registration succeeds, the password stored on the
    created user is [bcrypt.hash] applied to the [bcrypt.hash] of the
    submitted password: the route hashes the plaintext, and the pre-save
    hook, finding the password path modified, hashes that hash again.  The
    user is stored under the fresh id, with the address and the name as the
    schema casts them. *)
Theorem register_stores_double_hash
    (bcrypt_hash : jsstring -> jsstring -> jsstring) (jwt_sign : N -> jsstring)
    (validates writes : Auth.User -> bool) (castUsername castEmail : jsval -> jsval)
    (users users' : list Auth.User)
    (body : Auth.RegisterBody) (id : N) (salt1 salt2 token : jsstring)
    (id' : N) (name mail : jsval) :
  Auth.register bcrypt_hash jwt_sign validates writes castUsername castEmail
    users body id salt1 salt2
  = (Auth.Token token id' name mail, users') ->
  exists pw u,
    Auth.rb_password body = JStr pw /\
    users' = users ++ [u] /\
    Auth.u_id u = id /\
    Auth.email u = castEmail (Auth.rb_email body) /\
    Auth.username u = castUsername (Auth.rb_username body) /\
    Auth.password u = JStr (bcrypt_hash (bcrypt_hash pw salt1) salt2).
Proof.
  intros H.
  destruct (Auth.findOne users (castEmail (Auth.rb_email body))) eqn:Hf.
  { unfold Auth.register in H. rewrite Hf in H. discriminate H. }
  destruct (Auth.rb_password body) as [| |b|n|pw] eqn:Hp;
    try (unfold Auth.register in H; rewrite Hf, Hp in H; discriminate H).
  rewrite (register_new_user bcrypt_hash jwt_sign validates writes castUsername
             castEmail users body id salt1 salt2 pw Hf Hp) in H.
  cbv zeta in H. destruct (_ && _); [|discriminate H].
  injection H as _ _ _ _ <-.
  eexists pw, _. repeat split; reflexivity.
Qed.

Lemma register_stores_double_hash_witness :
  let stored := {| Auth.u_id := 5;
                   Auth.username := JStr (str "Alice");
                   Auth.email := JStr (str "alice@example.org");
                   Auth.password :=
                     JStr (toyHash (toyHash (str "hunter22") (str "s1")) (str "s2"));
                   Auth.blogSettings := [] |} in
  Auth.register toyHash (fun _ => str "jwt") (fun _ => true) (fun _ => true)
    castName castAddress [] mixedRegistration 5 (str "s1") (str "s2")
  = (Auth.Token (str "jwt") 5 (JStr (str " Alice ")) (JStr (str "Alice@Example.ORG")),
     [stored]) /\
  Auth.password stored <> JStr (toyHash (str "hunter22") (str "s1")) /\
  exists pw u,
    Auth.rb_password mixedRegistration = JStr pw /\
    [stored] = [] ++ [u] /\
    Auth.u_id u = 5%N /\
    Auth.email u = castAddress (Auth.rb_email mixedRegistration) /\
    Auth.username u = castName (Auth.rb_username mixedRegistration) /\
    Auth.password u = JStr (toyHash (toyHash pw (str "s1")) (str "s2")).
Proof.
  intros stored.
  assert (Hr : Auth.register toyHash (fun _ => str "jwt") (fun _ => true) (fun _ => true)
                 castName castAddress [] mixedRegistration 5 (str "s1") (str "s2")
               = (Auth.Token (str "jwt") 5 (JStr (str " Alice "))
                    (JStr (str "Alice@Example.ORG")), [stored]))
    by (vm_compute; reflexivity).
  split; [exact Hr|]. split; [vm_compute; discriminate|].
  exact (register_stores_double_hash _ _ _ _ _ _ _ _ _ _ _ _ _ _ _ _ Hr).
Defined.

(** ** Publisher *)

(** C5, as stated, fails: on a remote 401 [updateWordPressPost] and
    [deleteWordPressPost] answer with their own fixed message, not with the
    invalid-credentials message, and [listPosts] answers with a 500. *)
Lemma publisher_errors_counterexample :
  let put := fun _ _ _ _ => Blog.Rejected (Some 401%Z) in
  let del := fun _ _ _ => Blog.Rejected (Some 401%Z) in
  let get := fun _ _ _ _ _ => Blog.Rejected (Some 401%Z) in
  Blog.updateWordPressPost put (fun _ _ => JNull) (str "12") sampleBlog
    (JStr (str "T")) JUndefined JUndefined JUndefined
  = Blog.Failure (str "Failed to update WordPress post") /\
  Blog.updateWordPressPost put (fun _ _ => JNull) (str "12") sampleBlog
    (JStr (str "T")) JUndefined JUndefined JUndefined
  <> Blog.Failure (classify (Some 401%Z)) /\
  Blog.deleteWordPressPost del (str "12") sampleBlog
  <> Blog.Failure (classify (Some 401%Z)) /\
  Blog.listPosts get (Some sampleBlog) 1 10
  <> Blog.Err 400 (classify (Some 401%Z)).
Proof. vm_compute. repeat split; discriminate. Qed.

(** C5, amended: the three-way translation of a remote failure (401 to
    the invalid-credentials message, 404 to the REST-API-unavailable
    message, anything else to the generic connection-failure message) is
    made by the connection probe [testWordPressConnection] alone.  The
    update and delete helpers translate every remote failure, whatever its
    status, into their one fixed message, answered with 400, and the list
    route answers every remote failure with 500 and its own fixed message. *)
Theorem publisher_error_messages :
  (forall getUsersMe siteUrl username password st,
     getUsersMe (Blog.cleanSiteUrl siteUrl ++ str "/wp-json/wp/v2/users/me")
       username password = Blog.Rejected st ->
     Blog.testWordPressConnection getUsersMe siteUrl username password
     = Blog.Failure (classify st)) /\
  (forall putPost upload postId w newTitle newContent newStatus featuredImage,
     (forall url data user pass, exists st, putPost url data user pass = Blog.Rejected st) ->
     Blog.updateWordPressPost putPost upload postId w
       newTitle newContent newStatus featuredImage
     = Blog.Failure (str "Failed to update WordPress post") /\
     (Blog.connected w = true ->
      Blog.updatePost putPost upload (Some w) postId
        newTitle newContent newStatus featuredImage
      = Blog.Err 400 (str "Failed to update WordPress post"))) /\
  (forall deletePost postId w,
     (forall url user pass, exists st, deletePost url user pass = Blog.Rejected st) ->
     Blog.deleteWordPressPost deletePost postId w
     = Blog.Failure (str "Failed to delete WordPress post") /\
     (Blog.connected w = true ->
      Blog.deletePostRoute deletePost (Some w) postId
      = Blog.Err 400 (str "Failed to delete WordPress post"))) /\
  (forall getPosts w page perPage,
     (forall url user pass pg pp, exists st, getPosts url user pass pg pp = Blog.Rejected st) ->
     Blog.connected w = true ->
     Blog.listPosts getPosts (Some w) page perPage
     = Blog.Err 500 (str "Failed to fetch blog posts")).
Proof.
  split; [|split; [|split]].
  - intros getUsersMe siteUrl username password st H.
    unfold Blog.testWordPressConnection. rewrite H. unfold classify.
    destruct st as [z|]; [|reflexivity].
    destruct (decide (z = 401%Z)) as [->|H1]; [reflexivity|].
    destruct (decide (z = 404%Z)) as [->|H4]; [reflexivity|].
    rewrite !bool_decide_eq_false_2 by congruence.
    destruct z as [|q|q]; try reflexivity.
    repeat (destruct q as [q|q|]; try reflexivity; try congruence).
  - intros putPost upload postId w ti co st fi H. split.
    + unfold Blog.updateWordPressPost. edestruct H as [s ->]. reflexivity.
    + intros Hc. unfold Blog.updatePost, Blog.isConnected, Blog.updateWordPressPost.
      rewrite Hc. edestruct H as [s ->]. reflexivity.
  - intros deletePost postId w H. split.
    + unfold Blog.deleteWordPressPost. edestruct H as [s ->]. reflexivity.
    + intros Hc. unfold Blog.deletePostRoute, Blog.isConnected, Blog.deleteWordPressPost.
      rewrite Hc. edestruct H as [s ->]. reflexivity.
  - intros getPosts w page perPage H Hc.
    unfold Blog.listPosts, Blog.isConnected, Blog.getWordPressPosts. rewrite Hc.
    edestruct H as [s ->]. reflexivity.
Qed.

Lemma publisher_error_messages_witness :
  Blog.testWordPressConnection (fun _ _ _ => Blog.Rejected (Some 401%Z))
    (str "https://blog.example/") (str "editor") (JStr (str "secret"))
  = Blog.Failure Blog.invalidCredentials /\
  Blog.testWordPressConnection (fun _ _ _ => Blog.Rejected (Some 404%Z))
    (str "https://blog.example/") (str "editor") (JStr (str "secret"))
  = Blog.Failure Blog.restApiNotFound /\
  Blog.testWordPressConnection (fun _ _ _ => Blog.Rejected (Some 503%Z))
    (str "https://blog.example/") (str "editor") (JStr (str "secret"))
  = Blog.Failure Blog.connectionFailed /\
  Blog.updateWordPressPost (fun _ _ _ _ => Blog.Rejected (Some 401%Z))
    (fun _ _ => JNull) (str "12") sampleBlog (JStr (str "T")) JUndefined JUndefined JUndefined
  = Blog.Failure (str "Failed to update WordPress post") /\
  Blog.deleteWordPressPost (fun _ _ _ => Blog.Rejected (Some 404%Z)) (str "12") sampleBlog
  = Blog.Failure (str "Failed to delete WordPress post") /\
  Blog.listPosts (fun _ _ _ _ _ => Blog.Rejected (Some 401%Z)) (Some sampleBlog) 1 10
  = Blog.Err 500 (str "Failed to fetch blog posts").
Proof.
  destruct publisher_error_messages as (Ht & Hu & Hd & Hl).
  split; [exact (Ht (fun _ _ _ => Blog.Rejected (Some 401%Z)) _ _ _ (Some 401%Z) eq_refl)|].
  split; [exact (Ht (fun _ _ _ => Blog.Rejected (Some 404%Z)) _ _ _ (Some 404%Z) eq_refl)|].
  split; [exact (Ht (fun _ _ _ => Blog.Rejected (Some 503%Z)) _ _ _ (Some 503%Z) eq_refl)|].
  split; [apply (Hu (fun _ _ _ _ => Blog.Rejected (Some 401%Z))); intros; now eexists|].
  split; [apply (Hd (fun _ _ _ => Blog.Rejected (Some 404%Z))); intros; now eexists|].
  apply (Hl (fun _ _ _ _ _ => Blog.Rejected (Some 401%Z))); [intros; now eexists | reflexivity].
Defined.

(** ** Deduplication *)

Section DedupeFacts.

Context {A : Type} (key : A -> jsval).

Lemma filterSeen_not_seen (seen : gset jsval) (l : list A) (x : A) :
  x ∈ filterSeen key seen l -> key x ∉ seen.
Proof.
  revert seen. induction l as [|y r IH]; intros seen Hx.
  - inversion Hx.
  - cbn [filterSeen] in Hx. case_bool_decide as Hy.
    + apply IH in Hx. set_solver.
    + apply elem_of_cons in Hx as [->|Hx]; [assumption|].
      apply IH in Hx. set_solver.
Qed.

Lemma filterSeen_sublist (seen : gset jsval) (l : list A) :
  filterSeen key seen l `sublist_of` l.
Proof.
  revert seen. induction l as [|y r IH]; intros seen; [constructor|].
  cbn [filterSeen]. case_bool_decide.
  - apply sublist_cons, IH.
  - apply sublist_skip, IH.
Qed.

Lemma filterSeen_NoDup (seen : gset jsval) (l : list A) :
  NoDup (key <$> filterSeen key seen l).
Proof.
  revert seen. induction l as [|y r IH]; intros seen; [constructor|].
  cbn [filterSeen]. case_bool_decide; [apply IH|].
  rewrite fmap_cons. apply NoDup_cons. split; [|apply IH].
  intros Hin. apply list_elem_of_fmap in Hin as (x & Hk & Hx).
  apply filterSeen_not_seen in Hx. set_solver.
Qed.

(** For a key not seen before, the filter keeps exactly the first item of
    the input that carries it. *)
Lemma filterSeen_first (seen : gset jsval) (l : list A) (k : jsval) :
  k ∉ seen ->
  firstWithKey key k (filterSeen key seen l) = firstWithKey key k l.
Proof.
  revert seen. induction l as [|y r IH]; intros seen Hk; [reflexivity|].
  cbn [filterSeen firstWithKey]. case_bool_decide as Hy.
  - rewrite bool_decide_eq_false_2 by (intros He; apply Hk; now rewrite <- He).
    apply IH. set_solver.
  - cbn [firstWithKey]. case_bool_decide as He; [reflexivity|].
    apply IH. set_solver.
Qed.

Lemma firstWithKey_NoDup (l : list A) (x : A) :
  NoDup (key <$> l) -> x ∈ l -> firstWithKey key (key x) l = Some x.
Proof.
  induction l as [|y r IH]; intros Hnd Hx; [inversion Hx|].
  rewrite fmap_cons in Hnd. apply NoDup_cons in Hnd as [Hy Hnd].
  cbn [firstWithKey]. apply elem_of_cons in Hx as [->|Hx].
  - now rewrite bool_decide_eq_true_2.
  - rewrite bool_decide_eq_false_2; [now apply IH|].
    intros He. apply Hy. rewrite He. now apply list_elem_of_fmap_2.
Qed.

Lemma firstWithKey_Some (l : list A) (k : jsval) (x : A) :
  firstWithKey key k l = Some x -> x ∈ l /\ key x = k.
Proof.
  induction l as [|y r IH]; [discriminate|].
  cbn [firstWithKey]. case_bool_decide as He.
  - intros [= <-]. split; [left | assumption].
  - intros H. apply IH in H as [H1 H2]. split; [now right | assumption].
Qed.

Lemma firstWithKey_is_Some (l : list A) (x : A) :
  x ∈ l -> is_Some (firstWithKey key (key x) l).
Proof.
  induction l as [|y r IH]; intros Hx; [inversion Hx|].
  cbn [firstWithKey]. case_bool_decide as He; [now eexists|].
  apply elem_of_cons in Hx as [->|Hx]; [contradiction | now apply IH].
Qed.

Lemma slice0_take (l : list A) (k : Z) : exists m, slice0 l k = take m l.
Proof. unfold slice0. destruct (k <? 0)%Z; eauto. Qed.

Lemma slice0_length (l : list A) (k : Z) :
  (0 <= k)%Z -> (Z.of_nat (length (slice0 l k)) <= k)%Z.
Proof.
  intros Hk. unfold slice0. destruct (Z.ltb_spec k 0); [lia|].
  rewrite length_take. lia.
Qed.

(** Deduplication followed by truncation meets the merge policy. *)
Lemma dedupe_then_slice (l : list A) (k : Z) :
  dedupedFrom key l (slice0 (filterSeen key ∅ l) k).
Proof.
  destruct (slice0_take (filterSeen key ∅ l) k) as [m ->].
  pose proof (filterSeen_NoDup ∅ l) as Hnd.
  repeat split.
  - rewrite fmap_take. eapply sublist_NoDup; [exact Hnd | apply sublist_take].
  - intros x Hx. apply subseteq_take in Hx.
    rewrite <- (filterSeen_first ∅ l (key x)) by set_solver.
    now apply firstWithKey_NoDup.
  - etrans; [apply sublist_take | apply filterSeen_sublist].
Qed.

(** Before truncation every key of the input is represented. *)
Lemma dedupe_complete (l : list A) (x : A) :
  x ∈ l -> exists y, y ∈ filterSeen key ∅ l /\ key y = key x /\
                     firstWithKey key (key x) l = Some y.
Proof.
  intros Hx. destruct (firstWithKey_is_Some l x Hx) as [y Hy].
  exists y. pose proof Hy as Hy'.
  rewrite <- (filterSeen_first ∅ l (key x)) in Hy by set_solver.
  apply firstWithKey_Some in Hy as [H1 H2]. auto.
Qed.

End DedupeFacts.

(** ** Topic and image aggregators *)

Section AggregatorFacts.

Lemma slice0_nil {A} (k : Z) : slice0 (@nil A) k = [].
Proof. unfold slice0. destruct (k <? 0)%Z; apply take_nil. Qed.

Lemma slice0_all {A} (l : list A) : slice0 l (Z.of_nat (length l)) = l.
Proof.
  unfold slice0. destruct (Z.ltb_spec (Z.of_nat (length l)) 0); [lia|].
  rewrite Nat2Z.id. apply firstn_all.
Qed.

Lemma filterSeen_head {A} (key : A -> jsval) (x : A) (l : list A) :
  filterSeen key ∅ (x :: l) = x :: filterSeen key ({[ key x ]} ∪ ∅) l.
Proof. cbn [filterSeen]. now rewrite bool_decide_eq_false_2 by set_solver. Qed.

Lemma trending_returns (env : Topics.Env) (p : Providers)
    (niche country timeframe : jsstring) (g n r t : list Topic) :
  trendingResults env p niche country timeframe g n r t ->
  getTrendingTopicsWith env p niche country timeframe
  = Listed (slice0 (removeDuplicates (g ++ n ++ r ++ t)) 20).
Proof.
  intros (Hg & Hn & Hr & Ht). unfold getTrendingTopicsWith.
  destruct (truthy (GOOGLE_TRENDS_API_KEY env));
    destruct (truthy (NEWS_API_KEY env));
    rewrite ?Hg, ?Hn, Hr, Ht; subst;
    cbn [mbind outcome_bind try_catch]; now rewrite ?app_nil_l, ?app_nil_r, <- ?app_assoc.
Qed.

Lemma search_returns (env : Topics.Env) (p : Providers)
    (keyword niche : jsstring) (limit : Z) (n r : list Topic) :
  searchResults env p keyword niche limit n r ->
  searchTopicsWith env p keyword niche limit
  = slice0 (removeDuplicates (n ++ r)) limit.
Proof.
  intros (Hn & Hr). unfold searchTopicsWith.
  destruct (truthy (NEWS_API_KEY env)); rewrite ?Hn, Hr; subst; reflexivity.
Qed.

Lemma images_return (env : Images.Env) (enc : jsstring -> jsstring)
    (callUnsplash callPexels : Query -> outcome (list Photo)) (q : Query)
    (u x : list Photo) :
  imageResults env callUnsplash callPexels q u x ->
  searchImages env enc callUnsplash callPexels q
  = slice0 (removeDuplicateImages (u ++ x)) (q_perPage q).
Proof.
  intros (Hu & Hx). unfold searchImages.
  destruct (truthy (UNSPLASH_ACCESS_KEY env));
    destruct (truthy (PEXELS_API_KEY env));
    rewrite ?Hu, ?Hx; subst;
    cbn [mbind outcome_bind try_catch]; now rewrite ?app_nil_l, ?app_nil_r.
Qed.

Lemma dedupe_slice_nonempty {A} (key : A -> jsval) (l : list A) (k : Z) :
  l <> [] -> (0 < k)%Z -> slice0 (filterSeen key ∅ l) k <> [].
Proof.
  intros Hl Hk. destruct l as [|x r]; [congruence|].
  rewrite filterSeen_head. unfold slice0.
  destruct (Z.ltb_spec k 0); [lia|].
  destruct (Z.to_nat k) as [|m] eqn:Hm; [lia|]. discriminate.
Qed.

(** With the provider functions of the source, which catch their own
    errors and of which two always answer with one simulated item, the
    trending fan-out never throws and never comes out empty. *)
Lemma source_trending_nonempty
    (topHeadlines : jsstring -> jsstring -> outcome (list NewsItem))
    (everything : jsstring -> Z -> outcome (list NewsItem))
    (env : Topics.Env) (niche country timeframe : jsstring) :
  exists topics,
    getTrendingTopics topHeadlines everything env niche country timeframe
    = Listed topics /\ topics <> [].
Proof.
  assert (exists g n r t,
             trendingResults env (sourceProviders topHeadlines everything)
               niche country timeframe g n r t /\ r <> [])
    as (g & n & r & t & H & Hr).
  { unfold trendingResults.
    destruct (truthy (GOOGLE_TRENDS_API_KEY env));
      destruct (truthy (NEWS_API_KEY env));
      eexists _, _, _, _;
      (split; [repeat split; reflexivity | discriminate]). }
  unfold getTrendingTopics. rewrite (trending_returns _ _ _ _ _ _ _ _ _ H).
  eexists. split; [reflexivity|].
  apply dedupe_slice_nonempty; [|lia].
  intros He. apply (f_equal length) in He. rewrite !length_app in He.
  destruct r; [congruence | cbn in He; lia].
Qed.

End AggregatorFacts.

(** C6, as stated, fails: with a limit of -1 the search operation of
    the source answers with one of its two distinct topics, which is more
    than the limit. *)
Lemma search_limit_counterexample :
  let out := searchTopics headlines newsSearch allKeys (str "ai") (str "technology") (-1) in
  length (searchTopics headlines newsSearch allKeys (str "ai") (str "technology") 10)
  = 2%nat /\
  out = [newsTopic chipsNews] /\
  ~ (Z.of_nat (length out) <= -1)%Z.
Proof.
  intros out. split; [vm_compute; reflexivity|].
  assert (Hout : out = [newsTopic chipsNews]) by (vm_compute; reflexivity).
  split; [exact Hout|]. rewrite Hout. cbn. lia.
Qed.

(** C6, amended: in the output of the aggregator's deduplication no two
    items share a dedupe key (the title for topics, the url for images),
    every item kept is the first of the concatenated input with its key,
    every key of the input is kept, and the order of the input is
    preserved; the same holds after truncation.  When no provider call
    throws, the trending result is the deduplicated concatenation in
    provider order cut to at most 20 items, the search result is cut to at
    most the caller's limit, and the image search to at most its page size,
    for a limit that is not negative. *)
Theorem aggregator_dedupe :
  (forall topics : list Topic,
     dedupedFrom t_title topics (removeDuplicates topics) /\
     (forall x, x ∈ topics ->
        exists y, y ∈ removeDuplicates topics /\ t_title y = t_title x /\
                  firstWithKey t_title (t_title x) topics = Some y)) /\
  (forall images : list Photo,
     dedupedFrom ph_url images (removeDuplicateImages images) /\
     (forall x, x ∈ images ->
        exists y, y ∈ removeDuplicateImages images /\ ph_url y = ph_url x /\
                  firstWithKey ph_url (ph_url x) images = Some y)) /\
  (forall env p niche country timeframe g n r t,
     trendingResults env p niche country timeframe g n r t ->
     exists out,
       getTrendingTopicsWith env p niche country timeframe = Listed out /\
       out = slice0 (removeDuplicates (g ++ n ++ r ++ t)) 20 /\
       dedupedFrom t_title (g ++ n ++ r ++ t) out /\
       (length out <= 20)%nat) /\
  (forall env p keyword niche limit n r,
     searchResults env p keyword niche limit n r ->
     let out := searchTopicsWith env p keyword niche limit in
     out = slice0 (removeDuplicates (n ++ r)) limit /\
     dedupedFrom t_title (n ++ r) out /\
     ((0 <= limit)%Z -> (Z.of_nat (length out) <= limit)%Z)) /\
  (forall env enc callUnsplash callPexels q u x,
     imageResults env callUnsplash callPexels q u x ->
     let out := searchImages env enc callUnsplash callPexels q in
     out = slice0 (removeDuplicateImages (u ++ x)) (q_perPage q) /\
     dedupedFrom ph_url (u ++ x) out /\
     ((0 <= q_perPage q)%Z -> (Z.of_nat (length out) <= q_perPage q)%Z)).
Proof.
  split; [|split; [|split; [|split]]].
  - intros topics. split.
    + rewrite <- (slice0_all (removeDuplicates topics)) at 1.
      apply dedupe_then_slice.
    + apply dedupe_complete.
  - intros images. split.
    + rewrite <- (slice0_all (removeDuplicateImages images)) at 1.
      apply dedupe_then_slice.
    + apply dedupe_complete.
  - intros env p niche country timeframe g n r t H.
    rewrite (trending_returns _ _ _ _ _ _ _ _ _ H).
    eexists. split; [reflexivity|].
    split; [reflexivity|]. split; [apply dedupe_then_slice|].
    pose proof (slice0_length (removeDuplicates (g ++ n ++ r ++ t)) 20). lia.
  - intros env p keyword niche limit n r H out. subst out.
    rewrite (search_returns _ _ _ _ _ _ _ H).
    split; [reflexivity|]. split; [apply dedupe_then_slice | apply slice0_length].
  - intros env enc cu cp q u x H out. subst out.
    rewrite (images_return _ _ _ _ _ _ _ H).
    split; [reflexivity|]. split; [apply dedupe_then_slice | apply slice0_length].
Qed.

Lemma aggregator_dedupe_witness :
  let g := [topicOf "A" "Google Trends"; topicOf "B" "Google Trends"] in
  let n := [topicOf "B" "News API"; topicOf "C" "News API"] in
  let r := [topicOf "A" "Reddit"] in
  let t := [topicOf "D" "Twitter"] in
  let out := [topicOf "A" "Google Trends"; topicOf "B" "Google Trends";
              topicOf "C" "News API"; topicOf "D" "Twitter"] in
  trendingResults allKeys overlappingProviders (str "technology") (str "US") (str "7d") g n r t /\
  getTrendingTopicsWith allKeys overlappingProviders (str "technology") (str "US") (str "7d")
  = Listed out /\
  searchResults allKeys overlappingProviders (str "ai") (str "technology") 1 n [topicOf "B" "Reddit"] /\
  searchTopicsWith allKeys overlappingProviders (str "ai") (str "technology") 1
  = [topicOf "B" "News API"] /\
  dedupedFrom t_title (g ++ n ++ r ++ t) out /\
  exists g' n' r' t' out',
    trendingResults allKeys (sourceProviders headlines newsSearch)
      (str "technology") (str "US") (str "7d") g' n' r' t' /\
    length (g' ++ n' ++ r' ++ t') = 5%nat /\
    getTrendingTopics headlines newsSearch allKeys (str "technology") (str "US") (str "7d")
    = Listed out' /\
    length out' = 4%nat /\
    dedupedFrom t_title (g' ++ n' ++ r' ++ t') out'.
Proof.
  intros g n r t out.
  assert (Hres : trendingResults allKeys overlappingProviders
                   (str "technology") (str "US") (str "7d") g n r t)
    by (repeat split).
  assert (Hs : searchResults allKeys overlappingProviders (str "ai") (str "technology") 1
                 n [topicOf "B" "Reddit"])
    by (repeat split).
  destruct aggregator_dedupe as (_ & _ & Htr & Hse & _).
  destruct (Htr _ _ _ _ _ _ _ _ _ Hres) as (out' & Heq & Hout & Hd & _).
  destruct (Hse _ _ _ _ _ _ _ Hs) as (Heq' & _ & _).
  assert (Ho : out' = out) by (rewrite Hout; vm_compute; reflexivity).
  subst out'.
  split; [exact Hres|]. split; [exact Heq|].
  split; [exact Hs|]. split; [rewrite Heq'; vm_compute; reflexivity|].
  split; [exact Hd|].
  pose (got := fun o : outcome (list Topic) => try_catch o []).
  pose (g' := got (getGoogleTrends (str "technology") (str "US") (str "7d"))).
  pose (n' := got (getNewsTopics headlines (str "technology") (str "US"))).
  pose (r' := got (getRedditTopics (str "technology"))).
  pose (t' := got (getTwitterTopics (str "technology"))).
  assert (Hsrc : trendingResults allKeys (sourceProviders headlines newsSearch)
                   (str "technology") (str "US") (str "7d") g' n' r' t')
    by (repeat split).
  destruct (Htr _ _ _ _ _ _ _ _ _ Hsrc) as (out' & Heq2 & Hout2 & Hd2 & _).
  exists g', n', r', t', out'.
  split; [exact Hsrc|]. split; [reflexivity|]. split; [exact Heq2|].
  split; [|exact Hd2].
  rewrite Hout2. reflexivity.
Defined.

(** ** Prompt builder *)

Section PromptFacts.

(** The six guarded appends of the style block add the lines of the
    truthy fields, in field order. *)
Lemma styleLines_appended (ws : Style) (prompt : jsstring) :
  addLine (str "- Call to action: ") (callToAction ws)
    (addLine (str "- Include quotes: ") (quotes ws)
       (addLine (str "- Include examples: ") (examples ws)
          (addLine (str "- Structure: ") (structure ws)
             (addLine (str "- Complexity: ") (complexity ws)
                (addLine (str "- Voice: ") (voice ws) prompt)))))
  = prompt ++
    concat (map styleLine (List.filter (fun f => truthy f.2) (styleFields ws))).
Proof.
  unfold addLine, styleFields. cbn [List.filter snd].
  destruct (truthy (voice ws)); destruct (truthy (complexity ws));
    destruct (truthy (structure ws)); destruct (truthy (examples ws));
    destruct (truthy (quotes ws)); destruct (truthy (callToAction ws));
    cbn [map concat styleLine fst snd];
    rewrite <- ?app_assoc, ?app_nil_r; reflexivity.
Qed.

End PromptFacts.

(** C8, as stated, fails: a style field that is present with the value
    [false], as [quotes] is in the stored default style, gets no line. *)
Lemma prompt_order_counterexample :
  isPresent (quotes plainStyle) = true /\
  includes (str "- Include quotes: false") (promptInOrder isPresent defaultStyleArgs) = true /\
  includes (str "- Include quotes: ") (buildArticlePrompt defaultStyleArgs) = false /\
  buildArticlePrompt defaultStyleArgs <> promptInOrder isPresent defaultStyleArgs.
Proof. vm_compute. repeat split; discriminate. Qed.

(** C8, amended: the prompt is the concatenation, in this order, of the
    base instruction naming word count, topic and niche, the tone clause
    when the tone is truthy, the "Writing Style" block (when a style object
    is given) with exactly one line for every style field whose value is
    truthy, in the order voice, complexity, structure, examples, quotes,
    callToAction (a field that is absent, empty or [false] gets no line), the
    custom-instructions clause when it is non-empty, and the fixed
    TITLE:/CONTENT: output-format instruction. *)
Theorem prompt_order (a : PromptArgs) :
  buildArticlePrompt a = promptInOrder truthy a /\
  length (promptParts truthy a) = 5%nat.
Proof.
  split; [|reflexivity].
  unfold buildArticlePrompt, promptInOrder, promptParts.
  cbn [concat]. rewrite app_nil_r.
  fold (baseInstruction a). unfold toneClause, customClause, styleBlock.
  destruct (pa_writingStyle a) as [ws|].
  - rewrite styleLines_appended.
    destruct (truthy (pa_tone a)); destruct (truthy (pa_customPrompt a));
      rewrite <- ?app_assoc, ?app_nil_l, ?app_nil_r; reflexivity.
  - destruct (truthy (pa_tone a)); destruct (truthy (pa_customPrompt a));
      rewrite <- ?app_assoc, ?app_nil_l, ?app_nil_r; reflexivity.
Qed.

(** ** Rate limiter *)

Section RateLimitFacts.

Variables windowMs max : Z.

Lemma recent_mono (now now' t : Z) :
  (now <= now')%Z -> recent windowMs now' t = true -> recent windowMs now t = true.
Proof. unfold recent. rewrite !Z.ltb_lt. lia. Qed.

Lemma filter_recent_later (now now' : Z) (l : list Z) :
  (now <= now')%Z ->
  List.filter (recent windowMs now') (List.filter (recent windowMs now) l)
  = List.filter (recent windowMs now') l.
Proof.
  intros Hle. induction l as [|t l IH]; [reflexivity|].
  cbn [List.filter]. destruct (recent windowMs now t) eqn:Hn.
  - cbn [List.filter]. now rewrite IH.
  - destruct (recent windowMs now' t) eqn:Hn'; [|exact IH].
    apply (recent_mono now now' t Hle) in Hn'. congruence.
Qed.

Lemma filter_recent_length (now now' : Z) (l : list Z) :
  (now <= now')%Z ->
  (length (List.filter (recent windowMs now') l)
   <= length (List.filter (recent windowMs now) l))%nat.
Proof.
  intros Hle. rewrite <- (filter_recent_later now now' l Hle).
  induction (List.filter (recent windowMs now) l) as [|t r IH]; [reflexivity|].
  cbn [List.filter]. destruct (recent windowMs now' t); cbn [length]; lia.
Qed.

(** Cleaning removes no timestamp that is recent now or later. *)
Lemma clean_keeps_recent (requests : gmap jsval (list Z)) (ip : jsval) (now now' : Z) :
  (now <= now')%Z ->
  List.filter (recent windowMs now')
    (default [] (Middleware.clean windowMs now requests !! ip))
  = List.filter (recent windowMs now') (default [] (requests !! ip)).
Proof.
  intros Hle. unfold Middleware.clean.
  destruct (filter _ requests !! ip) as [a|] eqn:Hc.
  - apply map_lookup_filter_Some in Hc as [-> _]. reflexivity.
  - apply map_lookup_filter_None in Hc as [-> | Hall]; [reflexivity|].
    destruct (requests !! ip) as [a|]; [|reflexivity].
    specialize (Hall a eq_refl). cbn [snd default] in *.
    apply not_false_is_true in Hall. unfold Middleware.expired in Hall.
    destruct a as [|t [|t' a]]; cbn [Middleware.toNumber] in Hall;
      [reflexivity| |discriminate].
    unfold id. cbn [List.filter]. unfold recent. apply Z.ltb_lt in Hall.
    destruct (Z.ltb_spec (now' - t) windowMs); [lia | reflexivity].
Qed.

(** One request keeps the map in step with the record of admitted
    times, and keeps every window within the bound. *)
Lemma rateLimit_step (requests requests' : gmap jsval (list Z))
    (past : jsval -> list Z) (lo now : Z) (ip : jsval) (v : Middleware.Verdict) :
  tracks windowMs lo requests past ->
  bounded windowMs max lo past ->
  (lo <= now)%Z ->
  Middleware.rateLimit windowMs max requests ip now = (v, requests') ->
  let past' := fun i => past i ++ admittedTimes i [(ip, now)] [v] in
  tracks windowMs now requests' past' /\ bounded windowMs max now past'.
Proof.
  intros Ht Hb Hlo Hr past'. unfold Middleware.rateLimit in Hr.
  pose proof (clean_keeps_recent requests ip now now (Z.le_refl _)) as Hrr.
  rewrite (Ht ip now Hlo) in Hrr.
  destruct (Z.leb_spec max
              (Z.of_nat (length (List.filter
                 (fun timestamp => (now - timestamp <? windowMs)%Z)
                 (default [] (Middleware.clean windowMs now requests !! ip))))))
    as [Hfull|Hroom]; injection Hr as <- <-; subst past'; cbn [admittedTimes].
  - split.
    + intros i now' Hn. rewrite app_nil_r, clean_keeps_recent by assumption.
      apply Ht. lia.
    + intros i now' Hn. rewrite app_nil_r. apply Hb. lia.
  - change (fun timestamp => (now - timestamp <? windowMs)%Z)
      with (recent windowMs now) in *.
    rewrite Hrr in *. split.
    + intros i now' Hn. case_bool_decide as Hi.
      * subst i. rewrite lookup_insert_eq. cbn [default]. unfold id.
        rewrite !List.filter_app, filter_recent_later by assumption. reflexivity.
      * rewrite lookup_insert_ne by congruence.
        rewrite app_nil_r, clean_keeps_recent by assumption. apply Ht. lia.
    + intros i now' Hn. case_bool_decide as Hi.
      * subst i. rewrite List.filter_app, length_app.
        pose proof (filter_recent_length now now' (past ip) Hn).
        assert (length (List.filter (recent windowMs now') [now]) <= 1)%nat
          by (cbn [List.filter]; destruct (recent windowMs now' now); cbn; lia).
        lia.
      * rewrite app_nil_r. apply Hb. lia.
Qed.

Lemma admittedTimes_cons (i ip : jsval) (t : Z) (rest : list (jsval * Z))
    (v : Middleware.Verdict) (vs : list Middleware.Verdict) :
  admittedTimes i ((ip, t) :: rest) (v :: vs)
  = admittedTimes i [(ip, t)] [v] ++ admittedTimes i rest vs.
Proof. cbn [admittedTimes]. destruct v; [case_bool_decide|]; reflexivity. Qed.

Lemma serve_bounded (arrivals : list (jsval * Z)) (requests : gmap jsval (list Z))
    (past : jsval -> list Z) (lo : Z) :
  tracks windowMs lo requests past ->
  bounded windowMs max lo past ->
  StronglySorted Z.le (lo :: arrivals.*2) ->
  forall vs requests',
    Middleware.serve windowMs max requests arrivals = (vs, requests') ->
    length vs = length arrivals /\
    forall ip now, (lo <= now)%Z -> Forall (fun t => (t <= now)%Z) arrivals.*2 ->
      (Z.of_nat (length (List.filter (recent windowMs now)
                           (past ip ++ admittedTimes ip arrivals vs))) <= max)%Z.
Proof.
  revert requests past lo. induction arrivals as [|[i t] rest IH];
    intros requests past lo Ht Hb Hs vs requests' Hserve.
  - injection Hserve as <- <-. split; [reflexivity|].
    intros ip now Hlo _. rewrite app_nil_r. now apply Hb.
  - cbn [Middleware.serve] in Hserve.
    destruct (Middleware.rateLimit windowMs max requests i t) as [v r1] eqn:Hstep.
    destruct (Middleware.serve windowMs max r1 rest) as [vs1 r2] eqn:Hrest.
    injection Hserve as <- <-.
    cbn [fmap list_fmap snd] in Hs. apply StronglySorted_inv in Hs as [Hs Hall].
    apply Forall_cons in Hall as [Hlt Hall].
    destruct (rateLimit_step _ _ _ _ _ _ _ Ht Hb Hlt Hstep) as [Ht' Hb'].
    destruct (IH r1 _ t Ht' Hb' Hs vs1 r2 Hrest) as [Hlen Hbound].
    split; [cbn [length]; now rewrite Hlen|].
    intros ip now Hlo Hnow. cbn [fmap list_fmap snd] in Hnow.
    apply Forall_cons in Hnow as [Htn Hnow].
    rewrite admittedTimes_cons, app_assoc. now apply Hbound.
Qed.

End RateLimitFacts.

(** X1: starting from an empty map and serving requests in the order of
    their arrival times, the limiter hands on at most [max] requests of any
    one IP with arrival times inside any window that ends at or after the
    last arrival. *)
Theorem rateLimit_window (windowMs max : Z) (arrivals : list (jsval * Z))
    (ip : jsval) (now : Z) :
  (0 <= max)%Z ->
  StronglySorted Z.le arrivals.*2 ->
  Forall (fun t => (t <= now)%Z) arrivals.*2 ->
  (Z.of_nat (length (List.filter (recent windowMs now)
      (admittedTimes ip arrivals (Middleware.serve windowMs max ∅ arrivals).1)))
   <= max)%Z.
Proof.
  intros Hmax Hs Hnow.
  destruct (Middleware.serve windowMs max ∅ arrivals) as [vs r] eqn:Hserve.
  cbn [fst].
  destruct arrivals as [|[i t] rest].
  - injection Hserve as <- <-. cbn. lia.
  - assert (Hlo : StronglySorted Z.le (t :: ((i, t) :: rest).*2)).
    { constructor; [exact Hs|]. cbn [fmap list_fmap snd] in *.
      apply StronglySorted_inv in Hs as [_ Hall].
      constructor; [lia | exact Hall]. }
    destruct (serve_bounded windowMs max ((i, t) :: rest) ∅ (fun _ => []) t) with
      (vs := vs) (requests' := r) as [_ Hb]; try assumption.
    + intros j n _. now rewrite lookup_empty.
    + intros j n _. cbn. lia.
    + apply (Hb ip now); [|exact Hnow].
      cbn [fmap list_fmap snd] in Hnow. now apply Forall_cons in Hnow as [? _].
Qed.

Lemma rateLimit_window_witness :
  (Middleware.serve 1000 2 ∅ burst).1
  = [Middleware.Next; Middleware.Next; Middleware.Next;
     Middleware.TooMany 1; Middleware.Next] /\
  (Z.of_nat (length (List.filter (recent 1000 2100)
      (admittedTimes (JStr (str "10.0.0.1")) burst
         (Middleware.serve 1000 2 ∅ burst).1))) <= 2)%Z.
Proof.
  split; [vm_compute; reflexivity|].
  apply (rateLimit_window 1000 2 burst (JStr (str "10.0.0.1")) 2100); [lia | |].
  - unfold burst. cbn [fmap list_fmap snd].
    repeat (constructor; [|repeat constructor; lia]). constructor.
  - unfold burst. cbn [fmap list_fmap snd]. repeat constructor; lia.
Defined.

(** X2: the clean-up loop of the limiter never removes an entry that
    holds two or more timestamps, however old they are: such an array
    converts to NaN and the age test is false. *)
Theorem clean_keeps_long_entries (windowMs now : Z)
    (requests : gmap jsval (list Z)) (ip : jsval) (timestamps : list Z) :
  requests !! ip = Some timestamps ->
  (2 <= length timestamps)%nat ->
  Middleware.clean windowMs now requests !! ip = Some timestamps.
Proof.
  intros Hl Hlen. unfold Middleware.clean.
  apply map_lookup_filter_Some. split; [exact Hl|].
  destruct timestamps as [|t [|t' r]]; cbn in Hlen; try lia. reflexivity.
Qed.

Lemma clean_keeps_long_entries_witness :
  Middleware.clean 1000 999999 {[ JStr (str "10.0.0.1") := [1%Z; 2%Z] ]}
    !! JStr (str "10.0.0.1") = Some [1%Z; 2%Z] /\
  Middleware.clean 1000 999999 {[ JStr (str "10.0.0.1") := [1%Z] ]}
    !! JStr (str "10.0.0.1") = None.
Proof.
  split.
  - apply (clean_keeps_long_entries 1000 999999 _ _ [1%Z; 2%Z]); [reflexivity | cbn; lia].
  - vm_compute. reflexivity.
Defined.

Section RateLimitExact.

Variables windowMs max : Z.

Lemma serve_tracks (arrivals : list (jsval * Z)) (requests : gmap jsval (list Z))
    (past : jsval -> list Z) (lo : Z) :
  tracks windowMs lo requests past ->
  bounded windowMs max lo past ->
  StronglySorted Z.le (lo :: arrivals.*2) ->
  forall vs requests',
    Middleware.serve windowMs max requests arrivals = (vs, requests') ->
    forall ip now, (lo <= now)%Z -> Forall (fun t => (t <= now)%Z) arrivals.*2 ->
      List.filter (recent windowMs now) (default [] (requests' !! ip))
      = List.filter (recent windowMs now) (past ip ++ admittedTimes ip arrivals vs).
Proof.
  revert requests past lo. induction arrivals as [|[i t] rest IH];
    intros requests past lo Ht Hb Hs vs requests' Hserve ip now Hlo Hnow.
  - injection Hserve as <- <-. rewrite app_nil_r. now apply Ht.
  - cbn [Middleware.serve] in Hserve.
    destruct (Middleware.rateLimit windowMs max requests i t) as [v r1] eqn:Hstep.
    destruct (Middleware.serve windowMs max r1 rest) as [vs1 r2] eqn:Hrest.
    injection Hserve as <- <-.
    cbn [fmap list_fmap snd] in Hs, Hnow.
    apply StronglySorted_inv in Hs as [Hs Hall].
    apply Forall_cons in Hall as [Hlt Hall].
    apply Forall_cons in Hnow as [Htn Hnow].
    destruct (rateLimit_step _ _ _ _ _ _ _ _ _ Ht Hb Hlt Hstep) as [Ht' Hb'].
    rewrite admittedTimes_cons, app_assoc.
    now apply (IH r1 _ t Ht' Hb' Hs vs1 r2 Hrest).
Qed.

End RateLimitExact.

(** X3: after any history served in the order of arrival from an empty
    map, the limiter rejects the next request with 429 exactly when [max] or
    more requests of the same IP were handed on inside the window that ends
    now; otherwise it hands the request on. *)
Theorem rateLimit_verdict (windowMs max : Z) (arrivals : list (jsval * Z))
    (ip : jsval) (now : Z) :
  (0 <= max)%Z ->
  StronglySorted Z.le arrivals.*2 ->
  Forall (fun t => (t <= now)%Z) arrivals.*2 ->
  let '(vs, requests) := Middleware.serve windowMs max ∅ arrivals in
  let inWindow := List.filter (recent windowMs now) (admittedTimes ip arrivals vs) in
  (Middleware.rateLimit windowMs max requests ip now).1
  = if (max <=? Z.of_nat (length inWindow))%Z
    then Middleware.TooMany (Middleware.ceilDiv windowMs 1000)
    else Middleware.Next.
Proof.
  intros Hmax Hs Hnow.
  destruct (Middleware.serve windowMs max ∅ arrivals) as [vs r] eqn:Hserve.
  assert (Hf : List.filter (recent windowMs now) (default [] (r !! ip))
               = List.filter (recent windowMs now) (admittedTimes ip arrivals vs)).
  { destruct arrivals as [|[i t] rest].
    - injection Hserve as <- <-. now rewrite lookup_empty.
    - assert (Hlo : StronglySorted Z.le (t :: ((i, t) :: rest).*2)).
      { constructor; [exact Hs|]. cbn [fmap list_fmap snd] in *.
        apply StronglySorted_inv in Hs as [_ Hall].
        constructor; [lia | exact Hall]. }
      apply (serve_tracks windowMs max ((i, t) :: rest) ∅ (fun _ => []) t)
        with (requests' := r); try assumption.
      + intros j n _. now rewrite lookup_empty.
      + intros j n _. cbn. lia.
      + cbn [fmap list_fmap snd] in Hnow. now apply Forall_cons in Hnow as [? _]. }
  unfold Middleware.rateLimit.
  pose proof (clean_keeps_recent windowMs r ip now now (Z.le_refl _)) as Hc.
  rewrite Hf in Hc.
  change (fun timestamp => (now - timestamp <? windowMs)%Z) with (recent windowMs now).
  rewrite Hc. now destruct (max <=? _)%Z.
Qed.

Lemma rateLimit_verdict_witness :
  (Middleware.rateLimit 1000 2 (Middleware.serve 1000 2 ∅ burst).2
     (JStr (str "10.0.0.1")) 2200).1 = Middleware.TooMany 1 /\
  (Middleware.rateLimit 1000 2 (Middleware.serve 1000 2 ∅ burst).2
     (JStr (str "10.0.0.1")) 2600).1 = Middleware.Next.
Proof.
  assert (Hs : StronglySorted Z.le burst.*2).
  { unfold burst. cbn [fmap list_fmap snd].
    repeat (constructor; [|repeat constructor; lia]). constructor. }
  pose proof (rateLimit_verdict 1000 2 burst (JStr (str "10.0.0.1")) 2200
                ltac:(lia) Hs
                ltac:(unfold burst; cbn [fmap list_fmap snd]; repeat constructor; lia))
    as H1.
  pose proof (rateLimit_verdict 1000 2 burst (JStr (str "10.0.0.1")) 2600
                ltac:(lia) Hs
                ltac:(unfold burst; cbn [fmap list_fmap snd]; repeat constructor; lia))
    as H2.
  destruct (Middleware.serve 1000 2 ∅ burst) as [vs r] eqn:Hserve.
  assert (Hvs : vs = (Middleware.serve 1000 2 ∅ burst).1) by now rewrite Hserve.
  cbn [snd]. split.
  - rewrite H1, Hvs. vm_compute. reflexivity.
  - rewrite H2, Hvs. vm_compute. reflexivity.
Defined.

(** ** Guards *)

Section GuardFacts.

Variable verify : jsstring -> Middleware.Verified.
Variable findById : N -> outcome (option Middleware.Account).

Lemma replace_absent (pat rep s : jsstring) :
  includes pat s = false -> replace pat rep s = s.
Proof.
  induction s as [|c r IH]; cbn [includes replace]; intros H.
  - apply orb_false_iff in H as [-> _]. reflexivity.
  - apply orb_false_iff in H as [-> Hr]. now rewrite IH.
Qed.

Lemma startsWith_app (p s : jsstring) : startsWith p (p ++ s) = true.
Proof. induction p as [|a p IH]; [reflexivity|]. cbn. now rewrite N.eqb_refl. Qed.

Lemma tokenOf_bearer (token : jsstring) :
  Middleware.tokenOf (Some (Middleware.Bearer_ ++ token)) = Some token.
Proof.
  unfold Middleware.tokenOf. cbn [fmap option_fmap option_map]. f_equal.
Qed.

Lemma tokenOf_bare (token : jsstring) :
  includes Middleware.Bearer_ token = false ->
  Middleware.tokenOf (Some token) = Some token.
Proof.
  intros H. unfold Middleware.tokenOf. cbn [fmap option_fmap option_map].
  now rewrite replace_absent.
Qed.

End GuardFacts.

(** X4: [auth] hands a request on only with a user attached, and only
    when the header yields a non-empty token that verifies to the id of an
    existing, active user; every refusal is a 401 or a 500, never anything
    else. *)
Theorem auth_admits_only_verified
    (verify : jsstring -> Middleware.Verified)
    (findById : N -> outcome (option Middleware.Account))
    (header : option jsstring) :
  (forall u, Middleware.auth verify findById header = Middleware.Pass u ->
     exists token id user,
       Middleware.tokenOf header = Some token /\ token <> [] /\
       verify token = Middleware.Decoded id /\
       findById id = Returns (Some user) /\
       truthy (Middleware.ac_isActive user) = true /\
       u = Some user) /\
  (forall code error,
     Middleware.auth verify findById header = Middleware.Deny code error ->
     code = 401%N \/ code = 500%N).
Proof.
  unfold Middleware.auth.
  destruct (Middleware.tokenOf header) as [[|c token]|] eqn:Ht; cbn [Middleware.noToken].
  1, 3: split; [discriminate | intros ? ? [= <- _]; now left].
  cbn [default]. unfold id.
  destruct (verify (c :: token)) as [id|name] eqn:Hv.
  - destruct (findById id) as [[user|]|] eqn:Hf.
    + destruct (truthy (Middleware.ac_isActive user)) eqn:Ha; cbn [negb].
      * split; [|discriminate]. intros u [= <-].
        exists (c :: token), id, user. repeat split; try assumption. discriminate.
      * split; [discriminate | intros ? ? [= <- _]; now left].
    + split; [discriminate | intros ? ? [= <- _]; now left].
    + split; [discriminate | intros ? ? [= <- _]; now right].
  - split.
    + intros u. repeat case_match; discriminate.
    + intros code error. repeat case_match; intros [= <- _]; auto.
Qed.

Lemma auth_admits_only_verified_witness :
  Middleware.auth sampleVerify sampleFind (Some (str "Bearer tok"))
  = Middleware.Pass (Some sampleAccount) /\
  Middleware.auth sampleVerify sampleFind (Some (str "Bearer old"))
  = Middleware.Deny 401 (str "Token has expired") /\
  Middleware.auth sampleVerify sampleFind (Some (str "Bearer "))
  = Middleware.Deny 401 (str "No token, authorization denied") /\
  exists token id user,
    Middleware.tokenOf (Some (str "Bearer tok")) = Some token /\ token <> [] /\
    sampleVerify token = Middleware.Decoded id /\
    sampleFind id = Returns (Some user) /\
    truthy (Middleware.ac_isActive user) = true /\
    Some sampleAccount = Some user.
Proof.
  assert (H : Middleware.auth sampleVerify sampleFind (Some (str "Bearer tok"))
              = Middleware.Pass (Some sampleAccount)) by (vm_compute; reflexivity).
  split; [exact H|]. split; [vm_compute; reflexivity|].
  split; [vm_compute; reflexivity|].
  exact (proj1 (auth_admits_only_verified sampleVerify sampleFind
                  (Some (str "Bearer tok"))) _ H).
Defined.

(** X5: [optionalAuth] always hands the request on, and attaches a user
    exactly when [auth] would have admitted the same request, the same
    user. *)
Theorem optionalAuth_follows_auth
    (verify : jsstring -> Middleware.Verified)
    (findById : N -> outcome (option Middleware.Account))
    (header : option jsstring) :
  Middleware.optionalAuth verify findById header
  = Middleware.Pass
      match Middleware.auth verify findById header with
      | Middleware.Pass u => u
      | Middleware.Deny _ _ => None
      end.
Proof.
  unfold Middleware.optionalAuth, Middleware.auth.
  destruct (Middleware.noToken (Middleware.tokenOf header)); [reflexivity|].
  destruct (verify _) as [id|name].
  - destruct (findById id) as [[user|]|]; try reflexivity.
    now destruct (truthy (Middleware.ac_isActive user)).
  - destruct (eqb name (str "JsonWebTokenError")); [reflexivity|].
    now destruct (eqb name (str "TokenExpiredError")).
Qed.

(** X6: [adminAuth] admits a request only if [auth] admits it with the
    same user and that user's [isAdmin] is truthy; a token that fails
    verification, for which [auth] answers 401 when it is malformed or
    expired, is answered with 500. *)
Theorem adminAuth_within_auth
    (verify : jsstring -> Middleware.Verified)
    (findById : N -> outcome (option Middleware.Account))
    (header : option jsstring) :
  (forall u, Middleware.adminAuth verify findById header = Middleware.Pass u ->
     Middleware.auth verify findById header = Middleware.Pass u /\
     exists user, u = Some user /\ truthy (Middleware.ac_isAdmin user) = true) /\
  (forall token name,
     Middleware.tokenOf header = Some token -> token <> [] ->
     verify token = Middleware.Invalid name ->
     Middleware.adminAuth verify findById header
     = Middleware.Deny 500 (str "Server error")).
Proof.
  unfold Middleware.adminAuth, Middleware.auth. split.
  - intros u.
    destruct (Middleware.noToken (Middleware.tokenOf header)); [discriminate|].
    destruct (verify _) as [id|name]; [|discriminate].
    destruct (findById id) as [[user|]|]; try discriminate.
    destruct (truthy (Middleware.ac_isActive user)); cbn [negb]; [|discriminate].
    destruct (truthy (Middleware.ac_isAdmin user)) eqn:Hadm; cbn [negb]; [|discriminate].
    intros [= <-]. split; [reflexivity|]. now exists user.
  - intros token name -> Hne Hv. destruct token as [|c token]; [congruence|].
    cbn [Middleware.noToken default]. unfold id. now rewrite Hv.
Qed.

Lemma adminAuth_within_auth_witness :
  Middleware.adminAuth sampleVerify sampleFind (Some (str "Bearer tok"))
  = Middleware.Deny 403 (str "Access denied. Admin privileges required.") /\
  Middleware.auth sampleVerify sampleFind (Some (str "Bearer old"))
  = Middleware.Deny 401 (str "Token has expired") /\
  Middleware.adminAuth sampleVerify sampleFind (Some (str "Bearer old"))
  = Middleware.Deny 500 (str "Server error").
Proof.
  split; [vm_compute; reflexivity|]. split; [vm_compute; reflexivity|].
  apply (proj2 (adminAuth_within_auth sampleVerify sampleFind (Some (str "Bearer old")))
           (str "old") (str "TokenExpiredError")).
  - vm_compute. reflexivity.
  - vm_compute. discriminate.
  - vm_compute. reflexivity.
Defined.

(** X7: the guards read the token by removing the first occurrence of
    "Bearer " from the Authorization header, so a header that carries the
    bare token, without the scheme, is treated exactly like the same token
    sent as a Bearer token. *)
Theorem auth_accepts_bare_token
    (verify : jsstring -> Middleware.Verified)
    (findById : N -> outcome (option Middleware.Account))
    (token : jsstring) :
  includes Middleware.Bearer_ token = false ->
  Middleware.auth verify findById (Some token)
  = Middleware.auth verify findById (Some (Middleware.Bearer_ ++ token)).
Proof.
  intros H. unfold Middleware.auth.
  now rewrite tokenOf_bearer, tokenOf_bare.
Qed.

Lemma auth_accepts_bare_token_witness :
  includes Middleware.Bearer_ (str "tok") = false /\
  Middleware.auth sampleVerify sampleFind (Some (str "tok"))
  = Middleware.Pass (Some sampleAccount).
Proof.
  split; [reflexivity|].
  rewrite (auth_accepts_bare_token sampleVerify sampleFind (str "tok") eq_refl).
  vm_compute. reflexivity.
Defined.

(** ** Shuffle, random and trending images *)

Section GalleryFacts.

Lemma swap_Permutation {A} (i j : nat) (a : list A) : Gallery.swap i j a ≡ₚ a.
Proof.
  unfold Gallery.swap. destruct (a !! i) as [x|] eqn:Hi; [|reflexivity].
  destruct (a !! j) as [y|] eqn:Hj; [|reflexivity].
  now apply Permutation_insert_swap.
Qed.

Lemma shuffleFrom_Permutation {A} (pick : nat -> nat) (i : nat) (a : list A) :
  Gallery.shuffleFrom pick i a ≡ₚ a.
Proof.
  revert a. induction i as [|i IH]; intros a; [reflexivity|].
  cbn [Gallery.shuffleFrom]. rewrite IH. apply swap_Permutation.
Qed.

(** Inside the array the swap exchanges the two elements. *)
Lemma swap_lookup {A} (i j : nat) (a : list A) (x y : A) :
  a !! i = Some x -> a !! j = Some y ->
  Gallery.swap i j a !! i = Some y /\ Gallery.swap i j a !! j = Some x.
Proof.
  intros Hi Hj. unfold Gallery.swap. rewrite Hi, Hj.
  pose proof (lookup_lt_Some _ _ _ Hi). pose proof (lookup_lt_Some _ _ _ Hj).
  destruct (decide (i = j)) as [->|Hne].
  - assert (x = y) as -> by congruence.
    rewrite list_lookup_insert_eq by (rewrite length_insert; lia). auto.
  - rewrite list_lookup_insert_ne by congruence.
    rewrite list_lookup_insert_eq by lia.
    rewrite list_lookup_insert_eq by (rewrite length_insert; lia). auto.
Qed.

(** The urls of a search result are pairwise distinct, whether it is the
    deduplicated merge or the pair of placeholders. *)
Lemma search_NoDup (env : Images.Env) (enc : jsstring -> jsstring)
    (cu cp : Query -> outcome (list Photo)) (q : Query) :
  NoDup (ph_url <$> searchImages env enc cu cp q).
Proof.
  assert (Hfb : NoDup (ph_url <$> getFallbackImages enc (q_query q))).
  { cbn. apply NoDup_cons. split; [|apply NoDup_singleton].
    intros Hin. apply list_elem_of_singleton in Hin. discriminate Hin. }
  assert (Hd : forall l, NoDup (ph_url <$> slice0 (removeDuplicateImages l) (q_perPage q))).
  { intros l. apply (dedupe_then_slice ph_url l (q_perPage q)). }
  unfold searchImages.
  destruct (truthy (UNSPLASH_ACCESS_KEY env)); [destruct (cu q)|];
    cbn [mbind outcome_bind try_catch]; try exact Hfb;
    (destruct (truthy (PEXELS_API_KEY env)); [destruct (cp q)|]);
    cbn [mbind outcome_bind try_catch]; first [exact Hfb | apply Hd].
Qed.

End GalleryFacts.

(** X8: [shuffleArray] returns a rearrangement of its input: the same
    elements with the same multiplicities, whatever the random draws are;
    every step exchanges the element at the loop index with the drawn one. *)
Theorem shuffleArray_permutation {A} (pick : nat -> nat) (array : list A) :
  (forall i, (pick i <= i)%nat) ->
  Gallery.shuffleArray pick array ≡ₚ array /\
  length (Gallery.shuffleArray pick array) = length array /\
  (forall i, (i < length array)%nat ->
     exists x y,
       array !! i = Some x /\ array !! pick i = Some y /\
       Gallery.swap i (pick i) array !! i = Some y /\
       Gallery.swap i (pick i) array !! pick i = Some x).
Proof.
  intros Hpick. unfold Gallery.shuffleArray.
  pose proof (shuffleFrom_Permutation pick (length array - 1) array) as Hp.
  split; [exact Hp|]. split; [now rewrite Hp|].
  intros i Hi.
  destruct (lookup_lt_is_Some_2 array i Hi) as [x Hx].
  destruct (lookup_lt_is_Some_2 array (pick i)) as [y Hy];
    [pose proof (Hpick i); lia|].
  exists x, y. split; [exact Hx|]. split; [exact Hy|]. now apply swap_lookup.
Qed.

Lemma shuffleArray_permutation_witness :
  Gallery.shuffleArray (fun i => (i - 1)%nat) [1%Z; 2%Z; 3%Z; 4%Z] = [4%Z; 1%Z; 2%Z; 3%Z] /\
  Gallery.shuffleArray (fun i => (i - 1)%nat) [1%Z; 2%Z; 3%Z; 4%Z] ≡ₚ [1%Z; 2%Z; 3%Z; 4%Z].
Proof.
  split; [reflexivity|].
  apply (shuffleArray_permutation (fun i => (i - 1)%nat) [1%Z; 2%Z; 3%Z; 4%Z]).
  intros i. lia.
Defined.

(** X9: the image search never returns the same url twice, on any path:
    neither in the deduplicated merge nor in the placeholder pair; the
    random-image operation returns images of one search result, each url at
    most once, and at most [count] of them. *)
Theorem random_images_distinct
    (env : Images.Env) (enc : jsstring -> jsstring)
    (cu cp : Query -> outcome (list Photo)) (q : Query)
    (page : Z) (pick : nat -> nat) (topic : jsstring) (count : Z) :
  (0 <= count)%Z ->
  let found := Gallery.search env enc cu cp
                 {| q_query := topic; q_page := page; q_perPage := (count * 2)%Z;
                    q_orientation := JStr (str "landscape"); q_color := JUndefined |} in
  let out := Gallery.getRandomImages env enc cu cp page pick topic count in
  NoDup (ph_url <$> searchImages env enc cu cp q) /\
  NoDup (ph_url <$> out) /\
  out ⊆ found /\
  (Z.of_nat (length out) <= count)%Z.
Proof.
  intros Hc found out. split; [apply search_NoDup|].
  subst out. unfold Gallery.getRandomImages. fold found.
  destruct (slice0_take (Gallery.shuffleArray pick found) count) as [m Hm].
  pose proof (shuffleFrom_Permutation pick (length found - 1) found) as Hp.
  fold (Gallery.shuffleArray pick found) in Hp.
  split; [|split].
  - rewrite Hm, fmap_take. eapply sublist_NoDup; [|apply sublist_take].
    rewrite Hp. apply search_NoDup.
  - rewrite Hm. intros x Hx. apply subseteq_take in Hx. now rewrite Hp in Hx.
  - now apply slice0_length.
Qed.

Lemma random_images_distinct_witness :
  Gallery.getRandomImages bothKeys (fun s => s) unsplashAnswer pexelsAnswer
    3 (fun _ => 0%nat) (str "cats") 2
  = [photoAt "b"; photoAt "c"] /\
  NoDup (ph_url <$> Gallery.getRandomImages bothKeys (fun s => s)
                      unsplashAnswer pexelsAnswer 3 (fun _ => 0%nat) (str "cats") 2).
Proof.
  split; [vm_compute; reflexivity|].
  apply (random_images_distinct bothKeys (fun s => s) unsplashAnswer pexelsAnswer
           {| q_query := str "cats"; q_page := 3; q_perPage := 4;
              q_orientation := JNull; q_color := JNull |}
           3 (fun _ => 0%nat) (str "cats") 2).
  lia.
Defined.

(** ** Relevance order of the topic results *)

Section RelevanceFacts.

Lemma byRelevance_trans (a b c : Topic) :
  byRelevance a b -> byRelevance b c -> byRelevance a c.
Proof. unfold byRelevance. intros H1 H2. now apply (Qle_trans _ (t_relevance b)). Qed.

Lemma StronglySorted_sublist {A} (R : A -> A -> Prop) (l1 l2 : list A) :
  l1 `sublist_of` l2 -> StronglySorted R l2 -> StronglySorted R l1.
Proof.
  induction 1 as [|x l1 l2 Hs IH|x l1 l2 Hs IH]; intros Hsorted.
  - constructor.
  - apply StronglySorted_inv in Hsorted as [Hl Hx]. constructor; [now apply IH|].
    apply Forall_forall. intros y Hy. rewrite Forall_forall in Hx. apply Hx.
    eapply elem_of_sublist; eassumption.
  - apply StronglySorted_inv in Hsorted as [Hl _]. now apply IH.
Qed.

Lemma block_below (q q' : Q) (l : list Topic) :
  (q <= q')%Q ->
  Forall (fun x => t_relevance x = q) l ->
  Forall (fun x => (t_relevance x <= q')%Q) l.
Proof.
  intros Hq Hl. eapply Forall_impl; [exact Hl|]. intros x Hx. cbn beta.
  now rewrite Hx.
Qed.

Lemma block_app (q : Q) (l1 l2 : list Topic) :
  Forall (fun x => t_relevance x = q) l1 ->
  Forall (fun y => (t_relevance y <= q)%Q) l2 ->
  StronglySorted byRelevance l2 ->
  StronglySorted byRelevance (l1 ++ l2).
Proof.
  intros H1 H2 Hs. induction H1 as [|x l1 Hx H1 IH]; [exact Hs|].
  cbn [app]. constructor; [exact IH|]. apply Forall_app. split.
  - eapply Forall_impl; [exact H1|]. intros y Hy. unfold byRelevance.
    rewrite Hx, Hy. apply Qle_refl.
  - eapply Forall_impl; [exact H2|]. intros y Hy. unfold byRelevance.
    now rewrite Hx.
Qed.

(** A list whose relevances fall from one constant block to the next. *)
Lemma blocks_sorted (g n r t : list Topic) :
  Forall (fun x => t_relevance x = (9 # 10)%Q) g ->
  Forall (fun x => t_relevance x = (8 # 10)%Q) n ->
  Forall (fun x => t_relevance x = (7 # 10)%Q) r ->
  Forall (fun x => t_relevance x = (6 # 10)%Q) t ->
  StronglySorted byRelevance (g ++ n ++ r ++ t) /\
  Forall scored (g ++ n ++ r ++ t).
Proof.
  intros Hg Hn Hr Ht. split.
  - apply (block_app _ _ _ Hg).
    { rewrite !Forall_app. repeat split; eapply block_below; try eassumption;
        unfold Qle; cbn; lia. }
    apply (block_app _ _ _ Hn).
    { rewrite !Forall_app. repeat split; eapply block_below; try eassumption;
        unfold Qle; cbn; lia. }
    apply (block_app _ _ _ Hr).
    { eapply block_below; try eassumption. unfold Qle; cbn; lia. }
    rewrite <- (app_nil_r t). apply (block_app _ _ _ Ht); constructor.
  - rewrite !Forall_app. repeat split;
      (eapply Forall_impl; [eassumption|]); intros x Hx; unfold scored;
      rewrite Hx; unfold Qle; cbn; lia.
Qed.

Lemma source_trending_results
    (topHeadlines : jsstring -> jsstring -> outcome (list NewsItem))
    (everything : jsstring -> Z -> outcome (list NewsItem))
    (env : Topics.Env) (niche country timeframe : jsstring) :
  exists g n r t,
    trendingResults env (sourceProviders topHeadlines everything)
      niche country timeframe g n r t /\
    Forall (fun x => t_relevance x = (9 # 10)%Q) g /\
    Forall (fun x => t_relevance x = (8 # 10)%Q) n /\
    Forall (fun x => t_relevance x = (7 # 10)%Q) r /\
    Forall (fun x => t_relevance x = (6 # 10)%Q) t.
Proof.
  assert (Hnews : forall items, Forall (fun x => t_relevance x = (8 # 10)%Q)
                                  (map newsTopic items)).
  { intros items. apply Forall_forall. intros x Hx.
    apply list_elem_of_fmap in Hx as (y & -> & _). reflexivity. }
  unfold trendingResults.
  destruct (truthy (GOOGLE_TRENDS_API_KEY env));
    destruct (truthy (NEWS_API_KEY env));
    eexists _, _, _, _;
    (split; [repeat split; reflexivity|]);
    repeat split; repeat constructor;
    cbn [callNewsTopics sourceProviders]; unfold getNewsTopics;
    try (destruct (topHeadlines country niche); cbn [mbind outcome_bind try_catch];
         [apply Hnews | constructor]).
Qed.

Lemma source_search_results
    (topHeadlines : jsstring -> jsstring -> outcome (list NewsItem))
    (everything : jsstring -> Z -> outcome (list NewsItem))
    (env : Topics.Env) (keyword niche : jsstring) (limit : Z) :
  exists n r,
    searchResults env (sourceProviders topHeadlines everything) keyword niche limit n r /\
    Forall (fun x => t_relevance x = (8 # 10)%Q) n /\
    Forall (fun x => t_relevance x = (7 # 10)%Q) r.
Proof.
  assert (Hnews : forall items, Forall (fun x => t_relevance x = (8 # 10)%Q)
                                  (map newsTopic items)).
  { intros items. apply Forall_forall. intros x Hx.
    apply list_elem_of_fmap in Hx as (y & -> & _). reflexivity. }
  unfold searchResults.
  destruct (truthy (NEWS_API_KEY env));
    eexists _, _;
    (split; [repeat split; reflexivity|]);
    repeat split; repeat constructor;
    cbn [callSearchNewsTopics sourceProviders]; unfold searchNewsTopics;
    try (destruct (everything _ limit); cbn [mbind outcome_bind try_catch];
         [apply Hnews | constructor]).
Qed.

End RelevanceFacts.

(** X10: with the provider functions of the source, the trending
    operation answers with a list of topics, and the topics returned by it
    and by the search operation stand in order of falling relevance,
    although no sort is ever called: the providers are queried in the order
    of their fixed scores, and deduplication and truncation keep the order.
    Every score lies between 0 and 1. *)
Theorem source_topics_sorted
    (topHeadlines : jsstring -> jsstring -> outcome (list NewsItem))
    (everything : jsstring -> Z -> outcome (list NewsItem))
    (env : Topics.Env) (niche country timeframe keyword : jsstring) (limit : Z) :
  (exists topics,
     getTrendingTopics topHeadlines everything env niche country timeframe
     = Listed topics /\
     StronglySorted byRelevance topics /\ Forall scored topics) /\
  StronglySorted byRelevance
    (searchTopics topHeadlines everything env keyword niche limit) /\
  Forall scored (searchTopics topHeadlines everything env keyword niche limit).
Proof.
  destruct (source_trending_results topHeadlines everything env niche country timeframe)
    as (g & n & r & t & Hres & Hg & Hn & Hr & Ht).
  destruct (source_search_results topHeadlines everything env keyword niche limit)
    as (n' & r' & Hres' & Hn' & Hr').
  destruct (blocks_sorted g n r t Hg Hn Hr Ht) as [Hs Hsc].
  destruct (blocks_sorted [] n' r' [] ltac:(constructor) Hn' Hr' ltac:(constructor))
    as [Hs' Hsc'].
  rewrite app_nil_l, app_nil_r in Hs', Hsc'.
  unfold getTrendingTopics, searchTopics.
  rewrite (trending_returns _ _ _ _ _ _ _ _ _ Hres), (search_returns _ _ _ _ _ _ _ Hres').
  pose proof (dedupe_then_slice t_title (g ++ n ++ r ++ t) 20) as (_ & _ & Hsub).
  pose proof (dedupe_then_slice t_title (n' ++ r') limit) as (_ & _ & Hsub').
  fold (removeDuplicates (g ++ n ++ r ++ t)) in Hsub.
  fold (removeDuplicates (n' ++ r')) in Hsub'.
  split; [eexists; split; [reflexivity|]; split|split].
  - eapply StronglySorted_sublist; eassumption.
  - apply Forall_forall. intros x Hx. rewrite Forall_forall in Hsc. apply Hsc.
    eapply elem_of_sublist; eassumption.
  - eapply StronglySorted_sublist; eassumption.
  - apply Forall_forall. intros x Hx. rewrite Forall_forall in Hsc'. apply Hsc'.
    eapply elem_of_sublist; eassumption.
Qed.

Section SourceFacts.

Lemma source_trending_tagged
    (topHeadlines : jsstring -> jsstring -> outcome (list NewsItem))
    (everything : jsstring -> Z -> outcome (list NewsItem))
    (env : Topics.Env) (niche country timeframe : jsstring) :
  exists g n r t,
    trendingResults env (sourceProviders topHeadlines everything)
      niche country timeframe g n r t /\
    Forall (fun x => t_source x <> str "Fallback") (g ++ n ++ r ++ t).
Proof.
  assert (Hnews : forall items, Forall (fun x => t_source x <> str "Fallback")
                                  (map newsTopic items)).
  { intros items. apply Forall_forall. intros x Hx.
    apply list_elem_of_fmap in Hx as (y & -> & _). discriminate. }
  unfold trendingResults.
  destruct (truthy (GOOGLE_TRENDS_API_KEY env));
    destruct (truthy (NEWS_API_KEY env));
    eexists _, _, _, _;
    (split; [repeat split; reflexivity|]);
    rewrite !Forall_app; repeat split; repeat constructor; try discriminate;
    cbn [callNewsTopics sourceProviders]; unfold getNewsTopics;
    try (destruct (topHeadlines country niche); cbn [mbind outcome_bind try_catch];
         [apply Hnews | constructor]).
Qed.

End SourceFacts.

(** X11: with the provider functions of the source, which catch their
    own errors and of which the Reddit and Twitter ones always answer with
    one simulated item, the trending operation answers with a list of topics
    that is never empty and never holds a topic of the static fallback list,
    and the search operation with a positive limit never comes out empty
    either. *)
Theorem source_aggregators_never_fall_back
    (topHeadlines : jsstring -> jsstring -> outcome (list NewsItem))
    (everything : jsstring -> Z -> outcome (list NewsItem))
    (env : Topics.Env) (niche country timeframe keyword : jsstring) (limit : Z) :
  (exists topics,
     getTrendingTopics topHeadlines everything env niche country timeframe
     = Listed topics /\
     topics <> [] /\
     Forall (fun x => t_source x <> str "Fallback") topics) /\
  ((0 < limit)%Z ->
   searchTopics topHeadlines everything env keyword niche limit <> []).
Proof.
  split.
  - destruct (source_trending_nonempty topHeadlines everything env niche country
                timeframe) as (topics & Heq & Hne).
    exists topics. split; [exact Heq|]. split; [exact Hne|].
    destruct (source_trending_tagged topHeadlines everything env niche country timeframe)
      as (g & n & r & t & Hres & Hsrc).
    unfold getTrendingTopics in Heq.
    rewrite (trending_returns _ _ _ _ _ _ _ _ _ Hres) in Heq. injection Heq as <-.
    pose proof (dedupe_then_slice t_title (g ++ n ++ r ++ t) 20) as (_ & _ & Hsub).
    apply Forall_forall. intros x Hx. rewrite Forall_forall in Hsrc. apply Hsrc.
    eapply elem_of_sublist; eassumption.
  - intros Hlimit.
    destruct (source_search_results topHeadlines everything env keyword niche limit)
      as (n & r & Hres & _ & _).
    unfold searchTopics. rewrite (search_returns _ _ _ _ _ _ _ Hres).
    apply dedupe_slice_nonempty; [|exact Hlimit].
    destruct Hres as [_ Hr]. cbn in Hr. injection Hr as <-.
    now destruct n.
Qed.

Lemma source_aggregators_never_fall_back_witness :
  (exists topics,
     getTrendingTopics headlines (fun _ _ => Throws) allKeys
       (str "technology") (str "US") (str "7d") = Listed topics /\
     (t_title <$> topics)
     = [ JStr (str "technology trends 2024"); JStr (str "Chips");
         JStr (str "Top technology discussions on Reddit");
         JStr (str "#technology trending on Twitter") ]) /\
  searchTopics headlines (fun _ _ => Throws) allKeys (str "ai") (str "technology") 1 <> [].
Proof.
  split; [eexists; split; vm_compute; reflexivity|].
  apply (source_aggregators_never_fall_back headlines (fun _ _ => Throws) allKeys
           (str "technology") (str "US") (str "7d") (str "ai") 1).
  lia.
Defined.

Section ImageFailureFacts.

Variable env : Images.Env.
Variable enc : jsstring -> jsstring.
Variables cu cp : Query -> outcome (list Photo).

Lemma collect_empty (perPage : Z) (queries : list jsstring) (images : list Photo) :
  (forall q, searchImages env enc cu cp q = []) ->
  Gallery.collect env enc cu cp perPage queries images = images.
Proof.
  intros H. revert images. induction queries as [|query rest IH]; intros images;
    [reflexivity|].
  cbn [Gallery.collect]. unfold Gallery.search. now rewrite H, app_nil_r, IH.
Qed.

End ImageFailureFacts.

Section ImageSourceFacts.

Variable env : Images.Env.
Variable enc : jsstring -> jsstring.
Variable unsplashApi : Query -> outcome (list UnsplashPhoto).
Variable pexelsApi : Query -> outcome (list PexelsPhoto).

Let cu := searchUnsplash unsplashApi.
Let cp := searchPexels pexelsApi.

(** What the two provider functions answer with: they never throw. *)
Lemma source_image_results (q : Query) :
  exists u x,
    imageResults env cu cp q u x /\
    Forall fromProvider (u ++ x) /\
    (unsplashApi q = Throws -> u = []) /\ (pexelsApi q = Throws -> x = []).
Proof.
  assert (Hu : exists u, cu q = Returns u /\ Forall fromProvider u /\
                         (unsplashApi q = Throws -> u = [])).
  { unfold cu, searchUnsplash. destruct (unsplashApi q) as [results|];
      cbn [mbind outcome_bind try_catch]; eexists; (split; [reflexivity|]); split;
      try (intros _; reflexivity); try discriminate; [|constructor].
    apply Forall_forall. intros y Hy.
    apply list_elem_of_fmap in Hy as (z & -> & _). now left. }
  assert (Hx : exists x, cp q = Returns x /\ Forall fromProvider x /\
                         (pexelsApi q = Throws -> x = [])).
  { unfold cp, searchPexels. destruct (pexelsApi q) as [photos|];
      cbn [mbind outcome_bind try_catch]; eexists; (split; [reflexivity|]); split;
      try (intros _; reflexivity); try discriminate; [|constructor].
    apply Forall_forall. intros y Hy.
    apply list_elem_of_fmap in Hy as (z & -> & _). now right. }
  destruct Hu as (u & Hu & Hfu & Heu). destruct Hx as (x & Hx & Hfx & Hex).
  unfold imageResults.
  destruct (truthy (UNSPLASH_ACCESS_KEY env)); destruct (truthy (PEXELS_API_KEY env)).
  - exists u, x. rewrite Forall_app. auto.
  - exists u, []. rewrite Forall_app. repeat split; auto.
  - exists [], x. rewrite Forall_app. repeat split; auto.
  - exists [], []. repeat split; auto.
Qed.

Lemma source_search_fromProvider (q : Query) :
  Forall fromProvider (searchImages env enc cu cp q).
Proof.
  destruct (source_image_results q) as (u & x & Hres & Hf & _).
  rewrite (images_return _ _ _ _ _ _ _ Hres).
  pose proof (dedupe_then_slice ph_url (u ++ x) (q_perPage q)) as (_ & _ & Hsub).
  apply Forall_forall. intros y Hy. rewrite Forall_forall in Hf. apply Hf.
  eapply elem_of_sublist; eassumption.
Qed.

Lemma source_search_empty (q : Query) :
  unsplashApi q = Throws -> pexelsApi q = Throws ->
  searchImages env enc cu cp q = [].
Proof.
  intros Hu Hx. destruct (source_image_results q) as (u & x & Hres & _ & Heu & Hex).
  rewrite (images_return _ _ _ _ _ _ _ Hres), (Heu Hu), (Hex Hx). apply slice0_nil.
Qed.

Lemma slice0_Forall {A} (P : A -> Prop) (l : list A) (k : Z) :
  Forall P l -> Forall P (slice0 l k).
Proof. intros H. destruct (slice0_take l k) as [m ->]. now apply Forall_take. Qed.

Lemma collect_Forall (P : Photo -> Prop) (perPage : Z) (queries : list jsstring)
    (images : list Photo) :
  (forall q, Forall P (searchImages env enc cu cp q)) ->
  Forall P images ->
  Forall P (Gallery.collect env enc cu cp perPage queries images).
Proof.
  intros H. revert images. induction queries as [|query rest IH]; intros images Hi;
    [exact Hi|].
  cbn [Gallery.collect]. apply IH. apply Forall_app. split; [exact Hi | apply H].
Qed.

Lemma firstQueries_own (niche : jsstring) :
  niche ∉ inheritedNames -> exists queries, Gallery.firstQueries niche = Returns queries.
Proof.
  intros Hn. unfold Gallery.firstQueries, getProperty.
  rewrite (bool_decide_eq_false_2 _ Hn).
  repeat case_match; try discriminate; eexists; reflexivity.
Qed.

Lemma firstQueries_inherited (niche : jsstring) :
  niche ∈ inheritedNames -> Gallery.firstQueries niche = Throws.
Proof.
  intros Hn. unfold inheritedNames in Hn.
  repeat (apply elem_of_cons in Hn as [->|Hn]; [vm_compute; reflexivity|]).
  now apply elem_of_nil in Hn.
Qed.

End ImageSourceFacts.

(** X12: with the provider functions of the source, which answer with
    the empty array when their request fails, the image search and the
    random operation never serve a placeholder: every image they answer with
    comes from a response of Unsplash or of Pexels, and when the requests
    fail the answer is the empty list.  The trending operation does the same
    for every niche but those named like a property that objects inherit
    (constructor, toString, ...): for such a niche it answers with the two
    placeholders, whatever the providers would return and whichever are
    configured. *)
Theorem image_placeholders_only_inherited
    (env : Images.Env) (enc : jsstring -> jsstring)
    (unsplashApi : Query -> outcome (list UnsplashPhoto))
    (pexelsApi : Query -> outcome (list PexelsPhoto)) :
  let cu := searchUnsplash unsplashApi in
  let cp := searchPexels pexelsApi in
  (forall q, Forall fromProvider (searchImages env enc cu cp q)) /\
  (forall page pick topic count,
     Forall fromProvider (Gallery.getRandomImages env enc cu cp page pick topic count)) /\
  (forall niche limit,
     if bool_decide (niche ∈ inheritedNames)
     then Gallery.getTrendingImages env enc cu cp niche limit
          = getFallbackImages enc niche
     else Forall fromProvider (Gallery.getTrendingImages env enc cu cp niche limit)) /\
  (forall q, unsplashApi q = Throws -> pexelsApi q = Throws ->
             searchImages env enc cu cp q = []) /\
  ((forall q, unsplashApi q = Throws) -> (forall q, pexelsApi q = Throws) ->
   forall niche limit page pick topic count,
     Gallery.getRandomImages env enc cu cp page pick topic count = [] /\
     (niche ∉ inheritedNames ->
      Gallery.getTrendingImages env enc cu cp niche limit = [])).
Proof.
  intros cu cp.
  pose proof (source_search_fromProvider env enc unsplashApi pexelsApi) as Hs.
  split; [exact Hs|]. split; [|split; [|split]].
  - intros page pick topic count. unfold Gallery.getRandomImages.
    apply slice0_Forall. unfold Gallery.shuffleArray.
    rewrite shuffleFrom_Permutation. apply Hs.
  - intros niche limit. case_bool_decide as Hn.
    + unfold Gallery.getTrendingImages. now rewrite firstQueries_inherited.
    + destruct (firstQueries_own niche Hn) as [queries Hq].
      unfold Gallery.getTrendingImages. rewrite Hq.
      cbn [mbind outcome_bind try_catch]. apply slice0_Forall.
      apply collect_Forall; [exact Hs | constructor].
  - intros q. apply source_search_empty.
  - intros Hu Hx niche limit page pick topic count.
    assert (He : forall q, searchImages env enc cu cp q = []).
    { intros q. apply source_search_empty; [apply Hu | apply Hx]. }
    split.
    + unfold Gallery.getRandomImages, Gallery.search. rewrite He. apply slice0_nil.
    + intros Hn. destruct (firstQueries_own niche Hn) as [queries Hq].
      unfold Gallery.getTrendingImages. rewrite Hq.
      cbn [mbind outcome_bind try_catch].
      rewrite collect_empty by exact He. apply slice0_nil.
Qed.

Lemma image_placeholders_only_inherited_witness :
  let failing := fun _ : Query => @Throws (list UnsplashPhoto) in
  let failing' := fun _ : Query => @Throws (list PexelsPhoto) in
  Gallery.getTrendingImages bothKeys (fun s => s) (searchUnsplash failing)
    (searchPexels failing') (str "travel") 10 = [] /\
  Gallery.getRandomImages bothKeys (fun s => s) (searchUnsplash failing)
    (searchPexels failing') 1 (fun _ => 0%nat) (str "cats") 5 = [] /\
  (ph_source <$> Gallery.getTrendingImages bothKeys (fun s => s) (searchUnsplash failing)
                   (searchPexels failing') (str "constructor") 10)
  = [str "Placeholder"; str "Placeholder"].
Proof.
  intros failing failing'.
  destruct (image_placeholders_only_inherited bothKeys (fun s => s) failing failing')
    as (_ & _ & Htr & _ & Hall).
  destruct (Hall (fun _ => eq_refl) (fun _ => eq_refl) (str "travel") 10%Z 1%Z
              (fun _ => 0%nat) (str "cats") 5%Z) as [Hr Ht].
  split; [apply Ht; apply (bool_decide_eq_false_1 (str "travel" ∈ inheritedNames));
          vm_compute; reflexivity|].
  split; [exact Hr|].
  specialize (Htr (str "constructor") 10%Z).
  assert (Hc : bool_decide (str "constructor" ∈ inheritedNames) = true)
    by (vm_compute; reflexivity).
  rewrite Hc in Htr.
  rewrite Htr. reflexivity.
Defined.

(** ** Output parser: the fallback split *)

Section SplitFacts.






End SplitFacts.





(** ** Article routes: ownership and deletion *)

Section OwnershipFacts.

Lemma findOne_foreign (db : gmap N Article) (uid articleId : N) :
  (forall a, db !! articleId = Some a -> userId a <> uid) ->
  findOne db articleId uid = None.
Proof.
  intros H. unfold findOne. destruct (db !! articleId) as [a|]; [|reflexivity].
  destruct (N.eqb_spec (userId a) uid) as [He|]; [|reflexivity].
  now destruct (H a eq_refl).
Qed.

End OwnershipFacts.

(** X14: a requester who does not own an article, or who names an id
    that does not exist, gets the same answer from reading, updating,
    regenerating and deleting: 404 "Article not found", with the collection
    left as it was. *)
Theorem foreign_article_not_found
    (openai : jsstring -> jsval -> outcome jsstring)
    (validates writes : Article -> bool) (db : gmap N Article) (uid articleId : N)
    (ubody : UpdateBody) (rbody : RegenerateBody) (now now' clock : N) :
  (forall a, db !! articleId = Some a -> userId a <> uid) ->
  ArticleOps.getOne db uid articleId = ArticleOps.Fail 404 (str "Article not found") /\
  update validates writes db uid articleId ubody now clock
  = (Articles.Error 404 (str "Article not found"), db) /\
  regenerate openai validates writes db uid articleId rbody now now' clock
  = (Articles.Error 404 (str "Article not found"), db) /\
  ArticleOps.remove db uid articleId
  = (ArticleOps.Fail 404 (str "Article not found"), db).
Proof.
  intros H. pose proof (findOne_foreign db uid articleId H) as Hf.
  unfold ArticleOps.getOne, update, regenerate, ArticleOps.remove.
  rewrite Hf. repeat split.
Qed.

Lemma foreign_article_not_found_witness :
  ArticleOps.getOne sampleDb 7 1 = ArticleOps.Found sampleArticle /\
  ArticleOps.getOne sampleDb 8 1 = ArticleOps.Fail 404 (str "Article not found") /\
  ArticleOps.remove sampleDb 8 1 = (ArticleOps.Fail 404 (str "Article not found"), sampleDb) /\
  update (fun _ => true) (fun _ => true) sampleDb 8 1 editingBody 2000 2002
  = (Articles.Error 404 (str "Article not found"), sampleDb).
Proof.
  assert (H : forall a, sampleDb !! 1%N = Some a -> userId a <> 8%N).
  { intros a Ha.
    assert (Hl : sampleDb !! 1%N = Some sampleArticle) by reflexivity.
    rewrite Hl in Ha. injection Ha as <-. discriminate. }
  destruct (foreign_article_not_found (fun _ _ => Throws) (fun _ => true) (fun _ => true)
              sampleDb 8 1 editingBody emptyRegenerate 2000 2001 2002 H)
    as (Hg & Hu & _ & Hd).
  split; [reflexivity|]. split; [exact Hg|]. split; [exact Hd | exact Hu].
Defined.

(** X15: deleting an owned article removes exactly that article: every
    other article stays as it was, and the deleted id then reads, and
    deletes again, as 404 for everyone. *)
Theorem remove_deletes_exactly_one
    (db : gmap N Article) (uid articleId : N) (a : Article) :
  db !! articleId = Some a ->
  userId a = uid ->
  let db' := (ArticleOps.remove db uid articleId).2 in
  (ArticleOps.remove db uid articleId).1
  = ArticleOps.Done (str "Article deleted successfully") /\
  db' !! articleId = None /\
  (forall other, other <> articleId -> db' !! other = db !! other) /\
  (forall anyone,
     ArticleOps.getOne db' anyone articleId
     = ArticleOps.Fail 404 (str "Article not found") /\
     ArticleOps.remove db' anyone articleId
     = (ArticleOps.Fail 404 (str "Article not found"), db')).
Proof.
  intros Hdb <- db'. subst db'.
  assert (Hrem : ArticleOps.remove db (userId a) articleId
                 = (ArticleOps.Done (str "Article deleted successfully"),
                    delete articleId db)).
  { unfold ArticleOps.remove. now rewrite (findOne_owned _ _ _ Hdb). }
  rewrite Hrem. cbn [fst snd].
  split; [reflexivity|]. split; [apply lookup_delete_eq|].
  split; [intros other Hne; now apply lookup_delete_ne|].
  intros anyone.
  assert (Hf : findOne (delete articleId db) articleId anyone = None).
  { apply findOne_foreign. intros b Hb. now rewrite lookup_delete_eq in Hb. }
  unfold ArticleOps.getOne, ArticleOps.remove. rewrite Hf. split; reflexivity.
Qed.

Lemma remove_deletes_exactly_one_witness :
  sampleDb !! 1%N = Some sampleArticle /\
  ArticleOps.remove sampleDb 7 1
  = (ArticleOps.Done (str "Article deleted successfully"), delete 1%N sampleDb) /\
  (ArticleOps.remove sampleDb 7 1).2 !! 1%N = None.
Proof.
  split; [reflexivity|]. split; [vm_compute; reflexivity|].
  exact (proj1 (proj2 (remove_deletes_exactly_one sampleDb 7 1 sampleArticle
                         eq_refl eq_refl))).
Defined.

(** ** Images of an article, publishing, sessions *)

(** A save that leaves the content as loaded: the document gets the time
    read at the save when it is modified, and the hook does not recount. *)
Lemma save_same_content (validates writes : Article -> bool) (db : gmap N Article)
    (a : Article) (f : Article -> Article) (clock : N) :
  content (f a) = content a ->
  save validates writes db (assign f {| loaded := a; current := a |}) clock =
  let a' := if bool_decide (f a = a) then a else set_updatedAt clock (f a) in
  if validates (f a) && writes a'
  then Returns (a', <[_id a' := a']> db) else Throws.
Proof.
  intros Hc. unfold save, timestampsPreSave, isModified, assign. cbn [current loaded].
  case_bool_decide as He; cbn [negb].
  - rewrite He. unfold preSave, isModified_content, eqb. cbn [current loaded].
    rewrite bool_decide_eq_true_2 by reflexivity. cbn.
    destruct (validates a); [|reflexivity]. now destruct (writes a).
  - unfold preSave, isModified_content, eqb. cbn [current loaded set_updatedAt content].
    rewrite Hc, bool_decide_eq_true_2 by reflexivity. cbn.
    destruct (validates (f a)); [|reflexivity]. now destruct (writes _).
Qed.

(** X18: [addImage] extends the numbering of the images: when the images
    of the article are numbered 1, 2, ... in their order, a successful call
    returns the article with one more image, placed last and numbered with
    its rank, the url as given; the images are still numbered in order, the
    content and the word count are as before, updatedAt is the time read at
    the save, and the stored article is the returned one. *)
Theorem addImage_keeps_numbering (validates writes : Article -> bool)
    (db db' : gmap N Article) (a a' : Article) (imageData : ArticleOps.ImageData)
    (clock : N) :
  wellNumbered (images a) ->
  ArticleOps.addImage validates writes db a imageData clock = Returns (a', db') ->
  wellNumbered (images a') /\
  (exists img, images a' = images a ++ [img] /\
               img_url img = ArticleOps.id_url imageData /\
               img_position img = Z.of_nat (length (images a'))) /\
  content a' = content a /\ wordCount a' = wordCount a /\
  updatedAt a' = clock /\
  db' = <[_id a := a']> db.
Proof.
  intros Hw H. unfold ArticleOps.addImage in H.
  rewrite save_same_content in H by reflexivity.
  cbv zeta in H. rewrite bool_decide_eq_false_2 in H.
  2:{ intros E. apply (f_equal (fun x => length (images x))) in E.
      cbn in E. rewrite length_app in E. cbn in E. lia. }
  destruct (_ && _); [|discriminate H]. injection H as <- <-.
  cbn [images ArticleOps.set_images set_updatedAt content wordCount _id updatedAt].
  split; [|split; [|repeat split]].
  - intros i img Hi. apply lookup_app_Some in Hi as [Hi|[Hl Hi]].
    + now apply Hw.
    + apply list_lookup_singleton_Some in Hi as [Hi <-]. cbn. lia.
  - eexists. split; [reflexivity|]. split; [reflexivity|].
    cbn. rewrite length_app. cbn. lia.
Qed.

Lemma addImage_keeps_numbering_witness :
  wellNumbered (images illustratedArticle) /\
  exists a' db',
    ArticleOps.addImage schemaValidates (fun _ => true)
              {[ 1%N := illustratedArticle ]} illustratedArticle
      sampleImageData 2002 = Returns (a', db') /\
    (img_position <$> images a') = [1%Z; 2%Z] /\
    wellNumbered (images a').
Proof.
  assert (Hw : wellNumbered (images illustratedArticle)).
  { intros [|[|i]] img Hi; [|discriminate Hi ..]. injection Hi as <-. reflexivity. }
  split; [exact Hw|].
  destruct (ArticleOps.addImage schemaValidates (fun _ => true)
              {[ 1%N := illustratedArticle ]} illustratedArticle
              sampleImageData 2002) as [[a' db']|] eqn:Ha;
    [|vm_compute in Ha; discriminate Ha].
  exists a', db'. split; [reflexivity|].
  split; [vm_compute in Ha; injection Ha as <- _; reflexivity|].
  exact (proj1 (addImage_keeps_numbering _ _ _ _ _ _ _ _ Hw Ha)).
Defined.

(** X19: the publishing route records a post on the article only when the
    remote site has accepted it.  Every error answer leaves the collection
    as it was; a success answer means that the requester owns the article,
    that their blog is connected, that the remote call returned the post
    whose id and link are answered, and that the stored article differs
    from the loaded one in two fields alone: its [blogPost], which now holds
    that id, that link, the handler's date and the publish status, and its
    updatedAt, which is the time read at the save. *)
Theorem post_records_accepted_posts
    (postPost : jsstring -> Publisher.PostData -> jsstring -> jsval ->
                Blog.Remote Publisher.WpPost)
    (uploadFeaturedImage : jsval -> Blog.Wordpress -> jsval)
    (validates writes : Article -> bool) (db db' : gmap N Article) (uid : N)
    (user : option (option Blog.Wordpress)) (body : Publisher.PostBody) (now clock : N)
    (reply : Blog.Reply Publisher.PostInfo) :
  Publisher.post postPost uploadFeaturedImage validates writes db uid user body now clock
  = (reply, db') ->
  match reply with
  | Blog.Err _ _ => db' = db
  | Blog.Ok info =>
      exists articleId a w wp,
        Publisher.pb_articleId body = Some articleId /\
        db !! articleId = Some a /\ userId a = uid /\
        user = Some (Some w) /\ Blog.connected w = true /\
        Publisher.postToWordPress postPost uploadFeaturedImage a w
          (ArticleOps.orDefault (Publisher.pb_publishStatus body) (JStr (str "draft")))
          (ArticleOps.orDefault (Publisher.pb_featuredImage body) JNull)
        = Blog.Success wp /\
        Publisher.po_postId info = Publisher.wp_id wp /\
        Publisher.po_postUrl info = Publisher.wp_link wp /\
        let posted :=
          ArticleOps.set_blogPost
            (Some {| bp_postId := toString (JNum (Publisher.wp_id wp));
                     bp_postUrl := Publisher.wp_link wp;
                     bp_publishedAt := now;
                     bp_status :=
                       castString (ArticleOps.orDefault
                                     (Publisher.pb_publishStatus body)
                                     (JStr (str "draft")));
                     bp_featuredImage := None |}) a in
        db' = <[_id a := if bool_decide (posted = a) then a
                         else set_updatedAt clock posted]> db
  end.
Proof.
  unfold Publisher.post. intros H.
  destruct (Publisher.pb_articleId body) as [articleId|]; [|now injection H as <- <-].
  unfold findOne in H.
  destruct (db !! articleId) as [a|] eqn:Hdb; [|now injection H as <- <-].
  destruct (userId a =? uid)%N eqn:Hu; [|now injection H as <- <-].
  apply N.eqb_eq in Hu.
  destruct user as [wordpress|]; [|now injection H as <- <-].
  destruct (Blog.isConnected wordpress) as [w|] eqn:Hw; [|now injection H as <- <-].
  cbn [current] in H.
  destruct (Publisher.postToWordPress _ _ a w _ _) as [wp|e] eqn:Hp;
    [|now injection H as <- <-].
  rewrite save_same_content in H by reflexivity.
  cbv zeta in H.
  set (posted := ArticleOps.set_blogPost _ a) in H.
  assert (Hid : _id (if bool_decide (posted = a) then a else set_updatedAt clock posted)
                = _id a) by (case_bool_decide; reflexivity).
  rewrite Hid in H.
  destruct (_ && _); [|now injection H as <- <-].
  injection H as <- <-.
  exists articleId, a, w, wp.
  unfold Blog.isConnected in Hw. destruct wordpress as [w0|]; [|discriminate Hw].
  destruct (Blog.connected w0) eqn:Hc; [|discriminate Hw]. injection Hw as ->.
  do 8 (split; [assumption || reflexivity|]). reflexivity.
Qed.

Lemma post_records_accepted_posts_witness :
  exists info db',
    Publisher.post samplePostPost (fun _ _ => JNull) schemaValidates (fun _ => true)
      longDb 7 (Some (Some sampleBlog)) samplePostBody 2000 2002 = (Blog.Ok info, db') /\
    Publisher.po_postId info = 31%Z /\
    db' = <[1%N := set_updatedAt 2002
                     (ArticleOps.set_blogPost
                        (Some {| bp_postId := str "31";
                                 bp_postUrl := Publisher.po_postUrl info;
                                 bp_publishedAt := 2000;
                                 bp_status := JStr (str "draft");
                                 bp_featuredImage := None |}) longArticle)]> longDb.
Proof.
  destruct (Publisher.post samplePostPost (fun _ _ => JNull) schemaValidates
              (fun _ => true) longDb 7 (Some (Some sampleBlog)) samplePostBody 2000 2002)
    as [reply db'] eqn:Hp.
  pose proof (post_records_accepted_posts _ _ _ _ _ _ _ _ _ _ _ _ Hp) as H.
  assert (Hr : exists info, reply = Blog.Ok info).
  { vm_compute in Hp. injection Hp as <- _. eexists. reflexivity. }
  destruct Hr as [info ->].
  destruct H as (articleId & a & w & wp & Hid & Hdb & _ & _ & _ & Hpost & Hi & Hl & ->).
  injection Hid as <-.
  assert (Hs : longDb !! 1%N = Some longArticle) by reflexivity.
  rewrite Hs in Hdb. injection Hdb as <-.
  vm_compute in Hpost. injection Hpost as <-.
  eexists info, _. split; [reflexivity|]. split; [exact Hi|].
  rewrite Hl. reflexivity.
Defined.

(** X20: the connect route stores credentials only after the probe of the
    remote site has succeeded with them.  Every error answer, among them the
    answers to missing fields and to a failed probe, leaves the stored
    settings as they were; after a success answer the stored [wordpress]
    entry is marked connected, dated with the time of the call, and holds
    the submitted site url and user name, and the answer carries what the
    probe returned. *)
Theorem connect_stores_probed_credentials
    (getUsersMe : jsstring -> jsstring -> jsval -> Blog.Remote Blog.UserMe)
    (saves : Publisher.BlogSettings -> bool)
    (settings settings' : option Publisher.BlogSettings)
    (body : Publisher.ConnectBody) (now : N) (reply : Blog.Reply Blog.BlogInfo) :
  Publisher.connect getUsersMe saves settings body now = (reply, settings') ->
  match reply with
  | Blog.Err _ _ => settings' = settings
  | Blog.Ok info =>
      exists url s' w,
        Publisher.cb_siteUrl body = JStr url /\
        Blog.testWordPressConnection getUsersMe url
          (toString (Publisher.cb_username body))
          (or_else (Publisher.cb_password body) (Publisher.cb_apiKey body))
        = Blog.Success info /\
        settings' = Some s' /\ saves s' = true /\
        Publisher.bs_wordpress s' = Some (w, Some now) /\
        Blog.connected w = true /\ Blog.siteUrl w = url /\
        Blog.wp_username w = toString (Publisher.cb_username body)
  end.
Proof.
  unfold Publisher.connect. intros H.
  destruct (_ || _); [now injection H as <- <-|].
  unfold Publisher.probe in H.
  destruct (Publisher.cb_siteUrl body) as [| |b|n|url] eqn:Hurl;
    try now injection H as <- <-.
  destruct (Blog.testWordPressConnection _ _ _ _) as [info|e] eqn:Ht;
    [|now injection H as <- <-].
  destruct settings as [s|]; [|now injection H as <- <-].
  destruct (saves _) eqn:Hs; [|now injection H as <- <-].
  injection H as <- <-.
  eexists url, _, _. repeat split; try eassumption; reflexivity.
Qed.

Lemma connect_stores_probed_credentials_witness :
  exists info s' w,
    Publisher.connect sampleUsersMe (fun _ => true) (Some sampleSettings) sampleConnect 2000
    = (Blog.Ok info, Some s') /\
    Publisher.bs_wordpress s' = Some (w, Some 2000%N) /\
    Blog.connected w = true /\
    Blog.siteUrl w = str "https://blog.example/" /\
    Blog.wp_username w = str "alice".
Proof.
  destruct (Publisher.connect sampleUsersMe (fun _ => true) (Some sampleSettings)
              sampleConnect 2000) as [reply settings'] eqn:Hc.
  pose proof (connect_stores_probed_credentials _ _ _ _ _ _ _ Hc) as H.
  assert (Hr : exists info, reply = Blog.Ok info).
  { vm_compute in Hc. injection Hc as <- _. eexists. reflexivity. }
  destruct Hr as [info ->].
  destruct H as (url & s' & w & Hurl & _ & -> & _ & Hw & Hcon & Hsite & Hname).
  injection Hurl as <-.
  exists info, s', w. repeat split; assumption.
Defined.

(** [findOne] on a collection that had no user with the address and got
    one appended. *)
Lemma findOne_appended (users : list Auth.User) (u : Auth.User) :
  Auth.findOne users (Auth.email u) = None ->
  Auth.findOne (users ++ [u]) (Auth.email u) = Some u.
Proof.
  unfold Auth.findOne. induction users as [|v users IH]; cbn.
  - intros _. now rewrite decide_True by reflexivity.
  - destruct (decide (Auth.email v = Auth.email u)); [discriminate|].
    intros H. destruct (list_find _ users) as [[i x]|] eqn:Hf; [discriminate H|].
    cbn in IH. specialize (IH eq_refl).
    destruct (list_find _ (users ++ [u])) as [[j y]|]; [|discriminate IH].
    exact IH.
Qed.

(** X21: after a successful registration, a login under the registered
    address is decided by [bcrypt.compare] of the offered password against
    the hash of the hash of the registered one: it is answered with the
    token of the new user exactly when that comparison accepts, and with the
    invalid-credentials error otherwise.  So the registered password itself
    opens the session only if bcrypt accepts it against the hash of its own
    hash. *)
Theorem login_after_register
    (bcrypt_hash : jsstring -> jsstring -> jsstring)
    (bcrypt_compare : jsstring -> jsstring -> bool)
    (castUsername castEmail : jsval -> jsval)
    (jwt_sign : N -> jsstring)
    (validates writes : Auth.User -> bool) (users users' : list Auth.User)
    (body : Auth.RegisterBody) (id : N) (salt1 salt2 token : jsstring)
    (id' : N) (name mail : jsval) (pw offered : jsstring) :
  Auth.register bcrypt_hash jwt_sign validates writes castUsername castEmail
    users body id salt1 salt2
  = (Auth.Token token id' name mail, users') ->
  Auth.rb_password body = JStr pw ->
  match Session.login bcrypt_compare castEmail jwt_sign users' (Auth.rb_email body)
          (JStr offered) with
  | Session.LoggedIn token' id'' _ _ _ =>
      bcrypt_compare offered (bcrypt_hash (bcrypt_hash pw salt1) salt2) = true /\
      token' = jwt_sign id /\ id'' = id
  | Session.Fail code error =>
      bcrypt_compare offered (bcrypt_hash (bcrypt_hash pw salt1) salt2) = false /\
      code = 400%N /\ error = str "Invalid credentials"
  | Session.Profile _ _ _ _ _ => False
  end.
Proof.
  intros H Hp.
  destruct (Auth.findOne users (castEmail (Auth.rb_email body))) eqn:Hf.
  { unfold Auth.register in H. rewrite Hf in H. discriminate H. }
  rewrite (register_new_user bcrypt_hash jwt_sign validates writes castUsername
             castEmail users body id salt1 salt2 pw Hf Hp) in H.
  cbv zeta in H. destruct (_ && _); [|discriminate H].
  injection H as _ _ _ _ <-.
  unfold Session.login.
  pose proof (findOne_appended users
                {| Auth.u_id := id;
                   Auth.username := castUsername (Auth.rb_username body);
                   Auth.email := castEmail (Auth.rb_email body);
                   Auth.password := JStr (bcrypt_hash (bcrypt_hash pw salt1) salt2);
                   Auth.blogSettings := default [] (Auth.rb_blogSettings body) |} Hf)
    as Hfound.
  cbn [Auth.email] in Hfound. rewrite Hfound.
  cbn. destruct (bcrypt_compare offered _); cbn; repeat split.
Qed.

Lemma login_after_register_witness :
  exists users',
    Auth.register toyHash (fun _ => str "jwt") (fun _ => true) (fun _ => true)
      castName castAddress [] mixedRegistration 5 (str "s1") (str "s2")
    = (Auth.Token (str "jwt") 5 (JStr (str " Alice ")) (JStr (str "Alice@Example.ORG")),
       users') /\
    Session.login toyCompare castAddress (fun _ => str "jwt") users'
      (JStr (str "Alice@Example.ORG")) (JStr (str "hunter22"))
    = Session.Fail 400 (str "Invalid credentials") /\
    exists name mail settings,
      Session.login toyCompare castAddress (fun _ => str "jwt") users'
        (JStr (str "Alice@Example.ORG")) (JStr (toyHash (str "hunter22") (str "s1")))
      = Session.LoggedIn (str "jwt") 5 name mail settings.
Proof.
  destruct (Auth.register toyHash (fun _ => str "jwt") (fun _ => true) (fun _ => true)
              castName castAddress [] mixedRegistration 5 (str "s1") (str "s2"))
    as [reply users'] eqn:Hr.
  assert (Hreply : reply = Auth.Token (str "jwt") 5 (JStr (str " Alice "))
                             (JStr (str "Alice@Example.ORG"))).
  { vm_compute in Hr. injection Hr as <- _. reflexivity. }
  subst reply. exists users'. split; [reflexivity|]. split.
  - pose proof (login_after_register toyHash toyCompare castName castAddress _ _ _ _ _
                  _ _ _ _ _ _ _ _ (str "hunter22") (str "hunter22") Hr eq_refl) as H.
    cbn [Auth.rb_email mixedRegistration] in H.
    destruct (Session.login _ _ _ _ _ _) as [| |code error].
    + destruct H as [H _]. vm_compute in H. discriminate H.
    + destruct H.
    + destruct H as (_ & -> & ->). reflexivity.
  - pose proof (login_after_register toyHash toyCompare castName castAddress _ _ _ _ _
                  _ _ _ _ _ _ _ _ (str "hunter22") (toyHash (str "hunter22") (str "s1"))
                  Hr eq_refl) as H.
    cbn [Auth.rb_email mixedRegistration] in H.
    destruct (Session.login _ _ _ _ _ _) as [token' id'' name mail settings| |code error].
    + destruct H as (_ & -> & ->). exists name, mail, settings. reflexivity.
    + destruct H.
    + destruct H as [H _]. vm_compute in H. discriminate H.
Defined.

(** X22: a profile update never touches the password: whatever the body,
    the user stored afterwards has the password and the id of the user
    loaded, as the hook finds the password path unmodified and leaves it
    unhashed.  An error answer leaves the stored user and style as they
    were, and a success answer leaves the stored name, resp. address,
    unchanged when the body's value for it is falsy. *)
Theorem profile_keeps_password
    (bcrypt_hash : jsstring -> jsstring -> jsstring)
    (castUsername castEmail : jsval -> jsval)
    (validates writes : Auth.User -> bool) (u u' : Auth.User)
    (style style' : option Style) (body : Session.ProfileBody) (salt : jsstring)
    (reply : Session.Reply) :
  Session.profile bcrypt_hash castUsername castEmail validates writes
    (Some (u, style)) body salt
  = (reply, Some (u', style')) ->
  Auth.password u' = Auth.password u /\ Auth.u_id u' = Auth.u_id u /\
  match reply with
  | Session.Profile id name mail _ ws =>
      id = Auth.u_id u /\ name = Auth.username u' /\ mail = Auth.email u' /\
      ws = style' /\
      (truthy (Session.pf_username body) = false -> Auth.username u' = Auth.username u) /\
      (truthy (Session.pf_email body) = false -> Auth.email u' = Auth.email u)
  | Session.Fail _ _ => u' = u /\ style' = style
  | Session.LoggedIn _ _ _ _ _ => False
  end.
Proof.
  unfold Session.profile, Auth.preSave.
  cbn [Auth.modifiedPassword negb mbind outcome_bind Auth.doc].
  destruct (validates _); [|cbn; intros H; injection H as <- <- <-; auto].
  destruct (writes _); [|cbn; intros H; injection H as <- <- <-; auto].
  cbn [try_catch]. intros H. injection H as <- <- <-.
  destruct (truthy (Session.pf_username body)), (truthy (Session.pf_email body)),
    (Session.pf_blogSettings body); cbn; repeat split; congruence.
Qed.

Lemma profile_keeps_password_witness :
  exists reply u',
    Session.profile toyHash (fun v => v) (fun v => v) (fun _ => true) (fun _ => true)
      (Some (sampleUser, None)) sampleProfile (str "s3") = (reply, Some (u', None)) /\
    Auth.password u' = JStr (toyHash (str "hunter22") (str "s1")) /\
    Auth.username u' = JStr (str "alicia") /\
    Auth.email u' = JStr (str "alice@example.org").
Proof.
  destruct (Session.profile toyHash (fun v => v) (fun v => v) (fun _ => true)
              (fun _ => true) (Some (sampleUser, None)) sampleProfile (str "s3"))
    as [reply [[u' style']|]] eqn:Hp; [|vm_compute in Hp; discriminate Hp].
  assert (Hs : style' = None /\ Auth.username u' = JStr (str "alicia") /\
               exists bs, reply = Session.Profile 5 (JStr (str "alicia"))
                                    (JStr (str "alice@example.org")) bs None).
  { vm_compute in Hp. injection Hp as <- <- <-. repeat split. eexists. reflexivity. }
  destruct Hs as (-> & Hname & bs & ->).
  destruct (profile_keeps_password _ _ _ _ _ _ _ _ _ _ _ _ Hp)
    as (Hpw & _ & _ & _ & _ & _ & _ & Hmail).
  eexists _, u'. split; [reflexivity|]. split; [exact Hpw|]. split; [exact Hname|].
  exact (Hmail eq_refl).
Defined.
